(** * kubectl-api-resource-versions: the discovery, filtering, sorting and
      printing pipeline of [internal/cmd], embedded in Rocq.

    The development follows the revision of the command that joins every
    resource with the server's preferred-resources summary
    ([getPreferredResourceVersions], [processGroupResources], ...).  The
    earlier revision kept at [internal/cmd/apiresourceversions.go] is embedded
    in the module [Legacy] where the two differ on a point studied here.

    Go values are embedded as follows:
    - a Go [string] is a [string] (a sequence of bytes), compared bytewise;
    - a slice is a [list]; the [nil] slice and the empty slice are both [[]];
    - a [map[string]string] is a [gmap string string]; the [nil] map is [∅];
    - a function returning [(T, error)] returns a pair [T * option error];
    - a [panic] is the constructor [Panic] of [outcome];
    - the discovery client and the tab writer, which the command only
      consumes, are interfaces (type classes) with concrete in-memory
      instances. *)

From Stdlib Require Import String Ascii List Bool Arith Lia.
From Stdlib Require Import Sorting.Sorted Sorting.Permutation.
From Stdlib Require Import Structures.OrdersEx.
From Stdlib Require Import ZArith DecimalString.
From stdpp Require Import base gmap strings list fin_maps sorting.
Import ListNotations.

Local Open Scope string_scope.
Local Open Scope list_scope.
Local Set Warnings "-register-all".

(** ** The [strings] package, as far as the command uses it *)

Module strings.

(** [strings.Contains(s, substr)]. *)
Fixpoint Contains (s substr : string) : bool :=
  String.prefix substr s
  || match s with
     | EmptyString => false
     | String _ s' => Contains s' substr
     end.

(** [strings.Count(s, sep)] for a separator of one byte. *)
Fixpoint CountByte (s : string) (sep : ascii) : nat :=
  match s with
  | EmptyString => 0
  | String c s' => (if Ascii.eqb c sep then 1 else 0) + CountByte s' sep
  end.

(** [strings.Cut(s, sep)] for a separator of one byte: the text before the
    first [sep] and, when there is one, the text after it. *)
Fixpoint CutByte (s : string) (sep : ascii) : string * option string :=
  match s with
  | EmptyString => (EmptyString, None)
  | String c s' =>
      if Ascii.eqb c sep then (EmptyString, Some s')
      else let '(before, after) := CutByte s' sep in (String c before, after)
  end.

(** [strings.SplitN(s, sep, 2)] for a separator of one byte: one part when
    [sep] does not occur, else the parts around its first occurrence. *)
Definition SplitN2 (s : string) (sep : ascii) : list string :=
  match CutByte s sep with
  | (before, None) => [before]
  | (before, Some after) => [before; after]
  end.

(** [strings.Join(elems, sep)]. *)
Definition Join (elems : list string) (sep : string) : string :=
  String.concat sep elems.

End strings.

(** ** Errors *)

(** The [error] values the command builds or passes on.  [fmt.Errorf] with a
    [%w] verb gives a [wrapError]: its message is already formatted and
    [Unwrap] gives back the cause. *)
Inductive error : Type :=
| errorString (msg : string)
| constError (msg : string)
| wrapError (msg : string) (cause : error)
| aggregate (errs : list error).

(** The message of an aggregate of messages ([Aggregate.Error] of
    [k8s.io/apimachinery/pkg/util/errors]): repeated messages are reported
    once, and more than one message is bracketed. *)
Fixpoint dedupMessages (seen msgs : list string) : list string :=
  match msgs with
  | [] => []
  | m :: msgs' =>
      if bool_decide (m ∈ seen) then dedupMessages seen msgs'
      else m :: dedupMessages (m :: seen) msgs'
  end.

Definition aggregateMessage (msgs : list string) : string :=
  match msgs with
  | [] => ""
  | [m] => m
  | _ =>
      match dedupMessages [] msgs with
      | [m] => m
      | ms => "[" +:+ strings.Join ms ", " +:+ "]"
      end
  end.

(** [err.Error()].  The row errors the command aggregates are never
    aggregates themselves, so nested aggregates are not flattened here. *)
Fixpoint Error (e : error) : string :=
  match e with
  | errorString msg => msg
  | constError msg => msg
  | wrapError msg _ => msg
  | aggregate errs => aggregateMessage (map Error errs)
  end.

(** [fmt.Errorf(context + ": %w", err)]. *)
Definition Errorf_w (context : string) (err : error) : error :=
  wrapError (context +:+ ": " +:+ Error err) err.


(** What a call does: it returns, or it panics. *)
Inductive outcome (A : Type) : Type :=
| Return (a : A)
| Panic (msg : string).
Arguments Return {A} a.
Arguments Panic {A} msg.

(** ** [k8s.io/apimachinery]: the discovery data and [schema.ParseGroupVersion]

    Each Go struct is a record [t] in a module of the struct's name, so that
    [APIGroup.Name g] reads as [g.Name] does in the source. *)

Module GroupVersionForDiscovery.
Record t : Type := {
  GroupVersion : string;
  Version : string
}.
End GroupVersionForDiscovery.

Module APIGroup.
Record t : Type := {
  Name : string;
  Versions : list GroupVersionForDiscovery.t;
  PreferredVersion : GroupVersionForDiscovery.t
}.
End APIGroup.

Module APIGroupList.
Record t : Type := {
  Groups : list APIGroup.t
}.
End APIGroupList.

Module APIResource.
Record t : Type := {
  Name : string;
  SingularName : string;
  Namespaced : bool;
  Group : string;
  Kind : string;
  Verbs : list string;
  ShortNames : list string;
  Categories : list string
}.

(** [resource.Group = group], on the loop's copy of the descriptor. *)
Definition setGroup (resource : t) (group : string) : t :=
  {| Name := Name resource;
     SingularName := SingularName resource;
     Namespaced := Namespaced resource;
     Group := group;
     Kind := Kind resource;
     Verbs := Verbs resource;
     ShortNames := ShortNames resource;
     Categories := Categories resource |}.
End APIResource.

Module APIResourceList.
Record t : Type := {
  GroupVersion : string;
  APIResources : list APIResource.t
}.
End APIResourceList.

Module schema.

Module GroupVersion.
Record t : Type := {
  Group : string;
  Version : string
}.
End GroupVersion.

(** [schema.ParseGroupVersion]: the empty string and ["/"] give the empty
    group version; a string without ['/'] is a version of the core group;
    one ['/'] separates group and version; more are refused. *)
Definition ParseGroupVersion (gv : string) : GroupVersion.t * option error :=
  if (String.length gv =? 0)%nat || String.eqb gv "/"
  then ({| GroupVersion.Group := ""; GroupVersion.Version := "" |}, None)
  else
    match strings.CountByte gv "/" with
    | 0 => ({| GroupVersion.Group := ""; GroupVersion.Version := gv |}, None)
    | 1 =>
        let '(group, version) := strings.CutByte gv "/" in
        ({| GroupVersion.Group := group;
            GroupVersion.Version := default "" version |}, None)
    | _ =>
        ({| GroupVersion.Group := ""; GroupVersion.Version := "" |},
         Some (errorString ("unexpected GroupVersion string: " +:+ gv)))
    end.

End schema.

(** ** The command's own data *)

Definition wideOutput : string := "wide".
Definition nameOutput : string := "name".
Definition nameSortBy : string := "name".
Definition kindSortBy : string := "kind".

(** [apiResourceVersionsOptions], without the I/O streams and the discovery
    client, which the functions below take as arguments of their own. *)
Module options.
Record t : Type := {
  Output : string;
  SortBy : string;
  APIGroup : string;
  Namespaced : bool;
  Verbs : list string;
  NoHeaders : bool;
  Cached : bool;
  Categories : list string;
  Preferred : bool;
  groupChanged : bool;
  nsChanged : bool;
  preferredChanged : bool
}.
End options.

(** [newAPIResourceVersionsOptions]: every field zero but [Namespaced]. *)
Definition newAPIResourceVersionsOptions : options.t :=
  {| options.Output := ""; options.SortBy := ""; options.APIGroup := "";
     options.Namespaced := true; options.Verbs := [];
     options.NoHeaders := false; options.Cached := false;
     options.Categories := []; options.Preferred := false;
     options.groupChanged := false; options.nsChanged := false;
     options.preferredChanged := false |}.

(** [groupResource]: a versioned API resource. *)
Module groupResource.
Record t : Type := {
  APIGroup : APIGroup.t;
  APIGroupVersion : string;
  APIResource : APIResource.t;
  Preferred : bool
}.
End groupResource.

(** [groupResource.PreferredGroupVersion]. *)
Definition PreferredGroupVersion (gr : groupResource.t) : bool :=
  String.eqb
    (GroupVersionForDiscovery.GroupVersion
       (APIGroup.PreferredVersion (groupResource.APIGroup gr)))
    (groupResource.APIGroupVersion gr).

(** [groupResource.fullname]: the name kubectl expects, or a panic when the
    group version does not parse or names another group. *)
Definition fullname (gr : groupResource.t) : outcome string :=
  match schema.ParseGroupVersion (groupResource.APIGroupVersion gr) with
  | (_, Some err) => Panic ("error parsing group version: " +:+ Error err)
  | (groupVersion, None) =>
      if negb (String.eqb (schema.GroupVersion.Group groupVersion)
                          (APIGroup.Name (groupResource.APIGroup gr)))
      then Panic ("group version " +:+ schema.GroupVersion.Group groupVersion
                  +:+ " does not match group "
                  +:+ APIGroup.Name (groupResource.APIGroup gr))
      else Return (APIResource.Name (groupResource.APIResource gr)
                   +:+ "." +:+ schema.GroupVersion.Version groupVersion
                   +:+ "." +:+ APIGroup.Name (groupResource.APIGroup gr))
  end.

Definition errNoResourcesFound : error := constError "no resources found".

(** [splitResourceName]: the resource name and, when the name has a ['/'],
    the subresource name after the first one. *)
Definition splitResourceName (resourceName : string) : string * option string :=
  match strings.SplitN2 resourceName "/" with
  | [part] => (part, None)
  | part :: subresourceName :: _ => (part, Some subresourceName)
  | [] => ("", None)
  end.

(** [unversionedResourceName]: ["<resource>.<group>"] and the subresource
    name when there is one. *)
Definition unversionedResourceName (resource : APIResource.t) : string * option string :=
  let '(resourceName, subresourceName) := splitResourceName (APIResource.Name resource) in
  (resourceName +:+ "." +:+ APIResource.Group resource, subresourceName).

(** ** The discovery client *)

(** [discovery.CachedDiscoveryInterface], as far as the command calls it.  A
    client value is the state the calls answer from; [Invalidate] changes it,
    the three listings only read it. *)
Class CachedDiscoveryInterface (T : Type) : Type := {
  Invalidate : T -> T;
  ServerGroups : T -> APIGroupList.t * option error;
  ServerResourcesForGroupVersion : T -> string -> APIResourceList.t * option error;
  ServerPreferredResources : T -> list APIResourceList.t * option error
}.

(** The in-memory client of the tests ([FakeCachedDiscoveryClientBuilder]):
    groups, resource lists and preferred resource lists given up front. *)
Module FakeCachedDiscoveryClient.
Record t : Type := {
  Groups : list APIGroup.t;
  Resources : list APIResourceList.t;
  PreferredResources : list APIResourceList.t;
  Invalidations : nat
}.
End FakeCachedDiscoveryClient.

Definition emptyResourceList : APIResourceList.t :=
  {| APIResourceList.GroupVersion := ""; APIResourceList.APIResources := [] |}.

Definition quote : string := String "034"%char EmptyString.

(** The error of the fake for a group version it has no resource list of. *)
Definition notFound (groupVersion : string) : error :=
  errorString ("the server could not find the requested resource, GroupVersion "
               +:+ quote +:+ groupVersion +:+ quote +:+ " not found").

(** The fake's lookup of a group version among its resource lists. *)
Fixpoint fakeResourcesFor (lists : list APIResourceList.t) (groupVersion : string)
  : APIResourceList.t * option error :=
  match lists with
  | [] => (emptyResourceList, Some (notFound groupVersion))
  | resourceList :: rest =>
      if String.eqb (APIResourceList.GroupVersion resourceList) groupVersion
      then (resourceList, None)
      else fakeResourcesFor rest groupVersion
  end.

#[export] Instance fakeClient : CachedDiscoveryInterface FakeCachedDiscoveryClient.t := {
  Invalidate c :=
    {| FakeCachedDiscoveryClient.Groups := FakeCachedDiscoveryClient.Groups c;
       FakeCachedDiscoveryClient.Resources := FakeCachedDiscoveryClient.Resources c;
       FakeCachedDiscoveryClient.PreferredResources :=
         FakeCachedDiscoveryClient.PreferredResources c;
       FakeCachedDiscoveryClient.Invalidations :=
         S (FakeCachedDiscoveryClient.Invalidations c) |};
  ServerGroups c :=
    ({| APIGroupList.Groups := FakeCachedDiscoveryClient.Groups c |}, None);
  ServerResourcesForGroupVersion c groupVersion :=
    fakeResourcesFor (FakeCachedDiscoveryClient.Resources c) groupVersion;
  ServerPreferredResources c :=
    (FakeCachedDiscoveryClient.PreferredResources c, None)
}.

(** ** The filters *)

(** [sets.New(items...).HasAll(wanted...)]. *)
Definition HasAll (items wanted : list string) : bool :=
  let set : gset string := list_to_set items in
  forallb (fun item => bool_decide (item ∈ set)) wanted.

(** [excludeGroup]. *)
Definition excludeGroup (group : APIGroup.t) (o : options.t) : bool :=
  if options.groupChanged o && negb (String.eqb (options.APIGroup o) (APIGroup.Name group))
  then true
  else false.

(** [excludeGroupResource]. *)
Definition excludeGroupResource (resource : groupResource.t) (o : options.t) : bool :=
  let apiResource := groupResource.APIResource resource in
  if strings.Contains (APIResource.Name apiResource) "/" then true
  else if options.nsChanged o
          && negb (Bool.eqb (options.Namespaced o) (APIResource.Namespaced apiResource))
  then true
  else if negb (length (options.Verbs o) =? 0)%nat
          && negb (HasAll (APIResource.Verbs apiResource) (options.Verbs o))
  then true
  else if negb (length (options.Categories o) =? 0)%nat
          && negb (HasAll (APIResource.Categories apiResource) (options.Categories o))
  then true
  else if options.preferredChanged o
          && negb (Bool.eqb (options.Preferred o) (groupResource.Preferred resource))
  then true
  else false.

(** ** The preferred-version index *)

(** The inner loop of [getPreferredResourceVersions]: the descriptors of one
    resource list, whose group version parsed to [group] and [version]. *)
Fixpoint indexResources (group version : string) (apiResources : list APIResource.t)
    (preferredVersions : gmap string string) : gmap string string :=
  match apiResources with
  | [] => preferredVersions
  | resource :: rest =>
      let resource := APIResource.setGroup resource group in
      match unversionedResourceName resource with
      | (_, Some _) => indexResources group version rest preferredVersions
      | (resourceKey, None) =>
          indexResources group version rest (<[resourceKey := version]> preferredVersions)
      end
  end.

(** The outer loop of [getPreferredResourceVersions]. *)
Fixpoint indexResourceLists (preferredResources : list APIResourceList.t)
    (preferredVersions : gmap string string) : gmap string string * option error :=
  match preferredResources with
  | [] => (preferredVersions, None)
  | resourceList :: rest =>
      match schema.ParseGroupVersion (APIResourceList.GroupVersion resourceList) with
      | (_, Some err) =>
          (∅, Some (Errorf_w ("couldn't parse group version "
                               +:+ APIResourceList.GroupVersion resourceList) err))
      | (groupVersion, None) =>
          indexResourceLists rest
            (indexResources (schema.GroupVersion.Group groupVersion)
               (schema.GroupVersion.Version groupVersion)
               (APIResourceList.APIResources resourceList) preferredVersions)
      end
  end.

(** [getPreferredResourceVersions]: from ["<resource>.<group>"] to the
    version the server prefers; subresources are not in the map. *)
Definition getPreferredResourceVersions `{CachedDiscoveryInterface T} (discoveryClient : T)
  : gmap string string * option error :=
  match ServerPreferredResources discoveryClient with
  | (_, Some err) => (∅, Some (Errorf_w "couldn't get server preferred resources" err))
  | (preferredResources, None) => indexResourceLists preferredResources ∅
  end.

(** ** The enumerator *)

(** The inner loop of [processGroupResources]: the descriptors listed under
    one version of [group], appended to [resources] when they pass.  The
    record keeps a pointer to the loop's copy of the descriptor, which is a
    fresh variable at every iteration (Go 1.22 and later; the module asks for
    Go 1.24), so no two records share it and the record holds it by value
    here. *)
Fixpoint processResources (o : options.t) (group : APIGroup.t)
    (version : GroupVersionForDiscovery.t) (preferredResources : gmap string string)
    (apiResources : list APIResource.t) (resources : list groupResource.t)
  : list groupResource.t :=
  match apiResources with
  | [] => resources
  | apiResource :: rest =>
      let apiResource := APIResource.setGroup apiResource (APIGroup.Name group) in
      match unversionedResourceName apiResource with
      | (_, Some _) =>
          processResources o group version preferredResources rest resources
      | (resourceName, None) =>
          let preferred :=
            match preferredResources !! resourceName with
            | Some preferredVersion =>
                String.eqb preferredVersion (GroupVersionForDiscovery.Version version)
            | None => false
            end in
          let resource :=
            {| groupResource.APIGroup := group;
               groupResource.APIGroupVersion :=
                 GroupVersionForDiscovery.GroupVersion version;
               groupResource.APIResource := apiResource;
               groupResource.Preferred := preferred |} in
          if negb (excludeGroupResource resource o)
          then processResources o group version preferredResources rest
                 (resources ++ [resource])
          else processResources o group version preferredResources rest resources
      end
  end.

(** The outer loop of [processGroupResources], over the versions of [group]. *)
Fixpoint processVersions `{CachedDiscoveryInterface T} (o : options.t)
    (discoveryClient : T) (group : APIGroup.t) (preferredResources : gmap string string)
    (versions : list GroupVersionForDiscovery.t) (resources : list groupResource.t)
  : list groupResource.t * option error :=
  match versions with
  | [] => (resources, None)
  | version :: rest =>
      match ServerResourcesForGroupVersion discoveryClient
              (GroupVersionForDiscovery.GroupVersion version) with
      | (_, Some err) =>
          ([], Some (Errorf_w ("couldn't get server resources for group version "
                                +:+ GroupVersionForDiscovery.GroupVersion version) err))
      | (resourceList, None) =>
          processVersions o discoveryClient group preferredResources rest
            (processResources o group version preferredResources
               (APIResourceList.APIResources resourceList) resources)
      end
  end.

(** [processGroupResources]. *)
Definition processGroupResources `{CachedDiscoveryInterface T} (o : options.t)
    (discoveryClient : T) (group : APIGroup.t) (preferredResources : gmap string string)
  : list groupResource.t * option error :=
  processVersions o discoveryClient group preferredResources (APIGroup.Versions group) [].

(** The loop of [getGroupResources] over the groups. *)
Fixpoint processGroups `{CachedDiscoveryInterface T} (o : options.t)
    (discoveryClient : T) (preferredResources : gmap string string)
    (groups : list APIGroup.t) (resources : list groupResource.t)
  : list groupResource.t * option error :=
  match groups with
  | [] => (resources, None)
  | group :: rest =>
      if excludeGroup group o
      then processGroups o discoveryClient preferredResources rest resources
      else
        match processGroupResources o discoveryClient group preferredResources with
        | (_, Some err) => ([], Some err)
        | (groupResources, None) =>
            processGroups o discoveryClient preferredResources rest
              (resources ++ groupResources)
        end
  end.

(** The first statement of [getGroupResources]: the client the listings are
    then asked from. *)
Definition invalidateUnlessCached `{CachedDiscoveryInterface T} (o : options.t)
    (discoveryClient : T) : T :=
  if negb (options.Cached o) then Invalidate discoveryClient else discoveryClient.

(** [getGroupResources]: the resources and their group versions, in discovery
    order. *)
Definition getGroupResources `{CachedDiscoveryInterface T} (o : options.t)
    (discoveryClient : T) : list groupResource.t * option error :=
  let discoveryClient := invalidateUnlessCached o discoveryClient in
  match ServerGroups discoveryClient with
  | (_, Some err) => ([], Some (Errorf_w "couldn't get server groups" err))
  | (groupList, None) =>
      match getPreferredResourceVersions discoveryClient with
      | (_, Some err) =>
          ([], Some (Errorf_w "couldn't get preferred resource versions" err))
      | (preferredResources, None) =>
          processGroups o discoveryClient preferredResources
            (APIGroupList.Groups groupList) []
      end
  end.

(** ** [sort.Stable]

    The stable sort of Go's standard library (package [sort], not part of the
    repository), on list values: insertion sort on blocks of twenty elements,
    then passes that merge neighbouring runs, the run length doubling at each
    pass.  [symMerge] merges two sorted runs in place by rotations; on list
    values its result is the stable merge [merge] below. *)

Module sort.
Section Stable.

Context {A : Type} (less : A -> A -> bool).

(** One round of the inner loop of [insertionSort]: [x] moves left past
    every element it is less than.  The prefix already sorted is given last
    element first. *)
Fixpoint sink (x : A) (revPrefix : list A) : list A :=
  match revPrefix with
  | [] => [x]
  | y :: rest => if less x y then y :: sink x rest else x :: revPrefix
  end.

(** [insertionSort(data, a, b)] on the block [data[a:b]]. *)
Definition insertionSort (block : list A) : list A :=
  rev (fold_left (fun revPrefix x => sink x revPrefix) block []).

(** The result of [symMerge(data, a, m, b)] on the runs [data[a:m]] and
    [data[m:b]]: an element of the right run goes first only when it is less
    than the head of the left run. *)
Fixpoint merge (run1 : list A) : list A -> list A :=
  fix mergeRight (run2 : list A) : list A :=
    match run1, run2 with
    | [], _ => run2
    | _, [] => run1
    | x :: run1', y :: run2' =>
        if less y x then y :: mergeRight run2' else x :: merge run1' run2
    end.

(** The blocks [data[0:20]], [data[20:40]], ... that [insertionSort] is
    called on, the last one holding what is left.  [room] counts the places
    left in the block being filled. *)
Fixpoint blocks (blockSize room : nat) (block data : list A) : list (list A) :=
  match data with
  | [] => [block]
  | x :: data' =>
      match room with
      | 0 => block :: blocks blockSize (pred blockSize) [x] data'
      | S room' => blocks blockSize room' (block ++ [x]) data'
      end
  end.

(** One pass of the merging loop: neighbouring runs are merged two by two,
    and a last run without neighbour stays. *)
Fixpoint mergePairs (runs : list (list A)) : list (list A) :=
  match runs with
  | run1 :: run2 :: rest => merge run1 run2 :: mergePairs rest
  | _ => runs
  end.

(** [passes] merging passes.  A pass over a single run changes nothing, so
    passes beyond those of the source's loop are harmless. *)
Fixpoint mergePasses (passes : nat) (runs : list (list A)) : list (list A) :=
  match passes with
  | 0 => runs
  | S passes' => mergePasses passes' (mergePairs runs)
  end.

Definition blockSize : nat := 20.

(** [sort.Stable(data)]. *)
Definition Stable (data : list A) : list A :=
  let runs := map insertionSort (blocks blockSize blockSize [] data) in
  concat (mergePasses (length runs) runs).

End Stable.
End sort.

(** [sortableResource.Less], on the two elements compared. *)
Definition Less (sortBy : string) (lhs rhs : groupResource.t) : bool :=
  if String.eqb sortBy nameSortBy then
    String.ltb (APIResource.Name (groupResource.APIResource lhs))
               (APIResource.Name (groupResource.APIResource rhs))
  else if String.eqb sortBy kindSortBy then
    String.ltb (APIResource.Kind (groupResource.APIResource lhs))
               (APIResource.Kind (groupResource.APIResource rhs))
  else if negb (String.eqb (APIGroup.Name (groupResource.APIGroup lhs))
                           (APIGroup.Name (groupResource.APIGroup rhs))) then
    String.ltb (APIGroup.Name (groupResource.APIGroup lhs))
               (APIGroup.Name (groupResource.APIGroup rhs))
  else
    String.ltb (APIResource.Name (groupResource.APIResource lhs))
               (APIResource.Name (groupResource.APIResource rhs)).

(** ** Printing *)

(** The tab writer the rows are printed to: [Write] takes the text of one
    [fmt.Fprintf] call, before the columns are aligned. *)
Class TabWriter (W : Type) : Type := {
  Write : W -> string -> W * option error;
  Flush : W -> W * option error
}.

(** A writer over a buffer in memory: the texts written so far, and whether
    it was flushed.  It never fails. *)
Module Buffer.
Record t : Type := {
  written : list string;
  flushed : bool
}.
Definition new : t := {| written := []; flushed := false |}.
End Buffer.

#[export] Instance bufferWriter : TabWriter Buffer.t := {
  Write w text :=
    ({| Buffer.written := Buffer.written w ++ [text];
        Buffer.flushed := Buffer.flushed w |}, None);
  Flush w :=
    ({| Buffer.written := Buffer.written w; Buffer.flushed := true |}, None)
}.

(** A writer whose sink is closed: every call fails. *)
Inductive ClosedWriter : Type := closedWriter.

#[export] Instance closedTabWriter : TabWriter ClosedWriter := {
  Write w _ := (w, Some (errorString "io: read/write on closed pipe"));
  Flush w := (w, Some (errorString "io: read/write on closed pipe"))
}.

Definition tab : string := String "009"%char EmptyString.
Definition newline : string := String "010"%char EmptyString.

(** The verbs [%t] and [%v] on a [bool]. *)
Definition formatBool (b : bool) : string := if b then "true" else "false".

Definition defaultHeaders : list string :=
  ["NAME"; "SHORTNAMES"; "APIVERSION"; "NAMESPACED"; "KIND"; "PREFERRED"].

(** The header columns [printHeaders] joins. *)
Definition headers (output : string) : list string :=
  if String.eqb output "wide"
  then defaultHeaders ++ ["GROUPPREFERRED"; "VERBS"; "CATEGORIES"]
  else defaultHeaders.

(** [printHeaders]. *)
Definition printHeaders `{TabWriter W} (out : W) (output : string) : W * option error :=
  match Write out (strings.Join (headers output) tab +:+ newline) with
  | (out, Some err) => (out, Some (Errorf_w "error printing headers" err))
  | (out, None) => (out, None)
  end.

(** [printGroupResourcesByName]. *)
Definition printGroupResourcesByName `{TabWriter W} (writer : W)
    (resource : groupResource.t) : W * outcome (option error) :=
  match fullname resource with
  | Panic msg => (writer, Panic msg)
  | Return name =>
      match Write writer (name +:+ newline) with
      | (writer, Some err) =>
          (writer, Return (Some (Errorf_w "error printing resource name" err)))
      | (writer, None) => (writer, Return None)
      end
  end.

(** The columns [printGroupResourcesWide] prints, in order. *)
Definition wideColumns (resource : groupResource.t) : list string :=
  [ APIResource.Name (groupResource.APIResource resource);
    strings.Join (APIResource.ShortNames (groupResource.APIResource resource)) ",";
    groupResource.APIGroupVersion resource;
    formatBool (APIResource.Namespaced (groupResource.APIResource resource));
    APIResource.Kind (groupResource.APIResource resource);
    formatBool (groupResource.Preferred resource);
    formatBool (PreferredGroupVersion resource);
    strings.Join (APIResource.Verbs (groupResource.APIResource resource)) ",";
    strings.Join (APIResource.Categories (groupResource.APIResource resource)) "," ].

(** [printGroupResourcesWide]. *)
Definition printGroupResourcesWide `{TabWriter W} (writer : W)
    (resource : groupResource.t) : W * option error :=
  match Write writer (strings.Join (wideColumns resource) tab +:+ newline) with
  | (writer, Some err) =>
      (writer, Some (Errorf_w "error printing resource in wide format" err))
  | (writer, None) => (writer, None)
  end.

(** The columns [printGroupResourcesDefault] prints, in order. *)
Definition defaultColumns (resource : groupResource.t) : list string :=
  [ APIResource.Name (groupResource.APIResource resource);
    strings.Join (APIResource.ShortNames (groupResource.APIResource resource)) ",";
    groupResource.APIGroupVersion resource;
    formatBool (APIResource.Namespaced (groupResource.APIResource resource));
    APIResource.Kind (groupResource.APIResource resource);
    formatBool (groupResource.Preferred resource) ].

(** [printGroupResourcesDefault]. *)
Definition printGroupResourcesDefault `{TabWriter W} (writer : W)
    (resource : groupResource.t) : W * option error :=
  match Write writer (strings.Join (defaultColumns resource) tab +:+ newline) with
  | (writer, Some err) =>
      (writer, Some (Errorf_w "error printing resource in default format" err))
  | (writer, None) => (writer, None)
  end.

(** The [switch] on the output format in the loop of [printGroupResources]. *)
Definition printRow `{TabWriter W} (output : string) (writer : W)
    (resource : groupResource.t) : W * outcome (option error) :=
  if String.eqb output nameOutput then printGroupResourcesByName writer resource
  else if String.eqb output wideOutput then
    let '(writer, err) := printGroupResourcesWide writer resource in (writer, Return err)
  else
    let '(writer, err) := printGroupResourcesDefault writer resource in (writer, Return err).

(** The loop of [printGroupResources] over the sorted resources: the errors
    of the rows are collected, a panic ends the loop. *)
Fixpoint printRows `{TabWriter W} (output : string) (writer : W)
    (resources : list groupResource.t) (errs : list error) : W * outcome (list error) :=
  match resources with
  | [] => (writer, Return errs)
  | resource :: rest =>
      match printRow output writer resource with
      | (writer, Panic msg) => (writer, Panic msg)
      | (writer, Return (Some err)) => printRows output writer rest (errs ++ [err])
      | (writer, Return None) => printRows output writer rest errs
      end
  end.

(** [printGroupResources] up to its return, without the deferred flush. *)
Definition printGroupResourcesBody `{TabWriter W} (resources : list groupResource.t)
    (o : options.t) (writer : W) : W * outcome (option error) :=
  let '(writer, headerErr) :=
    if negb (options.NoHeaders o) && negb (String.eqb (options.Output o) nameOutput)
    then printHeaders writer (options.Output o)
    else (writer, None) in
  match headerErr with
  | Some err => (writer, Return (Some err))
  | None =>
      let resources := sort.Stable (Less (options.SortBy o)) resources in
      match printRows (options.Output o) writer resources [] with
      | (writer, Panic msg) => (writer, Panic msg)
      | (writer, Return []) => (writer, Return None)
      | (writer, Return errs) => (writer, Return (Some (aggregate errs)))
      end
  end.

(** [mustFlushWriter], deferred by [printGroupResources]: it runs whatever
    the body did, and a flush that fails panics in place of that. *)
Definition mustFlushWriter `{TabWriter W} {A : Type} (done : W * outcome A)
  : W * outcome A :=
  match Flush (fst done) with
  | (writer, Some err) => (writer, Panic ("error flushing writer: " +:+ Error err))
  | (writer, None) => (writer, snd done)
  end.

(** [printGroupResources]. *)
Definition printGroupResources `{TabWriter W} (resources : list groupResource.t)
    (o : options.t) (writer : W) : W * outcome (option error) :=
  mustFlushWriter (printGroupResourcesBody resources o writer).

(** [runAPIResourceVersions], given the tab writer over the output stream. *)
Definition runAPIResourceVersions `{CachedDiscoveryInterface T} `{TabWriter W}
    (o : options.t) (discoveryClient : T) (writer : W) : W * outcome (option error) :=
  match getGroupResources o discoveryClient with
  | (_, Some err) => (writer, Return (Some err))
  | (resources, None) =>
      if (length resources =? 0)%nat && negb (String.eqb (options.Output o) nameOutput)
      then (writer, Return (Some errNoResourcesFound))
      else printGroupResources resources o writer
  end.

(** ** Two small topologies *)

Definition namespacedResource (name kind : string) : APIResource.t :=
  {| APIResource.Name := name; APIResource.SingularName := "";
     APIResource.Namespaced := true; APIResource.Group := "";
     APIResource.Kind := kind; APIResource.Verbs := [];
     APIResource.ShortNames := []; APIResource.Categories := [] |}.

Definition discoveryVersion (groupVersion version : string) : GroupVersionForDiscovery.t :=
  {| GroupVersionForDiscovery.GroupVersion := groupVersion;
     GroupVersionForDiscovery.Version := version |}.

(** The group [apps] with the versions [v1] (preferred) and [v1beta1]. *)
Definition appsGroup : APIGroup.t :=
  {| APIGroup.Name := "apps";
     APIGroup.Versions :=
       [discoveryVersion "apps/v1" "v1"; discoveryVersion "apps/v1beta1" "v1beta1"];
     APIGroup.PreferredVersion := discoveryVersion "apps/v1" "v1" |}.

Definition deployments : APIResource.t := namespacedResource "deployments" "Deployment".

(** Both versions of [apps] expose [deployments]; the preferred-resources
    summary lists it under [apps/v1] only. *)
Definition appsClient : FakeCachedDiscoveryClient.t :=
  {| FakeCachedDiscoveryClient.Groups := [appsGroup];
     FakeCachedDiscoveryClient.Resources :=
       [ {| APIResourceList.GroupVersion := "apps/v1";
            APIResourceList.APIResources := [deployments] |};
         {| APIResourceList.GroupVersion := "apps/v1beta1";
            APIResourceList.APIResources := [deployments] |} ];
     FakeCachedDiscoveryClient.PreferredResources :=
       [ {| APIResourceList.GroupVersion := "apps/v1";
            APIResourceList.APIResources := [deployments] |} ];
     FakeCachedDiscoveryClient.Invalidations := 0 |}.

(** The core group with its single version [v1]. *)
Definition coreGroup : APIGroup.t :=
  {| APIGroup.Name := "";
     APIGroup.Versions := [discoveryVersion "v1" "v1"];
     APIGroup.PreferredVersion := discoveryVersion "v1" "v1" |}.

Definition pods : APIResource.t := namespacedResource "pods" "Pod".
Definition podsStatus : APIResource.t := namespacedResource "pods/status" "Pod".


(** The options with [--preferred] given on the command line. *)
Definition SetPreferred (o : options.t) (preferred : bool) : options.t :=
  {| options.Output := options.Output o; options.SortBy := options.SortBy o;
     options.APIGroup := options.APIGroup o;
     options.Namespaced := options.Namespaced o; options.Verbs := options.Verbs o;
     options.NoHeaders := options.NoHeaders o; options.Cached := options.Cached o;
     options.Categories := options.Categories o; options.Preferred := preferred;
     options.groupChanged := options.groupChanged o;
     options.nsChanged := options.nsChanged o;
     options.preferredChanged := true |}.

(** The options with [--output] set. *)
Definition SetOutput (o : options.t) (output : string) : options.t :=
  {| options.Output := output; options.SortBy := options.SortBy o;
     options.APIGroup := options.APIGroup o;
     options.Namespaced := options.Namespaced o; options.Verbs := options.Verbs o;
     options.NoHeaders := options.NoHeaders o; options.Cached := options.Cached o;
     options.Categories := options.Categories o;
     options.Preferred := options.Preferred o;
     options.groupChanged := options.groupChanged o;
     options.nsChanged := options.nsChanged o;
     options.preferredChanged := options.preferredChanged o |}.

(** * Definitions for the statements *)

(** ** Names, records and the index, as the specification words them *)

(** The name has a ['/'] among its bytes. *)
Definition hasSlash (name : string) : Prop := In "/"%char (list_ascii_of_string name).

(** The name has a ['.']. *)
Definition hasDot (name : string) : Prop := In "."%char (list_ascii_of_string name).

(** The name has a ['/'], as a boolean. *)
Definition hasSlashb (name : string) : bool :=
  existsb (Ascii.eqb "/") (list_ascii_of_string name).

(** The record the loop of [processGroupResources] builds for the descriptor
    [listed] found under [version] of [group]. *)
Definition recordOf (preferredResources : gmap string string) (group : APIGroup.t)
    (version : GroupVersionForDiscovery.t) (listed : APIResource.t) : groupResource.t :=
  {| groupResource.APIGroup := group;
     groupResource.APIGroupVersion := GroupVersionForDiscovery.GroupVersion version;
     groupResource.APIResource := APIResource.setGroup listed (APIGroup.Name group);
     groupResource.Preferred :=
       match preferredResources
               !! (fst (splitResourceName (APIResource.Name listed)) +:+ "."
                     +:+ APIGroup.Name group) with
       | Some preferredVersion =>
           String.eqb preferredVersion (GroupVersionForDiscovery.Version version)
       | None => false
       end |}.

(** The key of a record in the preferred-version index: its base name, a
    dot, its group. *)
Definition indexKey (r : groupResource.t) : string :=
  fst (splitResourceName (APIResource.Name (groupResource.APIResource r)))
  +:+ "." +:+ APIGroup.Name (groupResource.APIGroup r).

(** A record of the result was built from a descriptor without ['/'] that
    passes the filter. *)
Definition kept (o : options.t) (preferredResources : gmap string string)
    (group : APIGroup.t) (version : GroupVersionForDiscovery.t)
    (listed : APIResource.t) (r : groupResource.t) : Prop :=
  r = recordOf preferredResources group version listed
  /\ ~ hasSlash (APIResource.Name listed)
  /\ excludeGroupResource r o = false.

(** The record of [deployments] under [apps/v1], as the enumerator builds it. *)
Definition deploymentsV1 : groupResource.t :=
  {| groupResource.APIGroup := appsGroup;
     groupResource.APIGroupVersion := "apps/v1";
     groupResource.APIResource := APIResource.setGroup deployments "apps";
     groupResource.Preferred := true |}.

(** The record of [deployments] under [apps/v1beta1]. *)
Definition deploymentsV1beta1 : groupResource.t :=
  {| groupResource.APIGroup := appsGroup;
     groupResource.APIGroupVersion := "apps/v1beta1";
     groupResource.APIResource := APIResource.setGroup deployments "apps";
     groupResource.Preferred := false |}.

(** The candidate built from [pods/status] under the core [v1]. *)
Definition podsStatusV1 : groupResource.t :=
  {| groupResource.APIGroup := coreGroup;
     groupResource.APIGroupVersion := "v1";
     groupResource.APIResource := podsStatus;
     groupResource.Preferred := false |}.

(** The record of [pods] under the core [v1]. *)
Definition podsV1 : groupResource.t :=
  {| groupResource.APIGroup := coreGroup;
     groupResource.APIGroupVersion := "v1";
     groupResource.APIResource := pods;
     groupResource.Preferred := true |}.

(** What the summary says, in the words of the specification: the entries
    [(baseName + "." + group, version)] of the descriptors without ['/'], in
    the order of the summary. *)
Definition specEntriesOf (resourceList : APIResourceList.t) : list (string * string) :=
  let groupVersion :=
    fst (schema.ParseGroupVersion (APIResourceList.GroupVersion resourceList)) in
  map (fun descriptor =>
         (fst (splitResourceName (APIResource.Name descriptor)) +:+ "."
            +:+ schema.GroupVersion.Group groupVersion,
          schema.GroupVersion.Version groupVersion))
      (List.filter (fun descriptor => negb (hasSlashb (APIResource.Name descriptor)))
         (APIResourceList.APIResources resourceList)).

Definition specEntries (summary : list APIResourceList.t) : list (string * string) :=
  flat_map specEntriesOf summary.

(** The version of the last entry for [key]: later entries overwrite earlier
    ones. *)
Fixpoint specLookup (key : string) (entries : list (string * string)) : option string :=
  match entries with
  | [] => None
  | (k, version) :: rest =>
      match specLookup key rest with
      | Some later => Some later
      | None => if String.eqb k key then Some version else None
      end
  end.

(** A summary whose second group version has two ['/']. *)
Definition brokenSummaryClient : FakeCachedDiscoveryClient.t :=
  {| FakeCachedDiscoveryClient.Groups := [appsGroup];
     FakeCachedDiscoveryClient.Resources := [];
     FakeCachedDiscoveryClient.PreferredResources :=
       [ {| APIResourceList.GroupVersion := "apps/v1";
            APIResourceList.APIResources := [deployments] |};
         {| APIResourceList.GroupVersion := "apps/v1/beta";
            APIResourceList.APIResources := [deployments] |} ];
     FakeCachedDiscoveryClient.Invalidations := 0 |}.

(** The client of a server without groups. *)
Definition emptyClient : FakeCachedDiscoveryClient.t :=
  {| FakeCachedDiscoveryClient.Groups := [];
     FakeCachedDiscoveryClient.Resources := [];
     FakeCachedDiscoveryClient.PreferredResources := [];
     FakeCachedDiscoveryClient.Invalidations := 0 |}.

(** The error [processGroupResources] returns when the listing of [version]
    fails with [cause]. *)
Definition listingError (version : GroupVersionForDiscovery.t) (cause : error) : error :=
  wrapError ("couldn't get server resources for group version "
             +:+ GroupVersionForDiscovery.GroupVersion version +:+ ": " +:+ Error cause)
            cause.


(** ** Sorted lists *)

(** [a] may stand before [b]: [b] is not less than [a]. *)
Definition notLess {A : Type} (less : A -> A -> bool) (a b : A) : Prop :=
  less b a = false.

(** No later element is less than an earlier one. *)
Definition ascending {A : Type} (less : A -> A -> bool) : list A -> Prop :=
  StronglySorted (notLess less).

(** No earlier element is less than a later one. *)
Definition descending {A : Type} (less : A -> A -> bool) : list A -> Prop :=
  StronglySorted (fun a b => notLess less b a).

(** The outer loop of [insertionSort]: the elements of [block] sink one
    after the other into the prefix sorted so far. *)
Definition sinkAll {A : Type} (less : A -> A -> bool) (block revPrefix : list A)
  : list A :=
  fold_left (fun revPrefix x => sort.sink less x revPrefix) block revPrefix.

Definition groupName (r : groupResource.t) : string :=
  APIGroup.Name (groupResource.APIGroup r).

Definition resourceName (r : groupResource.t) : string :=
  APIResource.Name (groupResource.APIResource r).

(** [a] stands before [b] in the ascending order by group name, then by
    resource name, or ties with it. *)
Definition groupThenName (a b : groupResource.t) : Prop :=
  String.ltb (groupName a) (groupName b) = true
  \/ (groupName a = groupName b
      /\ (String.ltb (resourceName a) (resourceName b) = true
          \/ resourceName a = resourceName b)).

(** The records of one group name and resource name. *)
Definition sameGroupAndName (group name : string) (r : groupResource.t) : bool :=
  String.eqb (groupName r) group && String.eqb (resourceName r) name.

(** ** More of the command and of its libraries *)

(** [schema.GroupVersion.String]: the group, a ['/'] and the version, or the
    version alone for the core group. *)
Definition GroupVersionString (gv : schema.GroupVersion.t) : string :=
  if negb (String.length (schema.GroupVersion.Group gv) =? 0)%nat
  then schema.GroupVersion.Group gv +:+ "/" +:+ schema.GroupVersion.Version gv
  else schema.GroupVersion.Version gv.

(** [errors.Is]: [err] is [target], or wraps an error that is; an aggregate
    is one of its members is. *)
Fixpoint Is (err target : error) : Prop :=
  err = target
  \/ match err with
     | wrapError _ cause => Is cause target
     | aggregate errs =>
         (fix any (errs : list error) : Prop :=
            match errs with
            | [] => False
            | member :: rest => Is member target \/ any rest
            end) errs
     | _ => False
     end.

Definition errWrongOutput : error :=
  constError ("output must be one of: (" +:+ wideOutput +:+ ", " +:+ nameOutput +:+ ")").

Definition errSortBy : error :=
  constError ("sort-by must be one of: (" +:+ nameSortBy +:+ ", " +:+ kindSortBy +:+ ")").

(** [fmt.Errorf("%w: %s is not available", err, value)]. *)
Definition notAvailable (err : error) (value : string) : error :=
  wrapError (Error err +:+ ": " +:+ value +:+ " is not available") err.

(** [apiResourceVersionsOptions.validate]. *)
Definition validate (o : options.t) : option error :=
  let supportedOutputTypes : gset string := list_to_set [""; wideOutput; nameOutput] in
  if negb (bool_decide (options.Output o ∈ supportedOutputTypes))
  then Some (notAvailable errWrongOutput (options.Output o))
  else
    let supportedSortTypes : gset string := list_to_set [""; nameSortBy; kindSortBy] in
    if (0 <? String.length (options.SortBy o))%nat
    then
      if negb (bool_decide (options.SortBy o ∈ supportedSortTypes))
      then Some (notAvailable errSortBy (options.SortBy o))
      else None
    else None.

(** A writer that follows a script: each [Write] takes the next mark of
    [fates] and fails when the mark is [true]; without mark it succeeds.  The
    texts of the writes that succeeded are kept. *)
Module Script.
Record t : Type := {
  fates : list bool;
  written : list string;
  flushed : bool
}.
Definition new (fates : list bool) : t :=
  {| fates := fates; written := []; flushed := false |}.
End Script.

Definition errShortWrite : error := errorString "short write".

#[export] Instance scriptWriter : TabWriter Script.t := {
  Write w text :=
    match Script.fates w with
    | true :: rest =>
        ({| Script.fates := rest; Script.written := Script.written w;
            Script.flushed := Script.flushed w |}, Some errShortWrite)
    | fates =>
        ({| Script.fates := tl fates; Script.written := Script.written w ++ [text];
            Script.flushed := Script.flushed w |}, None)
    end;
  Flush w :=
    ({| Script.fates := Script.fates w; Script.written := Script.written w;
        Script.flushed := true |}, None)
}.

(** The line [printHeaders] writes. *)
Definition headerLine (output : string) : string :=
  strings.Join (headers output) tab +:+ newline.

(** The line written for a record in the wide or in the default format. *)
Definition rowLine (output : string) (resource : groupResource.t) : string :=
  if String.eqb output wideOutput
  then strings.Join (wideColumns resource) tab +:+ newline
  else strings.Join (defaultColumns resource) tab +:+ newline.

(** The context of the error of a row in the wide or in the default format. *)
Definition rowContext (output : string) : string :=
  if String.eqb output wideOutput
  then "error printing resource in wide format"
  else "error printing resource in default format".

(** The records of the descriptors listed under one version that the
    resource filter lets through, in the order of the listing. *)
Definition candidates (o : options.t) (preferredResources : gmap string string)
    (group : APIGroup.t) (version : GroupVersionForDiscovery.t)
    (apiResources : list APIResource.t) : list groupResource.t :=
  List.filter (fun r => negb (excludeGroupResource r o))
    (map (recordOf preferredResources group version) apiResources).

(** The enumeration in discovery order: group by group (those the group
    filter lets through), version by version, descriptor by descriptor. *)
Definition discoveryOrder `{CachedDiscoveryInterface T} (o : options.t)
    (discoveryClient : T) (preferredResources : gmap string string)
    (groups : list APIGroup.t) : list groupResource.t :=
  flat_map
    (fun group =>
       flat_map
         (fun version =>
            candidates o preferredResources group version
              (APIResourceList.APIResources
                 (fst (ServerResourcesForGroupVersion discoveryClient
                         (GroupVersionForDiscovery.GroupVersion version)))))
         (APIGroup.Versions group))
    (List.filter (fun group => negb (excludeGroup group o)) groups).

(** The discovery entry of a version says what its group-version string
    says: the string is that of the group's name and the entry's version,
    neither of which has a ['/']. *)
Definition consistentVersion (group : APIGroup.t) (version : GroupVersionForDiscovery.t)
  : Prop :=
  ~ hasSlash (APIGroup.Name group)
  /\ ~ hasSlash (GroupVersionForDiscovery.Version version)
  /\ GroupVersionForDiscovery.GroupVersion version
     = GroupVersionString
         {| schema.GroupVersion.Group := APIGroup.Name group;
            schema.GroupVersion.Version := GroupVersionForDiscovery.Version version |}.

(** ** The earlier revision *)

(** The earlier revision of the command, [internal/cmd/apiresourceversions.go]:
    a record keeps the discovery entry of its version, [Preferred] compares
    it with the preferred version of the group, and the wide format has no
    column for the group. *)
Module Legacy.

Module groupResource.
Record t : Type := {
  APIGroup : APIGroup.t;
  APIGroupVersion : GroupVersionForDiscovery.t;
  APIResource : APIResource.t
}.
End groupResource.

(** [groupResource.Preferred]. *)
Definition Preferred (gr : groupResource.t) : bool :=
  String.eqb
    (GroupVersionForDiscovery.Version
       (APIGroup.PreferredVersion (groupResource.APIGroup gr)))
    (GroupVersionForDiscovery.Version (groupResource.APIGroupVersion gr)).

(** The header columns [printHeaders] joins. *)
Definition headers (output : string) : list string :=
  if String.eqb output "wide"
  then defaultHeaders ++ ["VERBS"; "CATEGORIES"]
  else defaultHeaders.

(** [printHeaders]. *)
Definition printHeaders `{TabWriter W} (out : W) (output : string) : W * option error :=
  match Write out (strings.Join (headers output) tab +:+ newline) with
  | (out, Some err) => (out, Some (Errorf_w "error printing headers" err))
  | (out, None) => (out, None)
  end.

(** The columns [printGroupResourcesWide] prints, in order. *)
Definition wideColumns (resource : groupResource.t) : list string :=
  [ APIResource.Name (groupResource.APIResource resource);
    strings.Join (APIResource.ShortNames (groupResource.APIResource resource)) ",";
    GroupVersionForDiscovery.GroupVersion (groupResource.APIGroupVersion resource);
    formatBool (APIResource.Namespaced (groupResource.APIResource resource));
    APIResource.Kind (groupResource.APIResource resource);
    formatBool (Preferred resource);
    strings.Join (APIResource.Verbs (groupResource.APIResource resource)) ",";
    strings.Join (APIResource.Categories (groupResource.APIResource resource)) "," ].

(** [printGroupResourcesWide]. *)
Definition printGroupResourcesWide `{TabWriter W} (writer : W)
    (resource : groupResource.t) : W * option error :=
  match Write writer (strings.Join (wideColumns resource) tab +:+ newline) with
  | (writer, Some err) =>
      (writer, Some (Errorf_w "error printing resource in wide format" err))
  | (writer, None) => (writer, None)
  end.

(** [groupResource.fullname]. *)
Definition fullname (gr : groupResource.t) : string :=
  APIResource.Name (groupResource.APIResource gr) +:+ "."
  +:+ GroupVersionForDiscovery.Version (groupResource.APIGroupVersion gr) +:+ "."
  +:+ APIGroup.Name (groupResource.APIGroup gr).

(** [excludeGroupResource]: the group filter is one of the tests on the
    resource. *)
Definition excludeGroupResource (resource : groupResource.t) (o : options.t) : bool :=
  let apiResource := groupResource.APIResource resource in
  if strings.Contains (APIResource.Name apiResource) "/" then true
  else if options.groupChanged o
          && negb (String.eqb (options.APIGroup o)
                     (APIGroup.Name (groupResource.APIGroup resource)))
  then true
  else if options.nsChanged o
          && negb (Bool.eqb (options.Namespaced o) (APIResource.Namespaced apiResource))
  then true
  else if negb (length (options.Verbs o) =? 0)%nat
          && negb (HasAll (APIResource.Verbs apiResource) (options.Verbs o))
  then true
  else if negb (length (options.Categories o) =? 0)%nat
          && negb (HasAll (APIResource.Categories apiResource) (options.Categories o))
  then true
  else if options.preferredChanged o
          && negb (Bool.eqb (options.Preferred o) (Preferred resource))
  then true
  else false.

(** The string a version of a group is listed under:
    [schema.GroupVersion{Group: group.Name, Version: version.Version}.String()]. *)
Definition listedUnder (group : APIGroup.t) (version : GroupVersionForDiscovery.t)
  : string :=
  GroupVersionString
    {| schema.GroupVersion.Group := APIGroup.Name group;
       schema.GroupVersion.Version := GroupVersionForDiscovery.Version version |}.

(** The innermost loop of [getGroupResources], over the descriptors listed
    under one version. *)
Fixpoint processResources (o : options.t) (group : APIGroup.t)
    (version : GroupVersionForDiscovery.t) (apiResources : list APIResource.t)
    (resources : list groupResource.t) : list groupResource.t :=
  match apiResources with
  | [] => resources
  | apiResource :: rest =>
      let resource :=
        {| groupResource.APIGroup := group;
           groupResource.APIGroupVersion := version;
           groupResource.APIResource := apiResource |} in
      if negb (excludeGroupResource resource o)
      then processResources o group version rest (resources ++ [resource])
      else processResources o group version rest resources
  end.

(** The loop of [getGroupResources] over the versions of one group. *)
Fixpoint processVersions `{CachedDiscoveryInterface T} (o : options.t)
    (discoveryClient : T) (group : APIGroup.t)
    (versions : list GroupVersionForDiscovery.t) (resources : list groupResource.t)
  : list groupResource.t * option error :=
  match versions with
  | [] => (resources, None)
  | version :: rest =>
      match ServerResourcesForGroupVersion discoveryClient (listedUnder group version) with
      | (_, Some err) =>
          ([], Some (Errorf_w ("couldn't get server resources for group version "
                                +:+ listedUnder group version) err))
      | (resourceList, None) =>
          processVersions o discoveryClient group rest
            (processResources o group version
               (APIResourceList.APIResources resourceList) resources)
      end
  end.

(** The loop of [getGroupResources] over the groups. *)
Fixpoint processGroups `{CachedDiscoveryInterface T} (o : options.t)
    (discoveryClient : T) (groups : list APIGroup.t) (resources : list groupResource.t)
  : list groupResource.t * option error :=
  match groups with
  | [] => (resources, None)
  | group :: rest =>
      match processVersions o discoveryClient group (APIGroup.Versions group) resources with
      | (_, Some err) => ([], Some err)
      | (resources, None) => processGroups o discoveryClient rest resources
      end
  end.

(** [getGroupResources]. *)
Definition getGroupResources `{CachedDiscoveryInterface T} (o : options.t)
    (discoveryClient : T) : list groupResource.t * option error :=
  let discoveryClient := invalidateUnlessCached o discoveryClient in
  match ServerGroups discoveryClient with
  | (_, Some err) => ([], Some (Errorf_w "couldn't get server groups" err))
  | (groupList, None) =>
      processGroups o discoveryClient (APIGroupList.Groups groupList) []
  end.

End Legacy.

(** What a record of the enumeration says: the group, the group version and
    the descriptor with its group set. *)
Definition entry (r : groupResource.t) : APIGroup.t * string * APIResource.t :=
  (groupResource.APIGroup r, groupResource.APIGroupVersion r, groupResource.APIResource r).

(** The same of a record of the earlier revision, which keeps the descriptor
    as it was listed. *)
Definition legacyEntry (r : Legacy.groupResource.t)
  : APIGroup.t * string * APIResource.t :=
  (Legacy.groupResource.APIGroup r,
   GroupVersionForDiscovery.GroupVersion (Legacy.groupResource.APIGroupVersion r),
   APIResource.setGroup (Legacy.groupResource.APIResource r)
     (APIGroup.Name (Legacy.groupResource.APIGroup r))).

(** The record the earlier revision builds. *)
Definition legacyRecordOf (group : APIGroup.t) (version : GroupVersionForDiscovery.t)
    (listed : APIResource.t) : Legacy.groupResource.t :=
  {| Legacy.groupResource.APIGroup := group;
     Legacy.groupResource.APIGroupVersion := version;
     Legacy.groupResource.APIResource := listed |}.

(** ** More definitions for the statements *)

(** The options of [--api-group]. *)
Definition SetAPIGroup (o : options.t) (apiGroup : string) : options.t :=
  {| options.Output := options.Output o; options.SortBy := options.SortBy o;
     options.APIGroup := apiGroup;
     options.Namespaced := options.Namespaced o; options.Verbs := options.Verbs o;
     options.NoHeaders := options.NoHeaders o; options.Cached := options.Cached o;
     options.Categories := options.Categories o;
     options.Preferred := options.Preferred o;
     options.groupChanged := true;
     options.nsChanged := options.nsChanged o;
     options.preferredChanged := options.preferredChanged o |}.

(** A client of the groups [apps] and core that has resource lists for the
    core group only. *)
Definition coreOnlyClient : FakeCachedDiscoveryClient.t :=
  {| FakeCachedDiscoveryClient.Groups := [appsGroup; coreGroup];
     FakeCachedDiscoveryClient.Resources :=
       [ {| APIResourceList.GroupVersion := "v1";
            APIResourceList.APIResources := [pods; podsStatus] |} ];
     FakeCachedDiscoveryClient.PreferredResources :=
       [ {| APIResourceList.GroupVersion := "v1";
            APIResourceList.APIResources := [pods; podsStatus] |} ];
     FakeCachedDiscoveryClient.Invalidations := 0 |}.

Definition resourceKind (r : groupResource.t) : string :=
  APIResource.Kind (groupResource.APIResource r).

(** The line of a record in the name format. *)
Definition nameLine (resource : groupResource.t) : string :=
  match fullname resource with
  | Return name => name +:+ newline
  | Panic _ => newline
  end.

(** A record of the group [apps] whose group-version string has two ['/']. *)
Definition malformedRecord : groupResource.t :=
  {| groupResource.APIGroup := appsGroup;
     groupResource.APIGroupVersion := "apps/v1/extra";
     groupResource.APIResource := APIResource.setGroup deployments "apps";
     groupResource.Preferred := false |}.




(** ** The YAML documents of a stream, as JSON *)

(** [internal/yamlutil]: a stream of YAML documents is turned into a
    sequence of JSON documents, handed one by one to the body of a [range]
    loop. *)
Module yamlutil.

(** [io.EOF]. *)
Definition EOF : error := errorString "EOF".

(** [errors.Is(err, io.EOF)]. *)
Fixpoint isEOF (err : error) : bool :=
  match err with
  | errorString msg => String.eqb msg "EOF"
  | constError _ => false
  | wrapError _ cause => isEOF cause
  | aggregate errs =>
      (fix any (errs : list error) : bool :=
         match errs with
         | [] => false
         | member :: rest => isEOF member || any rest
         end) errs
  end.

(** What a call of [decoder.Decode] gives: a document, or an error.  A
    stream is the list of what the calls give in turn; at its end [Decode]
    gives [io.EOF]. *)
Inductive decoded (doc : Type) : Type :=
| Document (document : doc)
| Failure (err : error).
Arguments Document {doc} document.
Arguments Failure {doc} err.

(** The implementations of the interface [YAMLToJSON]: [yamlToJSONErr] and
    [yamlToJSON]. *)
Inductive YAMLToJSON : Type :=
| yamlToJSONErr (err : error)
| yamlToJSON (data : list Byte.byte).

(** [GetDecoder]: the bytes the JSON decoder reads, or the error. *)
Definition GetDecoder (y : YAMLToJSON) : option (list Byte.byte) * option error :=
  match y with
  | yamlToJSONErr err => (None, Some err)
  | yamlToJSON data => (Some data, None)
  end.

(** [YAMLDocumentsToJSON], applied to the body [yield] of the loop that
    ranges over it, with the state [s] of that body; [Marshal] is
    [json.Marshal] on the documents. *)
Fixpoint YAMLDocumentsToJSON {doc S : Type}
    (Marshal : doc -> list Byte.byte * option error)
    (yamlStream : list (decoded doc)) (yield : S -> YAMLToJSON -> S * bool) (s : S) : S :=
  match yamlStream with
  | [] => s
  | Failure err :: _ =>
      if isEOF err then s
      else fst (yield s (yamlToJSONErr (Errorf_w "failed to decode YAML document" err)))
  | Document document :: rest =>
      match Marshal document with
      | (_, Some err) =>
          let '(s, more) :=
            yield s (yamlToJSONErr
                       (Errorf_w "failed to marshal YAML document to JSON" err)) in
          if negb more then s else YAMLDocumentsToJSON Marshal rest yield s
      | (jsonBytes, None) =>
          let '(s, more) := yield s (yamlToJSON jsonBytes) in
          if negb more then s else YAMLDocumentsToJSON Marshal rest yield s
      end
  end.

(** A loop body that keeps every item and never breaks. *)
Definition keep (items : list YAMLToJSON) (item : YAMLToJSON)
  : list YAMLToJSON * bool :=
  (items ++ [item], true).

(** A [range] loop over a slice of items, with the same kind of body. *)
Fixpoint rangeOver {S : Type} (items : list YAMLToJSON)
    (yield : S -> YAMLToJSON -> S * bool) (s : S) : S :=
  match items with
  | [] => s
  | item :: rest =>
      let '(s, more) := yield s item in
      if negb more then s else rangeOver rest yield s
  end.

(** The item of a document that was decoded. *)
Definition transcoded {doc : Type} (Marshal : doc -> list Byte.byte * option error)
    (document : doc) : YAMLToJSON :=
  match Marshal document with
  | (_, Some err) =>
      yamlToJSONErr (Errorf_w "failed to marshal YAML document to JSON" err)
  | (jsonBytes, None) => yamlToJSON jsonBytes
  end.

(** The items of a stream: those of its documents up to the first failure to
    decode, and then that failure unless it is the end of the stream. *)
Fixpoint itemsOf {doc : Type} (Marshal : doc -> list Byte.byte * option error)
    (yamlStream : list (decoded doc)) : list YAMLToJSON :=
  match yamlStream with
  | [] => []
  | Failure err :: _ =>
      if isEOF err then []
      else [yamlToJSONErr (Errorf_w "failed to decode YAML document" err)]
  | Document document :: rest => transcoded Marshal document :: itemsOf Marshal rest
  end.

End yamlutil.

(** ** The procedural discovery of the tests *)

(** [internal/discoverytesting]: the builder of the fake discovery client,
    and [NewProcedural]. *)
Module discoverytesting.

(** [FakeCachedDiscoveryClientBuilder]. *)
Module FakeCachedDiscoveryClientBuilder.
Record t : Type := {
  Groups : list APIGroup.t;
  Resources : list APIResourceList.t;
  PreferredResources : list APIResourceList.t
}.
End FakeCachedDiscoveryClientBuilder.

(** [NewFakeCachedDiscoveryClientBuilder]. *)
Definition NewFakeCachedDiscoveryClientBuilder : FakeCachedDiscoveryClientBuilder.t :=
  {| FakeCachedDiscoveryClientBuilder.Groups := [];
     FakeCachedDiscoveryClientBuilder.Resources := [];
     FakeCachedDiscoveryClientBuilder.PreferredResources := [] |}.

(** [CachedDiscoveryInterface]: the fake client over what the builder holds. *)
Definition CachedDiscoveryInterface (c : FakeCachedDiscoveryClientBuilder.t)
  : FakeCachedDiscoveryClient.t :=
  {| FakeCachedDiscoveryClient.Groups := FakeCachedDiscoveryClientBuilder.Groups c;
     FakeCachedDiscoveryClient.Resources := FakeCachedDiscoveryClientBuilder.Resources c;
     FakeCachedDiscoveryClient.PreferredResources :=
       FakeCachedDiscoveryClientBuilder.PreferredResources c;
     FakeCachedDiscoveryClient.Invalidations := 0 |}.

(** The resource lists read from the test data of the package, which
    [NewProcedural] appends to what it generates. *)
Module Fixtures.
Record t : Type := {
  getCoreResources : list APIResourceList.t;
  getAutoscalingResources : list APIResourceList.t;
  getCorePreferredResources : APIResourceList.t;
  getAutoscalingPreferredResources : APIResourceList.t
}.
End Fixtures.

(** The verb [%d] on an [int]. *)
Definition Itoa (i : Z) : string := NilZero.string_of_int (Z.to_int i).

(** The version entry [NewProcedural] appends for [j]. *)
Definition proceduralVersion (groupName : string) (j : Z) : GroupVersionForDiscovery.t :=
  let versionName := "v" +:+ Itoa j in
  {| GroupVersionForDiscovery.GroupVersion := groupName +:+ "/" +:+ versionName;
     GroupVersionForDiscovery.Version := versionName |}.

(** The loop [for j := versionsPerGroup; j > 0; j--], with [j] steps left. *)
Fixpoint proceduralVersions (groupName : string) (j : nat)
  : list GroupVersionForDiscovery.t :=
  match j with
  | O => []
  | S below => proceduralVersion groupName (Z.of_nat j) :: proceduralVersions groupName below
  end.

(** The loop [for i := range groups]: the first version of a group is made
    its preferred one, and indexing an empty slice panics. *)
Fixpoint proceduralGroups (indices : list nat) (versionsPerGroup : Z)
    (groups : list APIGroup.t) : outcome (list APIGroup.t) :=
  match indices with
  | [] => Return groups
  | i :: rest =>
      let groupName := "group" +:+ Itoa (Z.of_nat i) in
      match proceduralVersions groupName (Z.to_nat versionsPerGroup) with
      | [] => Panic "runtime error: index out of range [0] with length 0"
      | preferred :: others =>
          proceduralGroups rest versionsPerGroup
            (groups ++ [ {| APIGroup.Name := groupName;
                            APIGroup.Versions := preferred :: others;
                            APIGroup.PreferredVersion := preferred |} ])
      end
  end.

(** The resource [NewProcedural] appends for [i]. *)
Definition proceduralResource (i : Z) : APIResource.t :=
  {| APIResource.Name := "resource" +:+ Itoa i; APIResource.SingularName := "";
     APIResource.Namespaced := true; APIResource.Group := "";
     APIResource.Kind := ""; APIResource.Verbs := ["get"; "list"; "watch"];
     APIResource.ShortNames := []; APIResource.Categories := ["all"] |}.

(** The loop [for i := range resourcesPerVersion]. *)
Definition proceduralResources (resourcesPerVersion : Z) : list APIResource.t :=
  map (fun i => proceduralResource (Z.of_nat i)) (seq 0 (Z.to_nat resourcesPerVersion)).

(** The loop over the groups of the builder: [make] with a negative capacity
    panics, and every version of the group gets a list of the same
    resources. *)
Fixpoint proceduralResourceLists (groups : list APIGroup.t) (resourcesPerVersion : Z)
    (lists : list APIResourceList.t) : outcome (list APIResourceList.t) :=
  match groups with
  | [] => Return lists
  | group :: rest =>
      if (resourcesPerVersion <? 0)%Z
      then Panic "runtime error: makeslice: cap out of range"
      else
        let resources := proceduralResources resourcesPerVersion in
        proceduralResourceLists rest resourcesPerVersion
          (lists
           ++ map (fun version =>
                     {| APIResourceList.GroupVersion :=
                          GroupVersionForDiscovery.GroupVersion version;
                        APIResourceList.APIResources := resources |})
                (APIGroup.Versions group))
  end.

(** [NewProcedural]. *)
Definition NewProcedural (fixtures : Fixtures.t)
    (groups versionsPerGroup resourcesPerVersion : Z)
  : outcome FakeCachedDiscoveryClient.t :=
  let builder := NewFakeCachedDiscoveryClientBuilder in
  match proceduralGroups (seq 0 (Z.to_nat groups)) versionsPerGroup
          (FakeCachedDiscoveryClientBuilder.Groups builder) with
  | Panic msg => Panic msg
  | Return builderGroups =>
      match proceduralResourceLists builderGroups resourcesPerVersion
              (FakeCachedDiscoveryClientBuilder.Resources builder) with
      | Panic msg => Panic msg
      | Return resources =>
          Return
            (CachedDiscoveryInterface
               {| FakeCachedDiscoveryClientBuilder.Groups := builderGroups;
                  FakeCachedDiscoveryClientBuilder.Resources :=
                    (resources ++ Fixtures.getCoreResources fixtures)
                    ++ Fixtures.getAutoscalingResources fixtures;
                  FakeCachedDiscoveryClientBuilder.PreferredResources :=
                    (FakeCachedDiscoveryClientBuilder.PreferredResources builder
                     ++ [Fixtures.getCorePreferredResources fixtures])
                    ++ [Fixtures.getAutoscalingPreferredResources fixtures] |})
      end
  end.

(** The group [NewProcedural] builds for [i], when there is a version. *)
Definition proceduralGroup (versionsPerGroup : Z) (i : nat) : APIGroup.t :=
  let groupName := "group" +:+ Itoa (Z.of_nat i) in
  {| APIGroup.Name := groupName;
     APIGroup.Versions := proceduralVersions groupName (Z.to_nat versionsPerGroup);
     APIGroup.PreferredVersion := proceduralVersion groupName versionsPerGroup |}.

(** The resource lists [NewProcedural] builds for a group. *)
Definition proceduralListsOf (resourcesPerVersion : Z) (group : APIGroup.t)
  : list APIResourceList.t :=
  map (fun version =>
         {| APIResourceList.GroupVersion := GroupVersionForDiscovery.GroupVersion version;
            APIResourceList.APIResources := proceduralResources resourcesPerVersion |})
    (APIGroup.Versions group).

(** The client [NewProcedural] returns. *)
Definition proceduralClient (fixtures : Fixtures.t)
    (groups versionsPerGroup resourcesPerVersion : Z) : FakeCachedDiscoveryClient.t :=
  let builderGroups := map (proceduralGroup versionsPerGroup) (seq 0 (Z.to_nat groups)) in
  {| FakeCachedDiscoveryClient.Groups := builderGroups;
     FakeCachedDiscoveryClient.Resources :=
       (flat_map (proceduralListsOf resourcesPerVersion) builderGroups
        ++ Fixtures.getCoreResources fixtures)
       ++ Fixtures.getAutoscalingResources fixtures;
     FakeCachedDiscoveryClient.PreferredResources :=
       [Fixtures.getCorePreferredResources fixtures;
        Fixtures.getAutoscalingPreferredResources fixtures];
     FakeCachedDiscoveryClient.Invalidations := 0 |}.

(** The test data is that of the core group and of the group [autoscaling]:
    the group versions of the two preferred lists parse, to these groups. *)
Definition coreAndAutoscaling (fixtures : Fixtures.t) : Prop :=
  (exists version,
      schema.ParseGroupVersion
        (APIResourceList.GroupVersion (Fixtures.getCorePreferredResources fixtures))
      = ({| schema.GroupVersion.Group := "";
            schema.GroupVersion.Version := version |}, None))
  /\ (exists version,
         schema.ParseGroupVersion
           (APIResourceList.GroupVersion
              (Fixtures.getAutoscalingPreferredResources fixtures))
         = ({| schema.GroupVersion.Group := "autoscaling";
               schema.GroupVersion.Version := version |}, None)).

(** Test data of one resource in each of the two groups. *)
Definition smallFixtures : Fixtures.t :=
  {| Fixtures.getCoreResources :=
       [ {| APIResourceList.GroupVersion := "v1";
            APIResourceList.APIResources := [pods; podsStatus] |} ];
     Fixtures.getAutoscalingResources :=
       [ {| APIResourceList.GroupVersion := "autoscaling/v2";
            APIResourceList.APIResources :=
              [namespacedResource "horizontalpodautoscalers" "HorizontalPodAutoscaler"] |} ];
     Fixtures.getCorePreferredResources :=
       {| APIResourceList.GroupVersion := "v1";
          APIResourceList.APIResources := [pods; podsStatus] |};
     Fixtures.getAutoscalingPreferredResources :=
       {| APIResourceList.GroupVersion := "autoscaling/v2";
          APIResourceList.APIResources :=
            [namespacedResource "horizontalpodautoscalers" "HorizontalPodAutoscaler"] |} |}.

End discoverytesting.

(** * Properties *)

(** ** Names with and without ['/'] *)

Lemma prefix_empty (s : string) : String.prefix "" s = true.
Proof. destruct s; reflexivity. Qed.

Lemma Contains_slash (s : string) :
  strings.Contains s "/" = true <-> hasSlash s.
Proof.
  unfold hasSlash.
  induction s as [|c s IH]; cbn [strings.Contains String.prefix list_ascii_of_string In].
  - split; [discriminate | tauto].
  - destruct (ascii_dec "/" c) as [Heq|Hne].
    + rewrite prefix_empty. split; auto.
    + rewrite orb_false_l, IH.
      split; [auto | intros [Heq|Hin]; [congruence | exact Hin]].
Qed.

Lemma Contains_slash_false (s : string) :
  strings.Contains s "/" = false <-> ~ hasSlash s.
Proof.
  rewrite <- Contains_slash. destruct (strings.Contains s "/"); split; congruence.
Qed.

Lemma CutByte_None (s : string) (sep : ascii) :
  snd (strings.CutByte s sep) = None <-> ~ In sep (list_ascii_of_string s).
Proof.
  induction s as [|c s IH]; simpl.
  - tauto.
  - destruct (Ascii.eqb_spec c sep) as [->|Hne]; simpl.
    + split; [discriminate | intros H; exfalso; apply H; auto].
    + destruct (strings.CutByte s sep) as [before after]; simpl in *.
      rewrite IH. split; [intros H [Heq|Hin]; auto | intros H Hin; apply H; auto].
Qed.

Lemma CutByte_whole (s : string) (sep : ascii) :
  snd (strings.CutByte s sep) = None -> fst (strings.CutByte s sep) = s.
Proof.
  induction s as [|c s IH]; simpl; [reflexivity|].
  destruct (Ascii.eqb c sep); simpl; [discriminate|].
  destruct (strings.CutByte s sep) as [before after]; simpl in *.
  intros H. f_equal. auto.
Qed.

Lemma splitResourceName_snd (name : string) :
  snd (splitResourceName name) = snd (strings.CutByte name "/").
Proof.
  unfold splitResourceName, strings.SplitN2.
  destruct (strings.CutByte name "/") as [before [after|]]; reflexivity.
Qed.

Lemma splitResourceName_fst (name : string) :
  fst (splitResourceName name) = fst (strings.CutByte name "/").
Proof.
  unfold splitResourceName, strings.SplitN2.
  destruct (strings.CutByte name "/") as [before [after|]]; reflexivity.
Qed.

(** A name is a subresource's exactly when it has a ['/']; a name without
    one is its own base name. *)
Lemma splitResourceName_None (name : string) :
  snd (splitResourceName name) = None <-> ~ hasSlash name.
Proof. rewrite splitResourceName_snd. apply CutByte_None. Qed.

Lemma splitResourceName_base (name : string) :
  snd (splitResourceName name) = None -> fst (splitResourceName name) = name.
Proof.
  rewrite splitResourceName_snd, splitResourceName_fst. apply CutByte_whole.
Qed.

Lemma unversionedResourceName_spec (resource : APIResource.t) :
  unversionedResourceName resource =
    (fst (splitResourceName (APIResource.Name resource)) +:+ "."
       +:+ APIResource.Group resource,
     snd (splitResourceName (APIResource.Name resource))).
Proof.
  unfold unversionedResourceName.
  destruct (splitResourceName (APIResource.Name resource)); reflexivity.
Qed.

(** ** What the enumerator produces *)

Section Enumerator.

Context `{CachedDiscoveryInterface T}.
Variables (o : options.t) (discoveryClient : T).
Variable preferredResources : gmap string string.

Lemma processResources_members group version apiResources resources r :
  In r (processResources o group version preferredResources apiResources resources) ->
  In r resources
  \/ exists listed, In listed apiResources /\ kept o preferredResources group version listed r.
Proof.
  revert resources.
  induction apiResources as [|apiResource rest IH]; intros resources Hin;
    cbn [processResources] in Hin.
  - auto.
  - rewrite unversionedResourceName_spec in Hin. cbn [APIResource.setGroup APIResource.Name
      APIResource.Group] in Hin.
    destruct (snd (splitResourceName (APIResource.Name apiResource))) eqn:Hsub.
    + apply IH in Hin as [Hin|(listed & Hl & Hk)]; [auto|].
      right. exists listed. split; [right|]; assumption.
    + match type of Hin with
      | context [excludeGroupResource ?rec o] =>
          change rec with (recordOf preferredResources group version apiResource) in Hin
      end.
      destruct (excludeGroupResource
                  (recordOf preferredResources group version apiResource) o) eqn:Hex;
        cbn [negb] in Hin; apply IH in Hin as [Hin|(listed & Hl & Hk)].
      * auto.
      * right. exists listed. split; [right|]; assumption.
      * apply in_app_or in Hin as [Hin|[<-|[]]]; [auto|].
        right. exists apiResource. split; [left; reflexivity|].
        split; [reflexivity|]. split; [|exact Hex].
        apply splitResourceName_None. exact Hsub.
      * right. exists listed. split; [right|]; assumption.
Qed.

Lemma processVersions_members group versions resources r :
  In r (fst (processVersions o discoveryClient group preferredResources versions resources)) ->
  In r resources
  \/ exists version resourceList listed,
       In version versions
       /\ ServerResourcesForGroupVersion discoveryClient
            (GroupVersionForDiscovery.GroupVersion version) = (resourceList, None)
       /\ In listed (APIResourceList.APIResources resourceList)
       /\ kept o preferredResources group version listed r.
Proof.
  revert resources.
  induction versions as [|version rest IH]; intros resources Hin;
    cbn [processVersions] in Hin.
  - auto.
  - destruct (ServerResourcesForGroupVersion discoveryClient
                (GroupVersionForDiscovery.GroupVersion version))
      as [resourceList [err|]] eqn:Hlist.
    + destruct Hin.
    + apply IH in Hin as [Hin|(v & rl & listed & Hv & Hrl & Hl & Hk)].
      * apply processResources_members in Hin as [Hin|(listed & Hl & Hk)]; [auto|].
        right. exists version, resourceList, listed. auto using in_eq.
      * right. exists v, rl, listed. auto using in_cons.
Qed.

Lemma processGroups_members groups resources r :
  In r (fst (processGroups o discoveryClient preferredResources groups resources)) ->
  In r resources
  \/ exists group version resourceList listed,
       In group groups /\ excludeGroup group o = false
       /\ In version (APIGroup.Versions group)
       /\ ServerResourcesForGroupVersion discoveryClient
            (GroupVersionForDiscovery.GroupVersion version) = (resourceList, None)
       /\ In listed (APIResourceList.APIResources resourceList)
       /\ kept o preferredResources group version listed r.
Proof.
  revert resources.
  induction groups as [|group rest IH]; intros resources Hin; cbn [processGroups] in Hin.
  - auto.
  - destruct (excludeGroup group o) eqn:Hex.
    + apply IH in Hin as [Hin|(g & v & rl & listed & Hg & Hrest)]; [auto|].
      right. exists g, v, rl, listed. split; [right|]; assumption.
    + destruct (processGroupResources o discoveryClient group preferredResources)
        as [groupResources [err|]] eqn:Hgr.
      * destruct Hin.
      * apply IH in Hin as [Hin|(g & v & rl & listed & Hg & Hrest)].
        -- apply in_app_or in Hin as [Hin|Hin]; [auto|].
           right. unfold processGroupResources in Hgr.
           pose proof (processVersions_members group (APIGroup.Versions group) [] r) as Hv.
           rewrite Hgr in Hv. destruct (Hv Hin) as [Hnil|(v & rl & listed & Hrest)];
             [destruct Hnil|].
           exists group, v, rl, listed. split; [left; reflexivity|]. split; assumption.
        -- right. exists g, v, rl, listed. split; [right|]; assumption.
Qed.

End Enumerator.

(** Every record [getGroupResources] returns was built from a descriptor
    without ['/'], listed under a version of a group that is not excluded,
    and passes the resource filter. *)
Lemma getGroupResources_members `{CachedDiscoveryInterface T} (o : options.t)
    (discoveryClient : T) (r : groupResource.t) :
  In r (fst (getGroupResources o discoveryClient)) ->
  let client := invalidateUnlessCached o discoveryClient in
  exists group version resourceList listed,
    In group (APIGroupList.Groups (fst (ServerGroups client)))
    /\ excludeGroup group o = false
    /\ In version (APIGroup.Versions group)
    /\ ServerResourcesForGroupVersion client
         (GroupVersionForDiscovery.GroupVersion version) = (resourceList, None)
    /\ In listed (APIResourceList.APIResources resourceList)
    /\ kept o (fst (getPreferredResourceVersions client)) group version listed r.
Proof.
  unfold getGroupResources. cbv zeta. intros Hin.
  set (client := invalidateUnlessCached o discoveryClient) in *.
  destruct (ServerGroups client) as [groupList [err|]]; [destruct Hin|].
  destruct (getPreferredResourceVersions client) as [idx [err|]]; [destruct Hin|].
  apply processGroups_members in Hin as [Hnil|Hin]; [destruct Hnil | exact Hin].
Qed.

(** ** The preferred flag of the records (C1) *)

(** C1.  Every record the enumeration returns was listed under a version of
    its own group, and its preferred flag is true exactly when the
    preferred-version index built for this enumeration maps the record's key
    (base name, dot, group) to that version's version string; when the index
    has no entry for the key, the flag is false. *)
Theorem preferred_iff_index `{CachedDiscoveryInterface T} (o : options.t)
    (discoveryClient : T) (r : groupResource.t) :
  In r (fst (getGroupResources o discoveryClient)) ->
  exists version,
    In version (APIGroup.Versions (groupResource.APIGroup r))
    /\ groupResource.APIGroupVersion r = GroupVersionForDiscovery.GroupVersion version
    /\ (groupResource.Preferred r = true
        <-> fst (getPreferredResourceVersions (invalidateUnlessCached o discoveryClient))
              !! indexKey r = Some (GroupVersionForDiscovery.Version version))
    /\ (fst (getPreferredResourceVersions (invalidateUnlessCached o discoveryClient))
          !! indexKey r = None -> groupResource.Preferred r = false).
Proof.
  intros Hin.
  destruct (getGroupResources_members o discoveryClient r Hin)
    as (group & version & resourceList & listed & _ & _ & Hv & _ & _ & Hrec & _ & _).
  subst r. exists version. unfold indexKey. cbn.
  split; [exact Hv|]. split; [reflexivity|].
  destruct (_ !! _) as [preferredVersion|]; split.
  - rewrite String.eqb_eq. split; congruence.
  - discriminate.
  - split; discriminate.
  - reflexivity.
Qed.

Lemma preferred_iff_index_witness :
  exists version,
    In version (APIGroup.Versions (groupResource.APIGroup deploymentsV1))
    /\ groupResource.APIGroupVersion deploymentsV1
       = GroupVersionForDiscovery.GroupVersion version
    /\ (groupResource.Preferred deploymentsV1 = true
        <-> fst (getPreferredResourceVersions
                   (invalidateUnlessCached newAPIResourceVersionsOptions appsClient))
              !! indexKey deploymentsV1 = Some (GroupVersionForDiscovery.Version version))
    /\ (fst (getPreferredResourceVersions
               (invalidateUnlessCached newAPIResourceVersionsOptions appsClient))
          !! indexKey deploymentsV1 = None -> groupResource.Preferred deploymentsV1 = false).
Proof.
  apply (preferred_iff_index newAPIResourceVersionsOptions appsClient deploymentsV1).
  vm_compute. left. reflexivity.
Defined.

(** ** The resource filter with nothing set (C4) *)

(** C4.  When no optional predicate was set (the group, namespaced and
    preferred flags unchanged, no verbs, no categories), [excludeGroupResource]
    is false on every candidate whose name has no ['/'] and true on every
    candidate whose name has one. *)
Theorem excludeGroupResource_nothing_set (o : options.t) (resource : groupResource.t) :
  options.groupChanged o = false ->
  options.nsChanged o = false ->
  options.preferredChanged o = false ->
  options.Verbs o = [] ->
  options.Categories o = [] ->
  (~ hasSlash (APIResource.Name (groupResource.APIResource resource)) ->
   excludeGroupResource resource o = false)
  /\ (hasSlash (APIResource.Name (groupResource.APIResource resource)) ->
      excludeGroupResource resource o = true).
Proof.
  intros _ Hns Hpreferred Hverbs Hcategories. unfold excludeGroupResource.
  rewrite Hns, Hpreferred, Hverbs, Hcategories. cbn.
  split; intros Hslash.
  - apply Contains_slash_false in Hslash. rewrite Hslash. reflexivity.
  - apply Contains_slash in Hslash. rewrite Hslash. reflexivity.
Qed.

Lemma hasSlash_podsStatus : hasSlash "pods/status".
Proof. unfold hasSlash. cbn. tauto. Defined.

Lemma not_hasSlash_pods : ~ hasSlash "pods".
Proof. unfold hasSlash. cbn. intros H. repeat destruct H as [H|H]; discriminate || exact H. Defined.

Lemma excludeGroupResource_nothing_set_witness :
  excludeGroupResource podsV1 newAPIResourceVersionsOptions = false
  /\ excludeGroupResource podsStatusV1 newAPIResourceVersionsOptions = true.
Proof.
  split.
  - apply (excludeGroupResource_nothing_set newAPIResourceVersionsOptions podsV1);
      try reflexivity.
    exact not_hasSlash_pods.
  - apply (excludeGroupResource_nothing_set newAPIResourceVersionsOptions podsStatusV1);
      try reflexivity.
    exact hasSlash_podsStatus.
Defined.

(** ** [fullname] on the records of the enumerator (C10) *)

(** C10.  A record the enumerator returns carries the group-version string of
    one of the versions of its own group; when that string parses into a
    group and a version and the group is the name of the record's group,
    [fullname] does not panic and returns the resource name, a dot, the
    version, a dot and the group name. *)
Theorem fullname_of_enumerated `{CachedDiscoveryInterface T} (o : options.t)
    (discoveryClient : T) (r : groupResource.t) (group version : string) :
  In r (fst (getGroupResources o discoveryClient)) ->
  schema.ParseGroupVersion (groupResource.APIGroupVersion r)
  = ({| schema.GroupVersion.Group := group; schema.GroupVersion.Version := version |}, None) ->
  group = APIGroup.Name (groupResource.APIGroup r) ->
  (exists discovered,
      In discovered (APIGroup.Versions (groupResource.APIGroup r))
      /\ groupResource.APIGroupVersion r
         = GroupVersionForDiscovery.GroupVersion discovered)
  /\ fullname r
     = Return (APIResource.Name (groupResource.APIResource r) +:+ "." +:+ version
               +:+ "." +:+ APIGroup.Name (groupResource.APIGroup r)).
Proof.
  intros Hin Hparse Hgroup. split.
  - destruct (getGroupResources_members o discoveryClient r Hin)
      as (g & v & _ & listed & _ & _ & Hv & _ & _ & Hrec & _ & _).
    subst r. exists v. cbn. auto.
  - unfold fullname. rewrite Hparse. cbn. rewrite <- Hgroup, String.eqb_refl.
    reflexivity.
Qed.

Lemma fullname_of_enumerated_witness :
  (exists discovered,
      In discovered (APIGroup.Versions (groupResource.APIGroup deploymentsV1))
      /\ groupResource.APIGroupVersion deploymentsV1
         = GroupVersionForDiscovery.GroupVersion discovered)
  /\ fullname deploymentsV1
     = Return (APIResource.Name (groupResource.APIResource deploymentsV1) +:+ "." +:+ "v1"
               +:+ "." +:+ APIGroup.Name (groupResource.APIGroup deploymentsV1)).
Proof.
  apply (fullname_of_enumerated newAPIResourceVersionsOptions appsClient deploymentsV1
           "apps" "v1").
  - vm_compute. left. reflexivity.
  - reflexivity.
  - reflexivity.
Defined.

(** ** The preferred-version index (C8) *)

Lemma hasSlashb_spec (name : string) : hasSlashb name = true <-> hasSlash name.
Proof.
  unfold hasSlashb, hasSlash. rewrite existsb_exists. split.
  - intros (c & Hin & Heq). apply Ascii.eqb_eq in Heq. subst c. exact Hin.
  - intros Hin. exists "/"%char. split; [exact Hin | apply Ascii.eqb_refl].
Qed.

Lemma specLookup_app (key : string) (entries1 entries2 : list (string * string)) :
  specLookup key (entries1 ++ entries2)
  = match specLookup key entries2 with
    | Some later => Some later
    | None => specLookup key entries1
    end.
Proof.
  induction entries1 as [|[k version] rest IH]; cbn [app specLookup].
  - destruct (specLookup key entries2); reflexivity.
  - rewrite IH. destruct (specLookup key entries2); reflexivity.
Qed.

Lemma indexResources_lookup (resourceList : APIResourceList.t)
    (preferredVersions : gmap string string) (key : string) :
  indexResources
    (schema.GroupVersion.Group
       (fst (schema.ParseGroupVersion (APIResourceList.GroupVersion resourceList))))
    (schema.GroupVersion.Version
       (fst (schema.ParseGroupVersion (APIResourceList.GroupVersion resourceList))))
    (APIResourceList.APIResources resourceList) preferredVersions !! key
  = match specLookup key (specEntriesOf resourceList) with
    | Some version => Some version
    | None => preferredVersions !! key
    end.
Proof.
  unfold specEntriesOf. destruct resourceList as [gv apiResources].
  cbn [APIResourceList.GroupVersion APIResourceList.APIResources].
  generalize (fst (schema.ParseGroupVersion gv)). intros groupVersion.
  revert preferredVersions.
  induction apiResources as [|resource rest IH]; intros preferredVersions;
    cbn [indexResources List.filter map specLookup].
  - reflexivity.
  - rewrite unversionedResourceName_spec.
    cbn [APIResource.setGroup APIResource.Name APIResource.Group].
    destruct (snd (splitResourceName (APIResource.Name resource))) eqn:Hsub.
    + assert (hasSlashb (APIResource.Name resource) = true) as ->.
      { destruct (hasSlashb (APIResource.Name resource)) eqn:Hb; [reflexivity|].
        assert (~ hasSlash (APIResource.Name resource)) as Hs
          by (rewrite <- hasSlashb_spec; congruence).
        apply splitResourceName_None in Hs. congruence. }
      cbn [negb]. apply IH.
    + assert (hasSlashb (APIResource.Name resource) = false) as ->.
      { apply splitResourceName_None in Hsub.
        destruct (hasSlashb (APIResource.Name resource)) eqn:Hb; [|reflexivity].
        apply hasSlashb_spec in Hb. contradiction. }
      cbn [negb map specLookup]. rewrite IH.
      destruct (specLookup key _); [reflexivity|].
      rewrite lookup_insert. destruct (String.eqb_spec
        (fst (splitResourceName (APIResource.Name resource)) +:+ "."
           +:+ schema.GroupVersion.Group groupVersion) key) as [Heq|Hne].
      * rewrite decide_True by exact Heq. reflexivity.
      * rewrite decide_False by exact Hne. reflexivity.
Qed.

Lemma indexResourceLists_ok (summary : list APIResourceList.t)
    (preferredVersions : gmap string string) :
  (forall resourceList, In resourceList summary ->
     snd (schema.ParseGroupVersion (APIResourceList.GroupVersion resourceList)) = None) ->
  exists index,
    indexResourceLists summary preferredVersions = (index, None)
    /\ forall key,
         index !! key = match specLookup key (specEntries summary) with
                        | Some version => Some version
                        | None => preferredVersions !! key
                        end.
Proof.
  revert preferredVersions.
  induction summary as [|resourceList rest IH]; intros preferredVersions Hparse;
    cbn [indexResourceLists].
  - exists preferredVersions. split; reflexivity.
  - pose proof (Hparse resourceList (in_eq _ _)) as Hhead.
    pose proof (indexResources_lookup resourceList preferredVersions) as Hinner.
    destruct (schema.ParseGroupVersion (APIResourceList.GroupVersion resourceList))
      as [groupVersion [err|]]; [discriminate|]. cbn [fst] in Hinner.
    destruct (IH (indexResources (schema.GroupVersion.Group groupVersion)
                    (schema.GroupVersion.Version groupVersion)
                    (APIResourceList.APIResources resourceList) preferredVersions))
      as (index & Hindex & Hlookup).
    { intros rl Hrl. apply Hparse. right. exact Hrl. }
    exists index. split; [exact Hindex|]. intros key.
    rewrite Hlookup, Hinner. unfold specEntries. cbn [flat_map].
    rewrite specLookup_app. destruct (specLookup key (flat_map specEntriesOf rest));
      reflexivity.
Qed.

Lemma indexResourceLists_err (summary : list APIResourceList.t)
    (preferredVersions : gmap string string) :
  (exists resourceList, In resourceList summary
     /\ snd (schema.ParseGroupVersion (APIResourceList.GroupVersion resourceList)) <> None) ->
  exists resourceList cause,
    In resourceList summary
    /\ snd (schema.ParseGroupVersion (APIResourceList.GroupVersion resourceList)) = Some cause
    /\ indexResourceLists summary preferredVersions
       = (∅, Some (Errorf_w ("couldn't parse group version "
                              +:+ APIResourceList.GroupVersion resourceList) cause)).
Proof.
  revert preferredVersions.
  induction summary as [|resourceList rest IH]; intros preferredVersions (bad & Hin & Hbad).
  - destruct Hin.
  - cbn [indexResourceLists].
    destruct (schema.ParseGroupVersion (APIResourceList.GroupVersion resourceList))
      as [groupVersion [err|]] eqn:Hparse.
    + exists resourceList, err. rewrite Hparse. auto using in_eq.
    + destruct Hin as [->|Hin]; [rewrite Hparse in Hbad; contradiction|].
      destruct (IH (indexResources (schema.GroupVersion.Group groupVersion)
                      (schema.GroupVersion.Version groupVersion)
                      (APIResourceList.APIResources resourceList) preferredVersions))
        as (rl & cause & Hrl & Hcause & Hresult); [exists bad; auto|].
      exists rl, cause. auto using in_cons.
Qed.

(** C8.  On a preferred-resources summary the client delivered, the index
    builder returns a parse error, and the empty map with it, exactly when
    some group-version string of the summary does not split into group and
    version.  Otherwise it returns a map that sends every key to the version
    of the last descriptor without ['/'] whose base name, dot and group make
    that key: descriptors with a ['/'] give no entry, later pairs overwrite
    earlier ones. *)
Theorem getPreferredResourceVersions_spec `{CachedDiscoveryInterface T}
    (discoveryClient : T) (summary : list APIResourceList.t) :
  ServerPreferredResources discoveryClient = (summary, None) ->
  ((exists resourceList, In resourceList summary
      /\ snd (schema.ParseGroupVersion (APIResourceList.GroupVersion resourceList)) <> None)
   <-> (exists resourceList cause,
          In resourceList summary
          /\ snd (schema.ParseGroupVersion (APIResourceList.GroupVersion resourceList))
             = Some cause
          /\ getPreferredResourceVersions discoveryClient
             = (∅, Some (Errorf_w ("couldn't parse group version "
                                    +:+ APIResourceList.GroupVersion resourceList) cause))))
  /\ ((forall resourceList, In resourceList summary ->
         snd (schema.ParseGroupVersion (APIResourceList.GroupVersion resourceList)) = None) ->
      exists index,
        getPreferredResourceVersions discoveryClient = (index, None)
        /\ forall key, index !! key = specLookup key (specEntries summary)).
Proof.
  intros Hsummary. unfold getPreferredResourceVersions. rewrite Hsummary. split.
  - split.
    + apply indexResourceLists_err.
    + intros (resourceList & cause & Hin & Hcause & _). exists resourceList.
      split; [exact Hin|]. rewrite Hcause. discriminate.
  - intros Hparse.
    destruct (indexResourceLists_ok summary ∅ Hparse) as (index & Hindex & Hlookup).
    exists index. split; [exact Hindex|]. intros key. rewrite Hlookup, lookup_empty.
    destruct (specLookup key (specEntries summary)); reflexivity.
Qed.

Lemma getPreferredResourceVersions_spec_witness :
  ((exists resourceList,
       In resourceList (FakeCachedDiscoveryClient.PreferredResources brokenSummaryClient)
       /\ snd (schema.ParseGroupVersion (APIResourceList.GroupVersion resourceList)) <> None)
   <-> (exists resourceList cause,
          In resourceList (FakeCachedDiscoveryClient.PreferredResources brokenSummaryClient)
          /\ snd (schema.ParseGroupVersion (APIResourceList.GroupVersion resourceList))
             = Some cause
          /\ getPreferredResourceVersions brokenSummaryClient
             = (∅, Some (Errorf_w ("couldn't parse group version "
                                    +:+ APIResourceList.GroupVersion resourceList) cause))))
  /\ ((forall resourceList,
         In resourceList (FakeCachedDiscoveryClient.PreferredResources brokenSummaryClient) ->
         snd (schema.ParseGroupVersion (APIResourceList.GroupVersion resourceList)) = None) ->
      exists index,
        getPreferredResourceVersions brokenSummaryClient = (index, None)
        /\ forall key,
             index !! key
             = specLookup key
                 (specEntries (FakeCachedDiscoveryClient.PreferredResources brokenSummaryClient))).
Proof.
  apply (getPreferredResourceVersions_spec brokenSummaryClient
           (FakeCachedDiscoveryClient.PreferredResources brokenSummaryClient)).
  reflexivity.
Defined.

(** On the broken summary the builder stops at the second group version. *)
Example getPreferredResourceVersions_broken :
  getPreferredResourceVersions brokenSummaryClient
  = (∅, Some (wrapError
                "couldn't parse group version apps/v1/beta: unexpected GroupVersion string: apps/v1/beta"
                (errorString "unexpected GroupVersion string: apps/v1/beta"))).
Proof. reflexivity. Qed.

(** On the summary of [appsClient] the index has the one entry of
    [deployments]. *)
Example getPreferredResourceVersions_apps :
  getPreferredResourceVersions appsClient = ({[ "deployments.apps" := "v1" ]}, None).
Proof. vm_compute. reflexivity. Qed.

(** ** The [apps] scenario (C2) *)

(** C2.  On the topology of [appsClient] (the group [apps] with [v1] and
    [v1beta1], [deployments] under both, preferred under [apps/v1] only) the
    enumeration with no filter set returns exactly the [apps/v1] record,
    preferred, and the [apps/v1beta1] record, not preferred; with
    [--preferred=true] it returns exactly the [apps/v1] record; and the line
    printed for that record in the name format is ["deployments.v1.apps"]. *)
Theorem apps_scenario :
  getGroupResources newAPIResourceVersionsOptions appsClient
  = ([deploymentsV1; deploymentsV1beta1], None)
  /\ groupResource.Preferred deploymentsV1 = true
  /\ groupResource.Preferred deploymentsV1beta1 = false
  /\ getGroupResources (SetPreferred newAPIResourceVersionsOptions true) appsClient
     = ([deploymentsV1], None)
  /\ fullname deploymentsV1 = Return "deployments.v1.apps"
  /\ runAPIResourceVersions
       (SetOutput (SetPreferred newAPIResourceVersionsOptions true) nameOutput)
       appsClient Buffer.new
     = ({| Buffer.written := ["deployments.v1.apps" +:+ newline];
           Buffer.flushed := true |}, Return None).
Proof. repeat split; vm_compute; reflexivity. Qed.

(** ** Subresources (C5) *)






(** ** The wide format (C6) *)

(** In the earlier revision the wide format is the default columns, then
    the verbs and the categories. *)
Lemma legacy_wide_columns (resource : Legacy.groupResource.t) :
  Buffer.written (fst (Legacy.printHeaders Buffer.new wideOutput))
  = [strings.Join (defaultHeaders ++ ["VERBS"; "CATEGORIES"]) tab +:+ newline]
  /\ length (Legacy.wideColumns resource) = 8.
Proof. split; reflexivity. Qed.



(** ** A listing that fails (C3) *)

Section EnumeratorErrors.

Context `{CachedDiscoveryInterface T}.
Variables (o : options.t) (discoveryClient : T).
Variable preferredResources : gmap string string.

(** The loop over the versions either stops at a listing that fails, with
    that listing's error and no resources, or every listing succeeded. *)
Lemma processVersions_result group versions resources :
  (exists version cause,
      In version versions
      /\ snd (ServerResourcesForGroupVersion discoveryClient
                (GroupVersionForDiscovery.GroupVersion version)) = Some cause
      /\ processVersions o discoveryClient group preferredResources versions resources
         = ([], Some (listingError version cause)))
  \/ (snd (processVersions o discoveryClient group preferredResources versions resources)
      = None
      /\ forall version, In version versions ->
           snd (ServerResourcesForGroupVersion discoveryClient
                  (GroupVersionForDiscovery.GroupVersion version)) = None).
Proof.
  revert resources.
  induction versions as [|version rest IH]; intros resources; cbn [processVersions].
  - right. split; [reflexivity | intros v []].
  - destruct (ServerResourcesForGroupVersion discoveryClient
                (GroupVersionForDiscovery.GroupVersion version))
      as [resourceList [err|]] eqn:Hlist.
    + left. exists version, err. rewrite Hlist. auto using in_eq.
    + destruct (IH (processResources o group version preferredResources
                      (APIResourceList.APIResources resourceList) resources))
        as [(v & cause & Hv & Hcause & Hresult)|[Hnone Hall]].
      * left. exists v, cause. auto using in_cons.
      * right. split; [exact Hnone|]. intros v [<-|Hv]; [rewrite Hlist; reflexivity | auto].
Qed.

(** The same for the loop over the groups. *)
Lemma processGroups_result groups resources :
  (exists group version cause,
      In group groups /\ excludeGroup group o = false
      /\ In version (APIGroup.Versions group)
      /\ snd (ServerResourcesForGroupVersion discoveryClient
                (GroupVersionForDiscovery.GroupVersion version)) = Some cause
      /\ processGroups o discoveryClient preferredResources groups resources
         = ([], Some (listingError version cause)))
  \/ (snd (processGroups o discoveryClient preferredResources groups resources) = None
      /\ forall group version,
           In group groups -> excludeGroup group o = false ->
           In version (APIGroup.Versions group) ->
           snd (ServerResourcesForGroupVersion discoveryClient
                  (GroupVersionForDiscovery.GroupVersion version)) = None).
Proof.
  revert resources.
  induction groups as [|group rest IH]; intros resources; cbn [processGroups].
  - right. split; [reflexivity | intros g v []].
  - destruct (excludeGroup group o) eqn:Hex.
    + destruct (IH resources) as [(g & v & cause & Hg & Hrest)|[Hnone Hall]].
      * left. exists g, v, cause. split; [right|]; assumption.
      * right. split; [exact Hnone|].
        intros g v [<-|Hg] Hexg Hv; [congruence | eauto].
    + unfold processGroupResources.
      destruct (processVersions_result group (APIGroup.Versions group) [])
        as [(v & cause & Hv & Hcause & Hresult)|[Hnone Hall]].
      * left. exists group, v, cause. rewrite Hresult. auto 6 using in_eq.
      * destruct (processVersions o discoveryClient group preferredResources
                    (APIGroup.Versions group) []) as [groupResources [err|]];
          [discriminate|].
        destruct (IH (resources ++ groupResources))
          as [(g & v & cause & Hg & Hrest)|[Hnone' Hall']].
        -- left. exists g, v, cause. split; [right|]; assumption.
        -- right. split; [exact Hnone'|].
           intros g v [<-|Hg] Hexg Hv; [auto | eauto].
Qed.

End EnumeratorErrors.




(** ** No resources found (C7) *)

(** An error of [getGroupResources] is always a wrapped one. *)
Lemma getGroupResources_error `{CachedDiscoveryInterface T} (o : options.t)
    (discoveryClient : T) (err : error) :
  snd (getGroupResources o discoveryClient) = Some err ->
  exists msg cause, err = wrapError msg cause.
Proof.
  unfold getGroupResources. cbv zeta.
  destruct (ServerGroups (invalidateUnlessCached o discoveryClient)) as [groupList [e|]].
  { cbn. intros [= <-]. eexists _, _. reflexivity. }
  destruct (getPreferredResourceVersions (invalidateUnlessCached o discoveryClient))
    as [index [e|]].
  { cbn. intros [= <-]. eexists _, _. reflexivity. }
  destruct (processGroups_result o (invalidateUnlessCached o discoveryClient) index
              (APIGroupList.Groups groupList) [])
    as [(g & v & cause & _ & _ & _ & _ & Hresult)|[Hnone _]].
  - rewrite Hresult. cbn. intros [= <-]. eexists _, _. reflexivity.
  - rewrite Hnone. discriminate.
Qed.

(** An error [printGroupResources] returns is a wrapped one (from the
    header) or an aggregate (from the rows). *)
Lemma printGroupResources_error `{TabWriter W} (resources : list groupResource.t)
    (o : options.t) (writer : W) (err : error) :
  snd (printGroupResources resources o writer) = Return (Some err) ->
  (exists msg cause, err = wrapError msg cause) \/ (exists errs, err = aggregate errs).
Proof.
  unfold printGroupResources, mustFlushWriter.
  destruct (Flush (fst (printGroupResourcesBody resources o writer))) as [w [e|]];
    [discriminate|].
  cbn [snd]. unfold printGroupResourcesBody.
  destruct (negb (options.NoHeaders o) && negb (String.eqb (options.Output o) nameOutput)).
  - unfold printHeaders.
    destruct (Write writer _) as [w' [e|]].
    + cbn. intros [= <-]. left. eexists _, _. reflexivity.
    + destruct (printRows _ _ _ _) as [w'' [[|e errs]|msg]]; cbn; try discriminate.
      intros [= <-]. right. eexists. reflexivity.
  - destruct (printRows _ _ _ _) as [w'' [[|e errs]|msg]]; cbn; try discriminate.
    intros [= <-]. right. eexists. reflexivity.
Qed.

(** C7.  The run returns the error [errNoResourcesFound] exactly when the
    enumeration succeeded with no record and the output format is not
    ["name"].  When the format is ["name"] and the enumeration succeeded with
    no record, nothing is written (the writer is only flushed) and no error
    is returned: the run returns [nil] (it panics if the flush itself
    fails). *)
Theorem run_no_resources_found `{CachedDiscoveryInterface T} `{TabWriter W}
    (o : options.t) (discoveryClient : T) (writer : W) :
  (snd (runAPIResourceVersions o discoveryClient writer)
   = Return (Some errNoResourcesFound)
   <-> getGroupResources o discoveryClient = ([], None)
       /\ options.Output o <> nameOutput)
  /\ (getGroupResources o discoveryClient = ([], None)
      /\ options.Output o = nameOutput ->
      fst (runAPIResourceVersions o discoveryClient writer) = fst (Flush writer)
      /\ (forall err, snd (runAPIResourceVersions o discoveryClient writer)
                      <> Return (Some err))
      /\ (snd (Flush writer) = None ->
          snd (runAPIResourceVersions o discoveryClient writer) = Return None)).
Proof.
  unfold runAPIResourceVersions. split.
  - destruct (getGroupResources o discoveryClient) as [resources [err|]] eqn:Hget.
    + split.
      * cbn. intros [= ->].
        destruct (getGroupResources_error o discoveryClient errNoResourcesFound)
          as (msg & cause & Hwrapped); [rewrite Hget; reflexivity | discriminate].
      * intros [[=] _].
    + destruct resources as [|r resources]; cbn [length Nat.eqb andb].
      * destruct (String.eqb_spec (options.Output o) nameOutput) as [Hname|Hname];
          cbn [negb].
        -- split; [|intros [_ Hne]; contradiction].
           intros Hrun. apply printGroupResources_error in Hrun
             as [(msg & cause & [=])|(errs & [=])].
        -- split; auto.
      * split; [|intros [[=] _]].
        intros Hrun. apply printGroupResources_error in Hrun
          as [(msg & cause & [=])|(errs & [=])].
  - intros [-> Hname]. cbn [length Nat.eqb andb]. rewrite Hname.
    unfold printGroupResources, printGroupResourcesBody, mustFlushWriter.
    rewrite Hname. cbn -[Flush]. rewrite andb_false_r. cbn -[Flush].
    destruct (Flush writer) as [w [e|]]; cbn; repeat split; congruence.
Qed.

Lemma run_no_resources_found_witness :
  snd (runAPIResourceVersions newAPIResourceVersionsOptions emptyClient Buffer.new)
  = Return (Some errNoResourcesFound)
  /\ fst (runAPIResourceVersions (SetOutput newAPIResourceVersionsOptions nameOutput)
            emptyClient Buffer.new)
     = {| Buffer.written := []; Buffer.flushed := true |}
  /\ snd (runAPIResourceVersions (SetOutput newAPIResourceVersionsOptions nameOutput)
            emptyClient Buffer.new)
     = Return None.
Proof.
  split.
  - apply (proj1 (run_no_resources_found newAPIResourceVersionsOptions emptyClient
                    Buffer.new)).
    split; [reflexivity | discriminate].
  - destruct (proj2 (run_no_resources_found
                       (SetOutput newAPIResourceVersionsOptions nameOutput) emptyClient
                       Buffer.new)) as (Hwriter & _ & Hreturn).
    + split; reflexivity.
    + split; [exact Hwriter | apply Hreturn; reflexivity].
Defined.

(** ** [sort.Stable] sorts, permutes and is stable *)

Lemma StronglySorted_rev {A : Type} (R : A -> A -> Prop) (l : list A) :
  StronglySorted R l -> StronglySorted (fun a b => R b a) (rev l).
Proof.
  induction 1 as [|a l Hl IH Ha]; cbn [rev]; [constructor|].
  apply StronglySorted_app_2; [|exact IH|repeat constructor].
  intros x1 x2 Hx1 Hx2. apply list_elem_of_In in Hx2 as [<-|[]].
  rewrite List.Forall_forall in Ha. apply Ha. apply in_rev. apply list_elem_of_In. exact Hx1.
Qed.

Lemma filter_none {A : Type} (keep : A -> bool) (l : list A) :
  (forall z, In z l -> keep z = false) -> List.filter keep l = [].
Proof.
  induction l as [|a l IH]; intros Hall; cbn [List.filter]; [reflexivity|].
  rewrite (Hall a (in_eq _ _)). apply IH. intros z Hz. apply Hall. right. exact Hz.
Qed.

Lemma filter_cons_app {A : Type} (keep : A -> bool) (a : A) (l : list A) :
  List.filter keep (a :: l) = (if keep a then [a] else []) ++ List.filter keep l.
Proof. cbn [List.filter]. destruct (keep a); reflexivity. Qed.

Lemma pair_induction {X : Type} (P : list X -> Prop) :
  P [] -> (forall a, P [a]) -> (forall a b rest, P rest -> P (a :: b :: rest)) ->
  forall l, P l.
Proof.
  intros Hnil Hone Hstep l.
  assert (P l /\ forall a, P (a :: l)) as [Hl _]; [|exact Hl].
  induction l as [|b l [IHl IHcons]]; split; auto.
Qed.

Section StableSort.

Context {A : Type} (less : A -> A -> bool).

(** [less] is a strict weak order. *)
Hypothesis less_asym : forall x y, less x y = true -> less y x = false.
Hypothesis less_negtrans :
  forall x y z, less x z = true -> less x y = true \/ less y z = true.

(** A set of elements that the order does not tell apart. *)
Variable tie : A -> bool.
Hypothesis tie_class : forall a b, tie a = true -> tie b = true -> less a b = false.

Lemma less_irrefl x : less x x = false.
Proof.
  destruct (less x x) eqn:E; [|reflexivity].
  rewrite (less_asym _ _ E) in E. discriminate.
Qed.

Lemma notLess_trans a b c : notLess less a b -> notLess less b c -> notLess less a c.
Proof.
  unfold notLess. intros Hab Hbc. destruct (less c a) eqn:E; [|reflexivity].
  destruct (less_negtrans c b a E); congruence.
Qed.

(** *** Insertion sort *)

Lemma sink_perm x revPrefix : Permutation (sort.sink less x revPrefix) (x :: revPrefix).
Proof.
  induction revPrefix as [|y rest IH]; cbn [sort.sink]; [reflexivity|].
  destruct (less x y); [|reflexivity].
  rewrite IH. apply perm_swap.
Qed.

Lemma sink_descending x revPrefix :
  descending less revPrefix -> descending less (sort.sink less x revPrefix).
Proof.
  unfold descending.
  induction revPrefix as [|y rest IH]; intros Hsorted; cbn [sort.sink].
  - repeat constructor.
  - apply StronglySorted_inv in Hsorted as [Hrest Hy].
    destruct (less x y) eqn:E.
    + constructor; [auto|].
      eapply Permutation_Forall; [symmetry; apply sink_perm|].
      constructor; [apply less_asym; exact E | exact Hy].
    + constructor; [constructor; assumption|].
      constructor; [exact E|].
      eapply Forall_impl; [exact Hy|]. cbn. intros z Hz.
      apply (notLess_trans z y x); assumption.
Qed.

Lemma sink_filter x revPrefix :
  List.filter tie (sort.sink less x revPrefix) = List.filter tie (x :: revPrefix).
Proof.
  induction revPrefix as [|y rest IH]; cbn [sort.sink]; [reflexivity|].
  destruct (less x y) eqn:E; [|reflexivity].
  cbn [List.filter] in *. rewrite IH.
  destruct (tie x) eqn:Hx, (tie y) eqn:Hy; try reflexivity.
  rewrite (tie_class x y Hx Hy) in E. discriminate.
Qed.

Lemma sinkAll_perm block revPrefix :
  Permutation (sinkAll less block revPrefix) (rev block ++ revPrefix).
Proof.
  revert revPrefix. induction block as [|x block IH]; intros revPrefix;
    cbn [sinkAll fold_left rev]; [reflexivity|].
  fold (sinkAll less block (sort.sink less x revPrefix)).
  rewrite IH, sink_perm, <- app_assoc. reflexivity.
Qed.

Lemma sinkAll_descending block revPrefix :
  descending less revPrefix -> descending less (sinkAll less block revPrefix).
Proof.
  revert revPrefix. induction block as [|x block IH]; intros revPrefix Hsorted;
    cbn [sinkAll fold_left]; [exact Hsorted|].
  apply IH, sink_descending, Hsorted.
Qed.

Lemma sinkAll_filter block revPrefix :
  List.filter tie (sinkAll less block revPrefix)
  = rev (List.filter tie block) ++ List.filter tie revPrefix.
Proof.
  revert revPrefix. induction block as [|x block IH]; intros revPrefix;
    cbn [sinkAll fold_left]; [reflexivity|].
  fold (sinkAll less block (sort.sink less x revPrefix)).
  rewrite IH, sink_filter. cbn [List.filter].
  destruct (tie x); cbn [rev]; [rewrite <- app_assoc|]; reflexivity.
Qed.

Lemma insertionSort_perm block : Permutation (sort.insertionSort less block) block.
Proof.
  unfold sort.insertionSort. fold (sinkAll less block []).
  rewrite <- Permutation_rev, sinkAll_perm, app_nil_r, <- Permutation_rev. reflexivity.
Qed.

Lemma insertionSort_ascending block : ascending less (sort.insertionSort less block).
Proof.
  unfold sort.insertionSort. fold (sinkAll less block []).
  apply (StronglySorted_rev (fun a b => notLess less b a)), sinkAll_descending. constructor.
Qed.

Lemma insertionSort_filter block :
  List.filter tie (sort.insertionSort less block) = List.filter tie block.
Proof.
  unfold sort.insertionSort. fold (sinkAll less block []).
  rewrite filter_rev, sinkAll_filter, app_nil_r. apply rev_involutive.
Qed.

(** *** Merging *)

Lemma merge_nil_l run2 : sort.merge less [] run2 = run2.
Proof. destruct run2; reflexivity. Qed.

Lemma merge_nil_r run1 : sort.merge less run1 [] = run1.
Proof. destruct run1; reflexivity. Qed.

Lemma merge_cons x run1 y run2 :
  sort.merge less (x :: run1) (y :: run2)
  = if less y x then y :: sort.merge less (x :: run1) run2
    else x :: sort.merge less run1 (y :: run2).
Proof. reflexivity. Qed.

Lemma merge_perm run1 run2 : Permutation (sort.merge less run1 run2) (run1 ++ run2).
Proof.
  revert run2. induction run1 as [|x run1 IH1]; intros run2.
  - rewrite merge_nil_l. reflexivity.
  - induction run2 as [|y run2 IH2].
    + rewrite merge_nil_r, app_nil_r. reflexivity.
    + rewrite merge_cons. destruct (less y x).
      * rewrite IH2. apply Permutation_middle.
      * rewrite IH1. reflexivity.
Qed.

Lemma merge_ascending run1 run2 :
  ascending less run1 -> ascending less run2 -> ascending less (sort.merge less run1 run2).
Proof.
  unfold ascending. revert run2. induction run1 as [|x run1 IH1]; intros run2 H1 H2.
  - rewrite merge_nil_l. exact H2.
  - induction run2 as [|y run2 IH2].
    + rewrite merge_nil_r. exact H1.
    + rewrite merge_cons.
      pose proof (StronglySorted_inv H1) as [H1' Hx].
      pose proof (StronglySorted_inv H2) as [H2' Hy].
      destruct (less y x) eqn:E.
      * constructor; [apply IH2; exact H2'|].
        eapply Permutation_Forall; [symmetry; apply merge_perm|].
        apply List.Forall_app. split; [|exact Hy].
        constructor; [apply less_asym; exact E|].
        eapply Forall_impl; [exact Hx|]. cbn. unfold notLess. intros z Hz.
        destruct (less z y) eqn:Ezy; [|reflexivity].
        destruct (less_negtrans z x y Ezy) as [Hzx|Hxy]; [congruence|].
        rewrite (less_asym _ _ E) in Hxy. discriminate.
      * constructor; [apply IH1; assumption|].
        eapply Permutation_Forall; [symmetry; apply merge_perm|].
        apply List.Forall_app. split; [exact Hx|].
        constructor; [exact E|].
        eapply Forall_impl; [exact Hy|]. cbn. intros z Hz.
        apply (notLess_trans x y z); [exact E | exact Hz].
Qed.

Lemma merge_filter run1 run2 :
  ascending less run1 ->
  List.filter tie (sort.merge less run1 run2)
  = List.filter tie run1 ++ List.filter tie run2.
Proof.
  unfold ascending. revert run2. induction run1 as [|x run1 IH1]; intros run2 H1.
  - rewrite merge_nil_l. reflexivity.
  - induction run2 as [|y run2 IH2].
    + rewrite merge_nil_r, app_nil_r. reflexivity.
    + rewrite merge_cons. pose proof (StronglySorted_inv H1) as [H1' Hx].
      destruct (less y x) eqn:E.
      * rewrite (filter_cons_app tie y), (filter_cons_app tie y run2), IH2.
        destruct (tie y) eqn:Hy; [|reflexivity].
        assert (List.filter tie (x :: run1) = []) as ->; [|reflexivity].
        apply filter_none. intros z Hz. destruct (tie z) eqn:Hzt; [|reflexivity].
        exfalso. destruct (less_negtrans y z x E) as [Hyz|Hzx].
        -- rewrite (tie_class y z Hy Hzt) in Hyz. discriminate.
        -- destruct Hz as [<-|Hz]; [rewrite less_irrefl in Hzx; discriminate|].
           rewrite List.Forall_forall in Hx. specialize (Hx z Hz).
           unfold notLess in Hx. congruence.
      * rewrite (filter_cons_app tie x), (filter_cons_app tie x run1), (IH1 (y :: run2) H1').
        rewrite <- app_assoc. reflexivity.
Qed.

(** *** Blocks and merging passes *)

Lemma blocks_concat (size room : nat) (block data : list A) :
  concat (sort.blocks size room block data) = block ++ data.
Proof.
  revert room block. induction data as [|x data IH]; intros room block;
    cbn [sort.blocks].
  - cbn. reflexivity.
  - destruct room as [|room]; cbn [concat].
    + rewrite IH. reflexivity.
    + rewrite IH, <- app_assoc. reflexivity.
Qed.

Lemma mergePairs_perm (runs : list (list A)) :
  Permutation (concat (sort.mergePairs less runs)) (concat runs).
Proof.
  induction runs as [| |run1 run2 rest IH] using pair_induction;
    cbn [sort.mergePairs concat]; try reflexivity.
  rewrite IH, merge_perm, <- app_assoc. reflexivity.
Qed.

Lemma mergePairs_ascending (runs : list (list A)) :
  Forall (ascending less) runs -> Forall (ascending less) (sort.mergePairs less runs).
Proof.
  induction runs as [| |run1 run2 rest IH] using pair_induction;
    cbn [sort.mergePairs]; auto.
  intros Hruns. apply Forall_cons in Hruns as [H1 Hruns].
  apply Forall_cons in Hruns as [H2 Hrest].
  constructor; [apply merge_ascending; assumption | auto].
Qed.

Lemma mergePairs_filter (runs : list (list A)) :
  Forall (ascending less) runs ->
  List.filter tie (concat (sort.mergePairs less runs)) = List.filter tie (concat runs).
Proof.
  induction runs as [| |run1 run2 rest IH] using pair_induction;
    cbn [sort.mergePairs concat]; auto.
  intros Hruns. apply Forall_cons in Hruns as [H1 Hruns].
  apply Forall_cons in Hruns as [H2 Hrest].
  rewrite !List.filter_app, (merge_filter run1 run2 H1), (IH Hrest), <- app_assoc.
  reflexivity.
Qed.

Lemma mergePairs_length (runs : list (list A)) :
  length (sort.mergePairs less runs) <= length runs
  /\ (2 <= length runs -> length (sort.mergePairs less runs) < length runs).
Proof.
  induction runs as [| |run1 run2 rest [IH _]] using pair_induction;
    cbn [sort.mergePairs length]; lia.
Qed.

Lemma mergePasses_length (passes : nat) (runs : list (list A)) :
  length runs <= S passes -> length (sort.mergePasses less passes runs) <= 1.
Proof.
  revert runs. induction passes as [|passes IH]; intros runs Hlen;
    cbn [sort.mergePasses]; [exact Hlen|].
  apply IH. destruct (mergePairs_length runs) as [Hle Hlt]. lia.
Qed.

Lemma mergePasses_perm (passes : nat) (runs : list (list A)) :
  Permutation (concat (sort.mergePasses less passes runs)) (concat runs).
Proof.
  revert runs. induction passes as [|passes IH]; intros runs; cbn [sort.mergePasses];
    [reflexivity|].
  rewrite IH. apply mergePairs_perm.
Qed.

Lemma mergePasses_ascending (passes : nat) (runs : list (list A)) :
  Forall (ascending less) runs -> Forall (ascending less) (sort.mergePasses less passes runs).
Proof.
  revert runs. induction passes as [|passes IH]; intros runs Hruns;
    cbn [sort.mergePasses]; [exact Hruns|].
  apply IH, mergePairs_ascending, Hruns.
Qed.

Lemma mergePasses_filter (passes : nat) (runs : list (list A)) :
  Forall (ascending less) runs ->
  List.filter tie (concat (sort.mergePasses less passes runs))
  = List.filter tie (concat runs).
Proof.
  revert runs. induction passes as [|passes IH]; intros runs Hruns;
    cbn [sort.mergePasses]; [reflexivity|].
  rewrite IH by (apply mergePairs_ascending; exact Hruns).
  apply mergePairs_filter, Hruns.
Qed.

Lemma sortedBlocks_ascending (blocks : list (list A)) :
  Forall (ascending less) (map (sort.insertionSort less) blocks).
Proof.
  induction blocks as [|block blocks IH]; cbn [map]; constructor;
    [apply insertionSort_ascending | exact IH].
Qed.

Lemma sortedBlocks_perm (blocks : list (list A)) :
  Permutation (concat (map (sort.insertionSort less) blocks)) (concat blocks).
Proof.
  induction blocks as [|block blocks IH]; cbn [map concat]; [reflexivity|].
  rewrite IH, insertionSort_perm. reflexivity.
Qed.

Lemma sortedBlocks_filter (blocks : list (list A)) :
  List.filter tie (concat (map (sort.insertionSort less) blocks))
  = List.filter tie (concat blocks).
Proof.
  induction blocks as [|block blocks IH]; cbn [map concat]; [reflexivity|].
  rewrite !List.filter_app, IH, insertionSort_filter. reflexivity.
Qed.

(** *** The three properties of [sort.Stable] *)

Lemma Stable_perm (data : list A) : Permutation (sort.Stable less data) data.
Proof.
  unfold sort.Stable. cbv zeta.
  rewrite mergePasses_perm, sortedBlocks_perm, blocks_concat. reflexivity.
Qed.

Lemma Stable_ascending (data : list A) : ascending less (sort.Stable less data).
Proof.
  unfold sort.Stable. cbv zeta.
  set (runs := map (sort.insertionSort less) _).
  pose proof (mergePasses_length (length runs) runs (Nat.le_succ_diag_r _)) as Hlen.
  pose proof (mergePasses_ascending (length runs) runs (sortedBlocks_ascending _)) as Hasc.
  destruct (sort.mergePasses less (length runs) runs) as [|run [|run' rest]];
    cbn [length concat] in *; [constructor | | lia].
  rewrite app_nil_r. apply Forall_cons in Hasc as [Hrun _]. exact Hrun.
Qed.

Lemma Stable_filter (data : list A) :
  List.filter tie (sort.Stable less data) = List.filter tie data.
Proof.
  unfold sort.Stable. cbv zeta.
  rewrite mergePasses_filter by apply sortedBlocks_ascending.
  rewrite sortedBlocks_filter, blocks_concat. reflexivity.
Qed.

End StableSort.

(** ** The order on strings *)

Lemma ltb_lt (a b : string) : String.ltb a b = true <-> String_as_OT.lt a b.
Proof.
  unfold String.ltb, String_as_OT.lt.
  change (String_as_OT.compare a b) with (String.compare a b).
  destruct (String.compare a b); split; congruence.
Qed.

Lemma ltb_irrefl (a : string) : String.ltb a a = false.
Proof.
  destruct (String.ltb a a) eqn:E; [|reflexivity].
  apply ltb_lt in E. exfalso. exact (StrictOrder_Irreflexive a E).
Qed.

Lemma ltb_trans (a b c : string) :
  String.ltb a b = true -> String.ltb b c = true -> String.ltb a c = true.
Proof.
  rewrite !ltb_lt. apply (StrictOrder_Transitive (R := String_as_OT.lt)).
Qed.

Lemma ltb_asym (a b : string) : String.ltb a b = true -> String.ltb b a = false.
Proof.
  intros Hab. destruct (String.ltb b a) eqn:Hba; [|reflexivity].
  rewrite <- (ltb_irrefl a). symmetry. exact (ltb_trans a b a Hab Hba).
Qed.

Lemma ltb_trichotomy (a b : string) :
  String.ltb a b = true \/ a = b \/ String.ltb b a = true.
Proof.
  destruct (String_as_OT.compare_spec a b) as [Heq|Hlt|Hgt].
  - auto.
  - left. apply ltb_lt. exact Hlt.
  - right. right. apply ltb_lt. exact Hgt.
Qed.

Lemma ltb_negtrans (a b c : string) :
  String.ltb a c = true -> String.ltb a b = true \/ String.ltb b c = true.
Proof.
  intros Hac. destruct (ltb_trichotomy a b) as [Hab|[<-|Hba]]; auto.
  right. exact (ltb_trans b a c Hba Hac).
Qed.

(** ** Sorting with no key (C9) *)

Lemma Less_default (lhs rhs : groupResource.t) :
  Less "" lhs rhs
  = if negb (String.eqb (groupName lhs) (groupName rhs))
    then String.ltb (groupName lhs) (groupName rhs)
    else String.ltb (resourceName lhs) (resourceName rhs).
Proof. reflexivity. Qed.

Lemma Less_default_asym (x y : groupResource.t) :
  Less "" x y = true -> Less "" y x = false.
Proof.
  rewrite !Less_default, (String.eqb_sym (groupName y) (groupName x)).
  destruct (String.eqb (groupName x) (groupName y)); cbn [negb]; apply ltb_asym.
Qed.

Lemma Less_default_negtrans (x y z : groupResource.t) :
  Less "" x z = true -> Less "" x y = true \/ Less "" y z = true.
Proof.
  rewrite !Less_default.
  destruct (String.eqb_spec (groupName x) (groupName z)) as [Hxz|Hxz]; cbn [negb];
    intros Hlt.
  - destruct (ltb_trichotomy (groupName x) (groupName y)) as [Hxy|[Hxy|Hyx]].
    + left. destruct (String.eqb_spec (groupName x) (groupName y)) as [Heq|_];
        [rewrite Heq, ltb_irrefl in Hxy; discriminate | exact Hxy].
    + rewrite <- Hxy, <- Hxz, String.eqb_refl. cbn [negb].
      apply ltb_negtrans. exact Hlt.
    + right. rewrite <- Hxz.
      destruct (String.eqb_spec (groupName y) (groupName x)) as [Heq|_];
        [rewrite Heq, ltb_irrefl in Hyx; discriminate | exact Hyx].
  - destruct (ltb_trichotomy (groupName x) (groupName y)) as [Hxy|[Hxy|Hyx]].
    + left. destruct (String.eqb_spec (groupName x) (groupName y)) as [Heq|_];
        [rewrite Heq, ltb_irrefl in Hxy; discriminate | exact Hxy].
    + right. rewrite <- Hxy.
      destruct (String.eqb_spec (groupName x) (groupName z)) as [Heq|_];
        [contradiction | exact Hlt].
    + right. pose proof (ltb_trans _ _ _ Hyx Hlt) as Hyz.
      destruct (String.eqb_spec (groupName y) (groupName z)) as [Heq|_];
        [rewrite Heq, ltb_irrefl in Hyz; discriminate | exact Hyz].
Qed.

Lemma notLess_groupThenName (a b : groupResource.t) :
  notLess (Less "") a b -> groupThenName a b.
Proof.
  unfold notLess, groupThenName. rewrite Less_default.
  destruct (String.eqb_spec (groupName b) (groupName a)) as [Heq|Hne]; cbn [negb];
    intros Hnot.
  - right. split; [auto|].
    destruct (ltb_trichotomy (resourceName a) (resourceName b)) as [Hlt|[Heq'|Hgt]];
      [auto | auto | congruence].
  - destruct (ltb_trichotomy (groupName a) (groupName b)) as [Hlt|[Heq'|Hgt]];
      [auto | congruence | congruence].
Qed.

Lemma sameGroupAndName_tie (group name : string) (a b : groupResource.t) :
  sameGroupAndName group name a = true -> sameGroupAndName group name b = true ->
  Less "" a b = false.
Proof.
  unfold sameGroupAndName. rewrite !andb_true_iff, !String.eqb_eq.
  intros [Hga Hna] [Hgb Hnb]. rewrite Less_default, Hga, Hgb, Hna, Hnb, String.eqb_refl.
  apply ltb_irrefl.
Qed.

(** C9.  With no sort key [sort.Stable] rearranges the records into
    ascending order by group name, then by resource name, and is stable: the
    records of one group name and resource name (the same resource under
    several versions, say) come in the order they had before the sort. *)
Theorem default_sort_stable (resources : list groupResource.t) :
  Permutation (sort.Stable (Less "") resources) resources
  /\ StronglySorted groupThenName (sort.Stable (Less "") resources)
  /\ forall group name,
       List.filter (sameGroupAndName group name) (sort.Stable (Less "") resources)
       = List.filter (sameGroupAndName group name) resources.
Proof.
  split; [apply Stable_perm|]. split.
  - pose proof (Stable_ascending (Less "") Less_default_asym Less_default_negtrans resources)
      as Hsorted.
    unfold ascending in Hsorted.
    induction Hsorted as [|a l Hl IH Ha]; constructor; [exact IH|].
    eapply Forall_impl; [exact Ha|]. cbn. intros b. apply notLess_groupThenName.
  - intros group name.
    apply (Stable_filter (Less "") Less_default_asym Less_default_negtrans).
    apply sameGroupAndName_tie.
Qed.

(** The order the rows of [printGroupResources] are printed in is that of
    [sort.Stable] with the comparison of the sort key. *)
Example default_sort_versions :
  map groupResource.APIGroupVersion
      (sort.Stable (Less "") [podsV1; deploymentsV1beta1; deploymentsV1])
  = ["v1"; "apps/v1beta1"; "apps/v1"].
Proof. reflexivity. Qed.

(** ** Cases of the package's tests, replayed on the embedding *)

(** [TestGetPrefererredResourceVersions]: the subresource gives no entry. *)
Example test_getPreferredResourceVersions :
  getPreferredResourceVersions
    {| FakeCachedDiscoveryClient.Groups := [];
       FakeCachedDiscoveryClient.Resources := [];
       FakeCachedDiscoveryClient.PreferredResources :=
         [ {| APIResourceList.GroupVersion := "apps/v1";
              APIResourceList.APIResources :=
                [ namespacedResource "deployments" "Deployment";
                  namespacedResource "deployments/status" "" ] |};
           {| APIResourceList.GroupVersion := "autoscaling/v2";
              APIResourceList.APIResources :=
                [ namespacedResource "horizontalpodautoscalers"
                    "HorizontalPodAutoscaler" ] |} ];
       FakeCachedDiscoveryClient.Invalidations := 0 |}
  = ({[ "deployments.apps" := "v1";
        "horizontalpodautoscalers.autoscaling" := "v2" ]}, None).
Proof. vm_compute. reflexivity. Qed.

(** [TestSplitResourceName]. *)
Example test_splitResourceName :
  splitResourceName "deployments" = ("deployments", None)
  /\ splitResourceName "deployments/status" = ("deployments", Some "status").
Proof. split; reflexivity. Qed.

(** [TestFullname], the cases of the resources that are not subresources. *)
Example test_fullname :
  fullname deploymentsV1 = Return "deployments.v1.apps"
  /\ fullname podsV1 = Return "pods.v1.".
Proof. split; reflexivity. Qed.

(** [TestSorting], sort by default: the group [bar] comes first, then
    [b-kind] of the group [foo]. *)
Example test_sorting_default :
  let resource name kind group :=
    {| groupResource.APIGroup :=
         {| APIGroup.Name := group; APIGroup.Versions := [];
            APIGroup.PreferredVersion := discoveryVersion "" "" |};
       groupResource.APIGroupVersion := "";
       groupResource.APIResource := namespacedResource name kind;
       groupResource.Preferred := false |} in
  map (fun r => (groupName r, resourceName r))
      (sort.Stable (Less "")
         [resource "b-kind" "BKind" "foo"; resource "z-kind" "AKind" "foo";
          resource "m-kind" "CKind" "bar"])
  = [("bar", "m-kind"); ("foo", "b-kind"); ("foo", "z-kind")].
Proof. reflexivity. Qed.

(** [TestExcludeGroup]. *)
Example test_excludeGroup :
  excludeGroup appsGroup newAPIResourceVersionsOptions = false
  /\ excludeGroup appsGroup
       {| options.Output := ""; options.SortBy := ""; options.APIGroup := "nonexistent";
          options.Namespaced := true; options.Verbs := []; options.NoHeaders := false;
          options.Cached := false; options.Categories := []; options.Preferred := false;
          options.groupChanged := true; options.nsChanged := false;
          options.preferredChanged := false |} = true.
Proof. split; reflexivity. Qed.

(** * More properties of the command *)

(** ** Validation of the options *)

Lemma supported_output (output : string) :
  output ∈ (list_to_set [""; wideOutput; nameOutput] : gset string)
  <-> output = "" \/ output = wideOutput \/ output = nameOutput.
Proof. rewrite elem_of_list_to_set, !elem_of_cons, elem_of_nil. tauto. Qed.

Lemma supported_sort (sortBy : string) :
  sortBy ∈ (list_to_set [""; nameSortBy; kindSortBy] : gset string)
  <-> sortBy = "" \/ sortBy = nameSortBy \/ sortBy = kindSortBy.
Proof. rewrite elem_of_list_to_set, !elem_of_cons, elem_of_nil. tauto. Qed.

Lemma length_zero_empty (s : string) : (0 <? String.length s)%nat = false <-> s = "".
Proof. destruct s; cbn; split; congruence. Qed.

Lemma sentinels_differ : errWrongOutput <> errSortBy.
Proof. vm_compute. discriminate. Qed.

Lemma Is_notAvailable (sentinel target : error) (value : string) :
  (exists msg, sentinel = constError msg) ->
  (exists msg, target = constError msg) ->
  Is (notAvailable sentinel value) target <-> sentinel = target.
Proof.
  intros [msg ->] [msg' ->]. unfold notAvailable. cbn.
  split; [intros [H|[H|[]]]; [discriminate | exact H] | auto].
Qed.

(** [validate] accepts the options exactly when the output format is empty,
    ["wide"] or ["name"] and the sort key is empty, ["name"] or ["kind"].
    An error it returns wraps [errWrongOutput] when the output format is the
    one refused, and [errSortBy] only when the output format is accepted: the
    output format is checked first. *)
Theorem validate_spec (o : options.t) :
  (validate o = None
   <-> (options.Output o = "" \/ options.Output o = wideOutput
        \/ options.Output o = nameOutput)
       /\ (options.SortBy o = "" \/ options.SortBy o = nameSortBy
           \/ options.SortBy o = kindSortBy))
  /\ (forall err, validate o = Some err ->
        (Is err errWrongOutput
         <-> ~ (options.Output o = "" \/ options.Output o = wideOutput
                \/ options.Output o = nameOutput))
        /\ (Is err errSortBy
            <-> (options.Output o = "" \/ options.Output o = wideOutput
                 \/ options.Output o = nameOutput)
                /\ ~ (options.SortBy o = "" \/ options.SortBy o = nameSortBy
                      \/ options.SortBy o = kindSortBy))).
Proof.
  unfold validate. cbv zeta.
  destruct (bool_decide_reflect
              (options.Output o ∈ (list_to_set [""; wideOutput; nameOutput] : gset string)))
    as [Hout|Hout]; rewrite supported_output in Hout; cbn [negb].
  - destruct (0 <? String.length (options.SortBy o))%nat eqn:Hlen.
    + destruct (bool_decide_reflect
                  (options.SortBy o
                     ∈ (list_to_set [""; nameSortBy; kindSortBy] : gset string)))
        as [Hsort|Hsort]; rewrite supported_sort in Hsort; cbn [negb].
      * split; [tauto|]. intros err [=].
      * split; [split; [discriminate | tauto]|]. intros err [= <-].
        rewrite !Is_notAvailable by (eexists; reflexivity).
        pose proof sentinels_differ. intuition congruence.
    + apply length_zero_empty in Hlen.
      split; [tauto|]. intros err [=].
  - split; [split; [discriminate | tauto]|]. intros err [= <-].
    rewrite !Is_notAvailable by (eexists; reflexivity).
    pose proof sentinels_differ. intuition congruence.
Qed.

Lemma validate_spec_witness :
  Is (notAvailable errWrongOutput "invalid") errWrongOutput
  /\ ~ Is (notAvailable errWrongOutput "invalid") errSortBy.
Proof.
  destruct (proj2 (validate_spec (SetOutput newAPIResourceVersionsOptions "invalid"))
              (notAvailable errWrongOutput "invalid") eq_refl) as [Houtput Hsort].
  split.
  - apply Houtput. intros [H|[H|H]]; discriminate H.
  - intros H. apply Hsort in H as [[H|[H|H]] _]; discriminate H.
Defined.

(** ** Splitting names and group versions *)

Lemma hasSlash_cons (c : ascii) (s : string) :
  hasSlash (String c s) <-> c = "/"%char \/ hasSlash s.
Proof. unfold hasSlash. cbn. intuition congruence. Qed.

Lemma hasSlash_app (s1 s2 : string) :
  hasSlash (s1 +:+ s2) <-> hasSlash s1 \/ hasSlash s2.
Proof.
  induction s1 as [|c s1 IH].
  - cbn. unfold hasSlash at 2. cbn. tauto.
  - change (String c s1 +:+ s2) with (String c (s1 +:+ s2)).
    rewrite !hasSlash_cons, IH. tauto.
Qed.

Lemma CutByte_found (s : string) (sep : ascii) (before after : string) :
  strings.CutByte s sep = (before, Some after) ->
  s = before +:+ String sep after /\ ~ In sep (list_ascii_of_string before).
Proof.
  revert before. induction s as [|c s IH]; intros before; cbn [strings.CutByte].
  - discriminate.
  - destruct (Ascii.eqb_spec c sep) as [->|Hne].
    + intros [= <- <-]. cbn. auto.
    + destruct (strings.CutByte s sep) as [before' after'].
      intros [= <- ->]. destruct (IH before' eq_refl) as [-> Hnotin].
      split; [reflexivity|]. cbn. intros [Heq|Hin]; auto.
Qed.

Lemma CutByte_app (before after : string) (sep : ascii) :
  ~ In sep (list_ascii_of_string before) ->
  strings.CutByte (before +:+ String sep after) sep = (before, Some after).
Proof.
  induction before as [|c before IH]; intros Hnotin.
  - change ("" +:+ String sep after) with (String sep after).
    cbn [strings.CutByte]. rewrite Ascii.eqb_refl. reflexivity.
  - change (String c before +:+ String sep after)
      with (String c (before +:+ String sep after)).
    cbn [strings.CutByte]. cbn in Hnotin.
    destruct (Ascii.eqb_spec c sep) as [->|Hne]; [exfalso; auto|].
    rewrite IH by auto. reflexivity.
Qed.

(** A name without ['/'] splits into itself and no subresource; a name with
    one splits at the first ['/']: the base name has none, and the base
    name, a ['/'] and the subresource name make the name again, however many
    ['/'] the subresource name has. *)
Theorem splitResourceName_roundtrip (name : string) :
  match splitResourceName name with
  | (base, None) => base = name /\ ~ hasSlash name
  | (base, Some subresource) =>
      name = base +:+ "/" +:+ subresource /\ ~ hasSlash base /\ hasSlash name
  end.
Proof.
  pose proof (splitResourceName_None name) as Hnone.
  pose proof (splitResourceName_base name) as Hbase.
  pose proof (splitResourceName_fst name) as Hfst.
  pose proof (splitResourceName_snd name) as Hsnd.
  destruct (splitResourceName name) as [base [subresource|]]; cbn [fst snd] in *.
  - destruct (strings.CutByte name "/") as [before after] eqn:Hcut. cbn in Hfst, Hsnd.
    subst before after. apply CutByte_found in Hcut as [Hname Hbefore].
    split; [exact Hname|]. split; [exact Hbefore|].
    rewrite Hname. apply hasSlash_app. right. apply hasSlash_cons. auto.
  - split; [auto | apply Hnone; reflexivity].
Qed.

(** The other way round: a base name without ['/'] and a subresource name
    are found again by [splitResourceName]. *)
Theorem splitResourceName_join (base subresource : string) :
  ~ hasSlash base ->
  splitResourceName (base +:+ "/" +:+ subresource) = (base, Some subresource).
Proof.
  intros Hbase. unfold splitResourceName, strings.SplitN2.
  change (base +:+ "/" +:+ subresource) with (base +:+ String "/" subresource).
  rewrite CutByte_app by exact Hbase. reflexivity.
Qed.

Lemma splitResourceName_join_witness :
  splitResourceName ("pods" +:+ "/" +:+ "proxy/metrics") = ("pods", Some "proxy/metrics").
Proof. apply (splitResourceName_join "pods" "proxy/metrics"). exact not_hasSlash_pods. Defined.

Lemma CountByte_zero (s : string) (sep : ascii) :
  strings.CountByte s sep = 0 <-> ~ In sep (list_ascii_of_string s).
Proof.
  induction s as [|c s IH]; cbn [strings.CountByte list_ascii_of_string In].
  - tauto.
  - destruct (Ascii.eqb_spec c sep) as [->|Hne].
    + split; [discriminate | intros H; exfalso; auto].
    + cbn [Nat.add]. rewrite IH. tauto.
Qed.

Lemma CountByte_app (s1 s2 : string) (sep : ascii) :
  strings.CountByte (s1 +:+ s2) sep
  = strings.CountByte s1 sep + strings.CountByte s2 sep.
Proof.
  induction s1 as [|c s1 IH].
  - reflexivity.
  - change (String c s1 +:+ s2) with (String c (s1 +:+ s2)).
    cbn [strings.CountByte]. rewrite IH. lia.
Qed.

Lemma CountByte_joined (group version : string) :
  ~ hasSlash group -> ~ hasSlash version ->
  strings.CountByte (group +:+ String "/" version) "/" = 1.
Proof.
  intros Hg Hv. apply CountByte_zero in Hg, Hv.
  rewrite CountByte_app. cbn [strings.CountByte]. rewrite Ascii.eqb_refl. lia.
Qed.

Lemma length_app_slash (group version : string) :
  (String.length (group +:+ String "/" version) =? 0)%nat = false.
Proof. destruct group; reflexivity. Qed.

(** A group and a version without ['/'], joined by a ['/'], parse into the
    two again (the empty group and the empty version included). *)
Lemma ParseGroupVersion_joined (group version : string) :
  ~ hasSlash group -> ~ hasSlash version ->
  schema.ParseGroupVersion (group +:+ String "/" version)
  = ({| schema.GroupVersion.Group := group; schema.GroupVersion.Version := version |},
     None).
Proof.
  intros Hg Hv. unfold schema.ParseGroupVersion. rewrite length_app_slash.
  cbn [orb].
  destruct (String.eqb_spec (group +:+ String "/" version) "/") as [Heq|Hne].
  - destruct group as [|c group]; [|destruct group; discriminate Heq].
    injection Heq as ->. reflexivity.
  - rewrite (CountByte_joined group version Hg Hv), (CutByte_app group version "/" Hg).
    reflexivity.
Qed.

(** A version without ['/'] parses into itself in the core group. *)
Lemma ParseGroupVersion_core (version : string) :
  ~ hasSlash version ->
  schema.ParseGroupVersion version
  = ({| schema.GroupVersion.Group := ""; schema.GroupVersion.Version := version |}, None).
Proof.
  intros Hv. unfold schema.ParseGroupVersion.
  destruct version as [|c version]; [reflexivity|].
  cbn [String.length Nat.eqb orb].
  destruct (String.eqb_spec (String c version) "/") as [Heq|_].
  - exfalso. apply Hv. rewrite Heq. unfold hasSlash. cbn. auto.
  - apply CountByte_zero in Hv. rewrite Hv. reflexivity.
Qed.

(** [schema.ParseGroupVersion] after [schema.GroupVersion.String]. *)
Lemma ParseGroupVersion_String (group version : string) :
  ~ hasSlash group -> ~ hasSlash version ->
  schema.ParseGroupVersion
    (GroupVersionString
       {| schema.GroupVersion.Group := group; schema.GroupVersion.Version := version |})
  = ({| schema.GroupVersion.Group := group; schema.GroupVersion.Version := version |},
     None).
Proof.
  intros Hg Hv. unfold GroupVersionString. cbn [schema.GroupVersion.Group
    schema.GroupVersion.Version].
  destruct group as [|c group].
  - cbn. apply ParseGroupVersion_core. exact Hv.
  - cbn [String.length Nat.eqb negb].
    change (String c group +:+ "/" +:+ version)
      with (String c group +:+ String "/" version).
    apply ParseGroupVersion_joined; assumption.
Qed.

(** What a group-version string that parses looks like. *)
Lemma ParseGroupVersion_ok (gv : string) (parsed : schema.GroupVersion.t) :
  schema.ParseGroupVersion gv = (parsed, None) ->
  ~ hasSlash (schema.GroupVersion.Group parsed)
  /\ ~ hasSlash (schema.GroupVersion.Version parsed)
  /\ ((schema.GroupVersion.Group parsed = "" /\ gv = schema.GroupVersion.Version parsed)
      \/ gv = schema.GroupVersion.Group parsed
              +:+ String "/" (schema.GroupVersion.Version parsed)).
Proof.
  unfold schema.ParseGroupVersion.
  destruct (String.length gv =? 0)%nat eqn:Hlen.
  { destruct gv; [|discriminate]. cbn. intros [= <-]. cbn.
    unfold hasSlash. cbn. tauto. }
  cbn [orb]. destruct (String.eqb_spec gv "/") as [->|Hne].
  { intros [= <-]. cbn. unfold hasSlash. cbn. tauto. }
  destruct (strings.CountByte gv "/") as [|[|count]] eqn:Hcount.
  - intros [= <-]. cbn. apply CountByte_zero in Hcount. unfold hasSlash. cbn. tauto.
  - destruct (strings.CutByte gv "/") as [before [after|]] eqn:Hcut.
    + intros [= <-]. cbn. apply CutByte_found in Hcut as [-> Hbefore].
      rewrite CountByte_app in Hcount. cbn [strings.CountByte] in Hcount.
      rewrite Ascii.eqb_refl in Hcount.
      split; [exact Hbefore|]. split; [|auto].
      apply CountByte_zero. lia.
    + exfalso. pose proof (proj1 (CutByte_None gv "/")) as Hnone.
      rewrite Hcut in Hnone. apply CountByte_zero in Hnone; [lia | reflexivity].
  - discriminate.
Qed.

(** [schema.ParseGroupVersion] refuses exactly the strings with more than one
    ['/']. *)
Lemma ParseGroupVersion_fails (gv : string) :
  snd (schema.ParseGroupVersion gv) <> None <-> 2 <= strings.CountByte gv "/".
Proof.
  unfold schema.ParseGroupVersion.
  destruct (String.length gv =? 0)%nat eqn:Hlen.
  { destruct gv; [|discriminate]. cbn. split; [congruence | lia]. }
  cbn [orb]. destruct (String.eqb_spec gv "/") as [->|Hne].
  { cbn. split; [congruence | lia]. }
  destruct (strings.CountByte gv "/") as [|[|count]]; cbn.
  - split; [congruence | lia].
  - destruct (strings.CutByte gv "/"). cbn. split; [congruence | lia].
  - split; [lia | discriminate].
Qed.

(** [fullname] returns exactly when the group-version string of the record
    is that of its group's name and some version, neither with a ['/'] (or,
    for the core group, a ['/'] followed by the version), and what it then
    returns is the resource name, the version and the group name, dotted.  On
    every other record it panics. *)
Theorem fullname_returns (r : groupResource.t) (name : string) :
  fullname r = Return name
  <-> exists version,
        ~ hasSlash (groupName r) /\ ~ hasSlash version
        /\ (groupResource.APIGroupVersion r
            = GroupVersionString
                {| schema.GroupVersion.Group := groupName r;
                   schema.GroupVersion.Version := version |}
            \/ (groupName r = ""
                /\ groupResource.APIGroupVersion r = "/" +:+ version))
        /\ name = resourceName r +:+ "." +:+ version +:+ "." +:+ groupName r.
Proof.
  unfold fullname. fold (groupName r). fold (resourceName r). split.
  - destruct (schema.ParseGroupVersion (groupResource.APIGroupVersion r))
      as [parsed [err|]] eqn:Hparse; [discriminate|].
    destruct (String.eqb_spec (schema.GroupVersion.Group parsed) (groupName r))
      as [Hgroup|Hgroup]; [|discriminate].
    cbn [negb]. intros [= <-].
    apply ParseGroupVersion_ok in Hparse as (Hg & Hv & Hshape).
    exists (schema.GroupVersion.Version parsed). rewrite <- Hgroup.
    split; [exact Hg|]. split; [exact Hv|]. split; [|reflexivity].
    unfold GroupVersionString. cbn [schema.GroupVersion.Group schema.GroupVersion.Version].
    destruct Hshape as [[Hcore Hgv] | Hgv]; rewrite Hgv.
    + left. rewrite Hcore. reflexivity.
    + destruct (schema.GroupVersion.Group parsed) as [|c group]; [right|left]; auto.
  - intros (version & Hg & Hv & Hshape & ->).
    assert (schema.ParseGroupVersion (groupResource.APIGroupVersion r)
            = ({| schema.GroupVersion.Group := groupName r;
                  schema.GroupVersion.Version := version |}, None)) as ->.
    { destruct Hshape as [->|[Hcore ->]].
      - apply ParseGroupVersion_String; assumption.
      - rewrite Hcore in *. apply (ParseGroupVersion_joined "" version); assumption. }
    cbn. rewrite String.eqb_refl. reflexivity.
Qed.

(** ** The filters, on the records returned *)

Lemma HasAll_spec (items wanted : list string) :
  HasAll items wanted = true <-> forall item, In item wanted -> In item items.
Proof.
  unfold HasAll. rewrite forallb_forall. split; intros Hall item Hin.
  - specialize (Hall item Hin). apply bool_decide_eq_true in Hall.
    apply elem_of_list_to_set in Hall. apply list_elem_of_In. exact Hall.
  - apply bool_decide_eq_true, elem_of_list_to_set, list_elem_of_In. auto.
Qed.

Lemma wanted_spec (items wanted : list string) :
  negb (length wanted =? 0)%nat && negb (HasAll items wanted) = false
  <-> forall item, In item wanted -> In item items.
Proof.
  rewrite <- HasAll_spec. destruct wanted as [|w wanted]; cbn [length Nat.eqb negb andb].
  - split; [reflexivity | reflexivity].
  - destruct (HasAll items (w :: wanted)); cbn; split; congruence.
Qed.

Lemma excludeGroup_false (group : APIGroup.t) (o : options.t) :
  excludeGroup group o = false
  <-> (options.groupChanged o = true -> APIGroup.Name group = options.APIGroup o).
Proof.
  unfold excludeGroup. destruct (options.groupChanged o); cbn [andb].
  - destruct (String.eqb_spec (options.APIGroup o) (APIGroup.Name group)) as [Heq|Hne];
      cbn.
    + split; auto.
    + split; [discriminate|]. intros Hname. exfalso. apply Hne. symmetry. auto.
  - split; [discriminate | reflexivity].
Qed.

Lemma excludeGroupResource_false (r : groupResource.t) (o : options.t) :
  excludeGroupResource r o = false
  <-> ~ hasSlash (resourceName r)
      /\ (options.nsChanged o = true ->
          APIResource.Namespaced (groupResource.APIResource r) = options.Namespaced o)
      /\ (forall verb, In verb (options.Verbs o) ->
            In verb (APIResource.Verbs (groupResource.APIResource r)))
      /\ (forall category, In category (options.Categories o) ->
            In category (APIResource.Categories (groupResource.APIResource r)))
      /\ (options.preferredChanged o = true ->
          groupResource.Preferred r = options.Preferred o).
Proof.
  unfold excludeGroupResource, resourceName. cbv zeta.
  rewrite <- Contains_slash_false, <- !wanted_spec.
  destruct (strings.Contains _ "/"); [intuition discriminate|].
  destruct (options.nsChanged o); cbn [andb].
  - destruct (options.Namespaced o), (APIResource.Namespaced (groupResource.APIResource r));
      cbn [Bool.eqb negb]; try (intuition discriminate);
      destruct (negb (length (options.Verbs o) =? 0)%nat && _);
      try (intuition discriminate);
      destruct (negb (length (options.Categories o) =? 0)%nat && _);
      try (intuition discriminate);
      destruct (options.preferredChanged o); cbn [andb]; try tauto;
      destruct (options.Preferred o), (groupResource.Preferred r); cbn;
      intuition discriminate.
  - destruct (negb (length (options.Verbs o) =? 0)%nat && _);
      try (intuition discriminate);
      destruct (negb (length (options.Categories o) =? 0)%nat && _);
      try (intuition discriminate);
      destruct (options.preferredChanged o); cbn [andb]; try tauto;
      destruct (options.Preferred o), (groupResource.Preferred r); cbn;
      intuition discriminate.
Qed.

(** Every record the enumeration returns passes every filter that was set:
    its name has no ['/']; with [--api-group] it belongs to that group; with
    [--namespaced] its scope is the one asked for; it supports every verb and
    belongs to every category asked for; with [--preferred] its preferred
    flag is the one asked for. *)
Theorem getGroupResources_filtered `{CachedDiscoveryInterface T} (o : options.t)
    (discoveryClient : T) (r : groupResource.t) :
  In r (fst (getGroupResources o discoveryClient)) ->
  ~ hasSlash (resourceName r)
  /\ (options.groupChanged o = true -> groupName r = options.APIGroup o)
  /\ (options.nsChanged o = true ->
      APIResource.Namespaced (groupResource.APIResource r) = options.Namespaced o)
  /\ (forall verb, In verb (options.Verbs o) ->
        In verb (APIResource.Verbs (groupResource.APIResource r)))
  /\ (forall category, In category (options.Categories o) ->
        In category (APIResource.Categories (groupResource.APIResource r)))
  /\ (options.preferredChanged o = true ->
      groupResource.Preferred r = options.Preferred o).
Proof.
  intros Hin.
  destruct (getGroupResources_members o discoveryClient r Hin)
    as (group & version & _ & listed & _ & Hgroup & _ & _ & _ & Hrec & _ & Hkeep).
  destruct (proj1 (excludeGroupResource_false r o) Hkeep)
    as (Hslash & Hns & Hverbs & Hcat & Hpref).
  pose proof (proj1 (excludeGroup_false group o) Hgroup) as Hname.
  split; [exact Hslash|]. split; [|auto]. subst r. exact Hname.
Qed.

Lemma getGroupResources_filtered_witness :
  ~ hasSlash (resourceName deploymentsV1)
  /\ (options.groupChanged (SetPreferred newAPIResourceVersionsOptions true) = true ->
      groupName deploymentsV1
      = options.APIGroup (SetPreferred newAPIResourceVersionsOptions true))
  /\ (options.nsChanged (SetPreferred newAPIResourceVersionsOptions true) = true ->
      APIResource.Namespaced (groupResource.APIResource deploymentsV1)
      = options.Namespaced (SetPreferred newAPIResourceVersionsOptions true))
  /\ (forall verb,
        In verb (options.Verbs (SetPreferred newAPIResourceVersionsOptions true)) ->
        In verb (APIResource.Verbs (groupResource.APIResource deploymentsV1)))
  /\ (forall category,
        In category (options.Categories (SetPreferred newAPIResourceVersionsOptions true)) ->
        In category (APIResource.Categories (groupResource.APIResource deploymentsV1)))
  /\ (options.preferredChanged (SetPreferred newAPIResourceVersionsOptions true) = true ->
      groupResource.Preferred deploymentsV1
      = options.Preferred (SetPreferred newAPIResourceVersionsOptions true)).
Proof.
  apply (getGroupResources_filtered (SetPreferred newAPIResourceVersionsOptions true)
           appsClient deploymentsV1).
  vm_compute. left. reflexivity.
Defined.

(** ** The enumeration in discovery order *)

Section DiscoveryOrder.

Context `{CachedDiscoveryInterface T}.
Variables (o : options.t) (discoveryClient : T).
Variable preferredResources : gmap string string.

Lemma recordOf_slash_excluded group version listed :
  snd (splitResourceName (APIResource.Name listed)) <> None ->
  excludeGroupResource (recordOf preferredResources group version listed) o = true.
Proof.
  intros Hsub. unfold excludeGroupResource. cbn.
  assert (strings.Contains (APIResource.Name listed) "/" = true) as ->; [|reflexivity].
  apply Contains_slash.
  destruct (strings.Contains (APIResource.Name listed) "/") eqn:Hc;
    [apply Contains_slash; exact Hc|].
  exfalso. apply Hsub, splitResourceName_None, Contains_slash_false. exact Hc.
Qed.

Lemma processResources_candidates group version apiResources resources :
  processResources o group version preferredResources apiResources resources
  = resources ++ candidates o preferredResources group version apiResources.
Proof.
  unfold candidates. revert resources.
  induction apiResources as [|apiResource rest IH]; intros resources;
    cbn [processResources map List.filter].
  - rewrite app_nil_r. reflexivity.
  - rewrite unversionedResourceName_spec.
    cbn [APIResource.setGroup APIResource.Name APIResource.Group].
    destruct (snd (splitResourceName (APIResource.Name apiResource))) eqn:Hsub.
    + rewrite recordOf_slash_excluded by congruence. cbn [negb]. apply IH.
    + match goal with
      | |- context [excludeGroupResource ?rec o] =>
          change rec with (recordOf preferredResources group version apiResource)
      end.
      destruct (excludeGroupResource
                  (recordOf preferredResources group version apiResource) o);
        cbn [negb]; rewrite IH; [reflexivity|].
      rewrite <- app_assoc. reflexivity.
Qed.

Lemma processVersions_ok group versions resources :
  (forall version, In version versions ->
     snd (ServerResourcesForGroupVersion discoveryClient
            (GroupVersionForDiscovery.GroupVersion version)) = None) ->
  processVersions o discoveryClient group preferredResources versions resources
  = (resources
     ++ flat_map
          (fun version =>
             candidates o preferredResources group version
               (APIResourceList.APIResources
                  (fst (ServerResourcesForGroupVersion discoveryClient
                          (GroupVersionForDiscovery.GroupVersion version)))))
          versions,
     None).
Proof.
  revert resources.
  induction versions as [|version rest IH]; intros resources Hall;
    cbn [processVersions flat_map].
  - rewrite app_nil_r. reflexivity.
  - pose proof (Hall version (in_eq _ _)) as Hhead.
    destruct (ServerResourcesForGroupVersion discoveryClient
                (GroupVersionForDiscovery.GroupVersion version))
      as [resourceList [err|]]; [discriminate|].
    rewrite IH by (intros v Hv; apply Hall; right; exact Hv).
    rewrite processResources_candidates, <- app_assoc. reflexivity.
Qed.

Lemma processGroups_ok groups resources :
  (forall group version,
     In group groups -> excludeGroup group o = false ->
     In version (APIGroup.Versions group) ->
     snd (ServerResourcesForGroupVersion discoveryClient
            (GroupVersionForDiscovery.GroupVersion version)) = None) ->
  processGroups o discoveryClient preferredResources groups resources
  = (resources ++ discoveryOrder o discoveryClient preferredResources groups, None).
Proof.
  unfold discoveryOrder. revert resources.
  induction groups as [|group rest IH]; intros resources Hall;
    cbn [processGroups List.filter flat_map].
  - rewrite app_nil_r. reflexivity.
  - destruct (excludeGroup group o) eqn:Hex; cbn [negb].
    + apply IH. intros g v Hg. apply Hall. right. exact Hg.
    + unfold processGroupResources.
      rewrite processVersions_ok by (intros v Hv; apply (Hall group v); auto using in_eq).
      cbn [app flat_map].
      rewrite IH by (intros g v Hg; apply Hall; right; exact Hg).
      rewrite <- app_assoc. reflexivity.
Qed.

End DiscoveryOrder.

(** When the groups and the preferred-version index were obtained and every
    listing of a version of a group that the group filter lets through
    succeeds, the enumeration returns exactly the records that the resource
    filter lets through, in discovery order: group by group, version by
    version, descriptor by descriptor.  The listings of the groups that the
    filter excludes are never asked for, so their failures do not matter. *)
Theorem getGroupResources_discoveryOrder `{CachedDiscoveryInterface T} (o : options.t)
    (discoveryClient : T) (groupList : APIGroupList.t) (index : gmap string string) :
  ServerGroups (invalidateUnlessCached o discoveryClient) = (groupList, None) ->
  getPreferredResourceVersions (invalidateUnlessCached o discoveryClient) = (index, None) ->
  (forall group version,
     In group (APIGroupList.Groups groupList) -> excludeGroup group o = false ->
     In version (APIGroup.Versions group) ->
     snd (ServerResourcesForGroupVersion (invalidateUnlessCached o discoveryClient)
            (GroupVersionForDiscovery.GroupVersion version)) = None) ->
  getGroupResources o discoveryClient
  = (discoveryOrder o (invalidateUnlessCached o discoveryClient) index
       (APIGroupList.Groups groupList), None).
Proof.
  intros Hgroups Hindex Hall. unfold getGroupResources. cbv zeta.
  rewrite Hgroups, Hindex. rewrite processGroups_ok by exact Hall. reflexivity.
Qed.

Lemma getGroupResources_discoveryOrder_witness :
  getGroupResources (SetAPIGroup newAPIResourceVersionsOptions "") coreOnlyClient
  = (discoveryOrder (SetAPIGroup newAPIResourceVersionsOptions "")
       (invalidateUnlessCached (SetAPIGroup newAPIResourceVersionsOptions "") coreOnlyClient)
       {[ "pods." := "v1" ]}
       (APIGroupList.Groups {| APIGroupList.Groups := [appsGroup; coreGroup] |}), None).
Proof.
  apply (getGroupResources_discoveryOrder (SetAPIGroup newAPIResourceVersionsOptions "")
           coreOnlyClient {| APIGroupList.Groups := [appsGroup; coreGroup] |}
           {[ "pods." := "v1" ]}).
  - reflexivity.
  - vm_compute. reflexivity.
  - intros group version [<-|[<-|[]]] Hex; [discriminate Hex|].
    intros [<-|[]]. reflexivity.
Defined.

(** ** The errors of the enumeration *)

Lemma Is_refl (err : error) : Is err err.
Proof. destruct err; cbn; auto. Qed.

Lemma Is_wrapped (context : string) (err target : error) :
  Is err target -> Is (Errorf_w context err) target.
Proof. intros His. unfold Errorf_w. cbn. auto. Qed.

(** The loop over the summary either stops at a group version that does not
    parse, or returns no error. *)
Lemma indexResourceLists_result (summary : list APIResourceList.t)
    (preferredVersions : gmap string string) :
  (exists resourceList cause,
      In resourceList summary
      /\ snd (schema.ParseGroupVersion (APIResourceList.GroupVersion resourceList))
         = Some cause
      /\ indexResourceLists summary preferredVersions
         = (∅, Some (Errorf_w ("couldn't parse group version "
                                +:+ APIResourceList.GroupVersion resourceList) cause)))
  \/ snd (indexResourceLists summary preferredVersions) = None.
Proof.
  revert preferredVersions.
  induction summary as [|resourceList rest IH]; intros preferredVersions;
    cbn [indexResourceLists].
  - right. reflexivity.
  - destruct (schema.ParseGroupVersion (APIResourceList.GroupVersion resourceList))
      as [groupVersion [err|]] eqn:Hparse.
    + left. exists resourceList, err. rewrite Hparse. auto using in_eq.
    + destruct (IH (indexResources (schema.GroupVersion.Group groupVersion)
                      (schema.GroupVersion.Version groupVersion)
                      (APIResourceList.APIResources resourceList) preferredVersions))
        as [(rl & cause & Hrl & Hcause & Hresult)|Hnone]; [left | right; exact Hnone].
      exists rl, cause. auto using in_cons.
Qed.

(** An error of the enumeration comes with no resources, and it wraps the
    error of the step that failed, the steps being tried in this order: the
    listing of the groups; the listing of the preferred resources; the
    parsing of a group-version string of that listing; the listing of the
    resources of a version of a group that the group filter lets through.
    The message names each step before the message of the cause. *)
Theorem getGroupResources_error_cause `{CachedDiscoveryInterface T} (o : options.t)
    (discoveryClient : T) (err : error) :
  snd (getGroupResources o discoveryClient) = Some err ->
  fst (getGroupResources o discoveryClient) = []
  /\ exists cause,
       Is err cause
       /\ ((snd (ServerGroups (invalidateUnlessCached o discoveryClient)) = Some cause
            /\ Error err = "couldn't get server groups" +:+ ": " +:+ Error cause)
           \/ (snd (ServerGroups (invalidateUnlessCached o discoveryClient)) = None
               /\ snd (ServerPreferredResources (invalidateUnlessCached o discoveryClient))
                  = Some cause
               /\ Error err
                  = "couldn't get preferred resource versions" +:+ ": "
                    +:+ ("couldn't get server preferred resources" +:+ ": "
                         +:+ Error cause))
           \/ (snd (ServerGroups (invalidateUnlessCached o discoveryClient)) = None
               /\ snd (ServerPreferredResources (invalidateUnlessCached o discoveryClient))
                  = None
               /\ exists resourceList,
                    In resourceList
                       (fst (ServerPreferredResources
                               (invalidateUnlessCached o discoveryClient)))
                    /\ snd (schema.ParseGroupVersion
                              (APIResourceList.GroupVersion resourceList)) = Some cause
                    /\ Error err
                       = "couldn't get preferred resource versions" +:+ ": "
                         +:+ (("couldn't parse group version "
                               +:+ APIResourceList.GroupVersion resourceList)
                              +:+ ": " +:+ Error cause))
           \/ (snd (ServerGroups (invalidateUnlessCached o discoveryClient)) = None
               /\ snd (getPreferredResourceVersions
                         (invalidateUnlessCached o discoveryClient)) = None
               /\ exists group version,
                    In group (APIGroupList.Groups
                                (fst (ServerGroups
                                        (invalidateUnlessCached o discoveryClient))))
                    /\ excludeGroup group o = false
                    /\ In version (APIGroup.Versions group)
                    /\ snd (ServerResourcesForGroupVersion
                              (invalidateUnlessCached o discoveryClient)
                              (GroupVersionForDiscovery.GroupVersion version))
                       = Some cause
                    /\ Error err
                       = ("couldn't get server resources for group version "
                          +:+ GroupVersionForDiscovery.GroupVersion version)
                         +:+ ": " +:+ Error cause)).
Proof.
  unfold getGroupResources. cbv zeta.
  set (client := invalidateUnlessCached o discoveryClient).
  destruct (ServerGroups client) as [groupList [e|]] eqn:Hgroups.
  { cbn. intros [= <-]. split; [reflexivity|]. exists e.
    split; [apply Is_wrapped, Is_refl|]. left. auto. }
  unfold getPreferredResourceVersions.
  destruct (ServerPreferredResources client) as [summary [e|]] eqn:Hsummary.
  { cbn. intros [= <-]. split; [reflexivity|]. exists e.
    split; [apply Is_wrapped, Is_wrapped, Is_refl|]. right. left. auto. }
  destruct (indexResourceLists_result summary ∅)
    as [(rl & cause & Hrl & Hcause & Hresult)|Hnone].
  { rewrite Hresult. cbn. intros [= <-]. split; [reflexivity|]. exists cause.
    split; [apply Is_wrapped, Is_wrapped, Is_refl|]. right. right. left.
    repeat split; try reflexivity. exists rl. auto. }
  destruct (indexResourceLists summary ∅) as [index [e|]] eqn:Hindex;
    [discriminate Hnone|].
  destruct (processGroups_result o client index (APIGroupList.Groups groupList) [])
    as [(g & v & cause & Hg & Hex & Hv & Hcause & Hresult)|[Hok _]].
  - rewrite Hresult. cbn. intros [= <-]. split; [reflexivity|]. exists cause.
    split; [right; apply Is_refl|]. right. right. right.
    repeat split; try reflexivity. exists g, v. auto 6.
  - rewrite Hok. discriminate.
Qed.

Lemma getGroupResources_error_cause_witness :
  fst (getGroupResources newAPIResourceVersionsOptions brokenSummaryClient) = []
  /\ exists cause,
       Is (wrapError
             "couldn't get preferred resource versions: couldn't parse group version apps/v1/beta: unexpected GroupVersion string: apps/v1/beta"
             (wrapError
                "couldn't parse group version apps/v1/beta: unexpected GroupVersion string: apps/v1/beta"
                (errorString "unexpected GroupVersion string: apps/v1/beta")))
          cause
       /\ cause = errorString "unexpected GroupVersion string: apps/v1/beta".
Proof.
  destruct (getGroupResources_error_cause newAPIResourceVersionsOptions
              brokenSummaryClient
              (wrapError
                 "couldn't get preferred resource versions: couldn't parse group version apps/v1/beta: unexpected GroupVersion string: apps/v1/beta"
                 (wrapError
                    "couldn't parse group version apps/v1/beta: unexpected GroupVersion string: apps/v1/beta"
                    (errorString "unexpected GroupVersion string: apps/v1/beta"))))
    as (Hnone & cause & His & Hstep).
  - reflexivity.
  - split; [exact Hnone|]. exists cause. split; [exact His|].
    destruct Hstep as [[Hgroups _]|[(_ & Hsummary & _)|[(_ & _ & rl & Hrl & Hcause & _)
                                                        |(_ & Hindex & _)]]].
    + discriminate Hgroups.
    + discriminate Hsummary.
    + destruct Hrl as [<-|[<-|[]]]; vm_compute in Hcause; congruence.
    + discriminate Hindex.
Defined.

(** ** [sort.Stable] leaves a sorted list as it is *)

Section StableSorted.

Context {A : Type} (less : A -> A -> bool).

Lemma ascending_app (l1 l2 : list A) :
  ascending less (l1 ++ l2) ->
  ascending less l1 /\ ascending less l2
  /\ forall a b, In a l1 -> In b l2 -> less b a = false.
Proof.
  unfold ascending. rewrite StronglySorted_app. intros (Hcross & H1 & H2).
  split; [exact H1|]. split; [exact H2|].
  intros a b Ha Hb. apply Hcross; apply list_elem_of_In; assumption.
Qed.

Lemma sinkAll_sorted (block revPrefix : list A) :
  ascending less (rev revPrefix ++ block) ->
  sinkAll less block revPrefix = rev block ++ revPrefix.
Proof.
  revert revPrefix. induction block as [|x block IH]; intros revPrefix Hsorted;
    cbn [sinkAll fold_left rev]; [reflexivity|].
  fold (sinkAll less block (sort.sink less x revPrefix)).
  assert (sort.sink less x revPrefix = x :: revPrefix) as ->.
  { destruct revPrefix as [|y rest]; [reflexivity|]. cbn [sort.sink].
    apply ascending_app in Hsorted as (_ & _ & Hcross).
    rewrite (Hcross y x); [reflexivity | | left; reflexivity].
    cbn [rev]. apply in_or_app. right. left. reflexivity. }
  rewrite IH; [rewrite <- app_assoc; reflexivity|].
  cbn [rev]. rewrite <- app_assoc. exact Hsorted.
Qed.

Lemma insertionSort_sorted (block : list A) :
  ascending less block -> sort.insertionSort less block = block.
Proof.
  intros Hsorted. unfold sort.insertionSort. fold (sinkAll less block []).
  rewrite sinkAll_sorted by exact Hsorted. rewrite app_nil_r. apply rev_involutive.
Qed.

Lemma merge_sorted (run1 run2 : list A) :
  ascending less (run1 ++ run2) -> sort.merge less run1 run2 = run1 ++ run2.
Proof.
  revert run2. induction run1 as [|x run1 IH]; intros run2 Hsorted.
  - destruct run2; reflexivity.
  - destruct run2 as [|y run2].
    + rewrite app_nil_r. reflexivity.
    + change (sort.merge less (x :: run1) (y :: run2))
        with (if less y x then y :: sort.merge less (x :: run1) run2
              else x :: sort.merge less run1 (y :: run2)).
      pose proof (ascending_app _ _ Hsorted) as (_ & _ & Hcross).
      rewrite (Hcross x y) by (left; reflexivity).
      rewrite IH; [reflexivity|].
      apply (ascending_app [x] (run1 ++ y :: run2)). exact Hsorted.
Qed.

Lemma mergePairs_sorted (runs : list (list A)) :
  ascending less (concat runs) ->
  concat (sort.mergePairs less runs) = concat runs.
Proof.
  induction runs as [| |run1 run2 rest IH] using pair_induction;
    cbn [sort.mergePairs concat]; try reflexivity.
  intros Hsorted. rewrite app_assoc in Hsorted.
  apply ascending_app in Hsorted as (H12 & Hrest & _).
  rewrite (merge_sorted run1 run2 H12), (IH Hrest), <- app_assoc. reflexivity.
Qed.

Lemma mergePasses_sorted (passes : nat) (runs : list (list A)) :
  ascending less (concat runs) ->
  concat (sort.mergePasses less passes runs) = concat runs.
Proof.
  revert runs. induction passes as [|passes IH]; intros runs Hsorted;
    cbn [sort.mergePasses]; [reflexivity|].
  rewrite IH; rewrite mergePairs_sorted; auto.
Qed.

Lemma sortedBlocks_sorted (blocks : list (list A)) :
  ascending less (concat blocks) ->
  map (sort.insertionSort less) blocks = blocks.
Proof.
  induction blocks as [|block blocks IH]; cbn [map concat]; [reflexivity|].
  intros Hsorted. apply ascending_app in Hsorted as (Hblock & Hrest & _).
  rewrite (insertionSort_sorted block Hblock), (IH Hrest). reflexivity.
Qed.

Lemma Stable_sorted (data : list A) :
  ascending less data -> sort.Stable less data = data.
Proof.
  intros Hsorted. unfold sort.Stable. cbv zeta.
  assert (concat (sort.blocks sort.blockSize sort.blockSize [] data) = data) as Hconcat
    by apply blocks_concat.
  rewrite sortedBlocks_sorted by (rewrite Hconcat; exact Hsorted).
  rewrite mergePasses_sorted by (rewrite Hconcat; exact Hsorted).
  exact Hconcat.
Qed.

End StableSorted.

(** ** Sorting by name, by kind, and sorting twice *)

Lemma Less_name (lhs rhs : groupResource.t) :
  Less nameSortBy lhs rhs = String.ltb (resourceName lhs) (resourceName rhs).
Proof. reflexivity. Qed.

Lemma Less_kind (lhs rhs : groupResource.t) :
  Less kindSortBy lhs rhs = String.ltb (resourceKind lhs) (resourceKind rhs).
Proof. reflexivity. Qed.

Lemma Less_other (sortBy : string) (lhs rhs : groupResource.t) :
  sortBy <> nameSortBy -> sortBy <> kindSortBy ->
  Less sortBy lhs rhs = Less "" lhs rhs.
Proof.
  intros Hname Hkind. unfold Less.
  destruct (String.eqb_spec sortBy nameSortBy); [contradiction|].
  destruct (String.eqb_spec sortBy kindSortBy); [contradiction|]. reflexivity.
Qed.

(** Whatever the sort key, [Less] is a strict weak order. *)
Lemma Less_asym (sortBy : string) (x y : groupResource.t) :
  Less sortBy x y = true -> Less sortBy y x = false.
Proof.
  destruct (String.eqb_spec sortBy nameSortBy) as [->|Hname];
    [rewrite !Less_name; apply ltb_asym|].
  destruct (String.eqb_spec sortBy kindSortBy) as [->|Hkind];
    [rewrite !Less_kind; apply ltb_asym|].
  rewrite !(Less_other sortBy) by assumption. apply Less_default_asym.
Qed.

Lemma Less_negtrans (sortBy : string) (x y z : groupResource.t) :
  Less sortBy x z = true -> Less sortBy x y = true \/ Less sortBy y z = true.
Proof.
  destruct (String.eqb_spec sortBy nameSortBy) as [->|Hname];
    [rewrite !Less_name; apply ltb_negtrans|].
  destruct (String.eqb_spec sortBy kindSortBy) as [->|Hkind];
    [rewrite !Less_kind; apply ltb_negtrans|].
  rewrite !(Less_other sortBy) by assumption. apply Less_default_negtrans.
Qed.

Lemma notLess_ltb (a b : string) :
  String.ltb b a = false -> String.ltb a b = true \/ a = b.
Proof.
  intros Hnot. destruct (ltb_trichotomy a b) as [Hlt|[Heq|Hgt]]; [auto | auto | congruence].
Qed.

(** With the sort key ["name"] the records come in ascending order of their
    resource names, and the records of one resource name keep the order they
    had; with the sort key ["kind"] the same holds for the kinds.  In both
    cases the result is a rearrangement of the records. *)
Theorem keyed_sort_stable (resources : list groupResource.t) :
  (Permutation (sort.Stable (Less nameSortBy) resources) resources
   /\ StronglySorted
        (fun a b => String.ltb (resourceName a) (resourceName b) = true
                    \/ resourceName a = resourceName b)
        (sort.Stable (Less nameSortBy) resources)
   /\ forall name,
        List.filter (fun r => String.eqb (resourceName r) name)
          (sort.Stable (Less nameSortBy) resources)
        = List.filter (fun r => String.eqb (resourceName r) name) resources)
  /\ (Permutation (sort.Stable (Less kindSortBy) resources) resources
      /\ StronglySorted
           (fun a b => String.ltb (resourceKind a) (resourceKind b) = true
                       \/ resourceKind a = resourceKind b)
           (sort.Stable (Less kindSortBy) resources)
      /\ forall kind,
           List.filter (fun r => String.eqb (resourceKind r) kind)
             (sort.Stable (Less kindSortBy) resources)
           = List.filter (fun r => String.eqb (resourceKind r) kind) resources).
Proof.
  split; (split; [apply Stable_perm|]; split).
  - pose proof (Stable_ascending (Less nameSortBy) (Less_asym _) (Less_negtrans _)
                  resources) as Hsorted.
    unfold ascending in Hsorted.
    induction Hsorted as [|a l Hl IH Ha]; constructor; [exact IH|].
    eapply Forall_impl; [exact Ha|]. cbn. intros b. unfold notLess.
    rewrite Less_name. apply notLess_ltb.
  - intros name. apply (Stable_filter (Less nameSortBy) (Less_asym _) (Less_negtrans _)).
    intros a b Ha Hb. apply String.eqb_eq in Ha, Hb.
    rewrite Less_name, Ha, Hb. apply ltb_irrefl.
  - pose proof (Stable_ascending (Less kindSortBy) (Less_asym _) (Less_negtrans _)
                  resources) as Hsorted.
    unfold ascending in Hsorted.
    induction Hsorted as [|a l Hl IH Ha]; constructor; [exact IH|].
    eapply Forall_impl; [exact Ha|]. cbn. intros b. unfold notLess.
    rewrite Less_kind. apply notLess_ltb.
  - intros kind. apply (Stable_filter (Less kindSortBy) (Less_asym _) (Less_negtrans _)).
    intros a b Ha Hb. apply String.eqb_eq in Ha, Hb.
    rewrite Less_kind, Ha, Hb. apply ltb_irrefl.
Qed.

(** Sorting is idempotent, whatever the sort key: sorting the sorted records
    again changes nothing. *)
Theorem sort_idempotent (sortBy : string) (resources : list groupResource.t) :
  sort.Stable (Less sortBy) (sort.Stable (Less sortBy) resources)
  = sort.Stable (Less sortBy) resources.
Proof.
  apply Stable_sorted.
  apply (Stable_ascending (Less sortBy) (Less_asym sortBy) (Less_negtrans sortBy)).
Qed.

(** ** What is printed *)

Lemma printRow_table `{TabWriter W} (output : string) (writer : W)
    (resource : groupResource.t) :
  output <> nameOutput ->
  printRow output writer resource
  = (fst (Write writer (rowLine output resource)),
     Return (option_map (Errorf_w (rowContext output))
               (snd (Write writer (rowLine output resource))))).
Proof.
  intros Hname. unfold printRow, rowLine, rowContext.
  destruct (String.eqb_spec output nameOutput); [contradiction|].
  destruct (String.eqb output wideOutput).
  - unfold printGroupResourcesWide.
    destruct (Write writer _) as [w [err|]]; reflexivity.
  - unfold printGroupResourcesDefault.
    destruct (Write writer _) as [w [err|]]; reflexivity.
Qed.

Lemma printRows_buffer (output : string) (resources : list groupResource.t)
    (writer : Buffer.t) (errs : list error) :
  output <> nameOutput ->
  printRows output writer resources errs
  = ({| Buffer.written := Buffer.written writer ++ map (rowLine output) resources;
        Buffer.flushed := Buffer.flushed writer |}, Return errs).
Proof.
  intros Hname. revert writer.
  induction resources as [|resource rest IH]; intros writer; cbn [printRows map].
  - rewrite app_nil_r. destruct writer; reflexivity.
  - rewrite (printRow_table output writer resource Hname). cbn.
    rewrite IH. cbn. rewrite <- app_assoc. reflexivity.
Qed.

(** In the default and in the wide format, on a writer that does not fail,
    what is written is the header line, unless [--no-headers] was given, and
    then one line for each record, in the order of the sort; the writer is
    flushed and no error is returned. *)
Theorem printGroupResources_table (resources : list groupResource.t) (o : options.t) :
  options.Output o <> nameOutput ->
  printGroupResources resources o Buffer.new
  = ({| Buffer.written :=
          (if options.NoHeaders o then [] else [headerLine (options.Output o)])
          ++ map (rowLine (options.Output o))
               (sort.Stable (Less (options.SortBy o)) resources);
        Buffer.flushed := true |}, Return None).
Proof.
  intros Hname. unfold printGroupResources, printGroupResourcesBody.
  destruct (String.eqb_spec (options.Output o) nameOutput); [contradiction|].
  destruct (options.NoHeaders o); cbn [negb andb].
  - rewrite (printRows_buffer _ _ _ _ Hname). cbn.
    destruct (map _ _); reflexivity.
  - cbn. rewrite (printRows_buffer _ _ _ _ Hname). cbn. reflexivity.
Qed.

Lemma printGroupResources_table_witness :
  printGroupResources [deploymentsV1beta1; deploymentsV1] newAPIResourceVersionsOptions
    Buffer.new
  = ({| Buffer.written :=
          [headerLine ""]
          ++ map (rowLine "")
               (sort.Stable (Less "") [deploymentsV1beta1; deploymentsV1]);
        Buffer.flushed := true |}, Return None).
Proof.
  apply (printGroupResources_table [deploymentsV1beta1; deploymentsV1]
           newAPIResourceVersionsOptions).
  discriminate.
Defined.

Lemma printRows_names (before rest : list groupResource.t) (writer : Buffer.t)
    (errs : list error) :
  (forall r, In r before -> exists name, fullname r = Return name) ->
  printRows nameOutput writer (before ++ rest) errs
  = printRows nameOutput
      {| Buffer.written := Buffer.written writer ++ map nameLine before;
         Buffer.flushed := Buffer.flushed writer |} rest errs.
Proof.
  revert writer. induction before as [|resource before IH]; intros writer Hall.
  - cbn [app map]. rewrite app_nil_r. destruct writer; reflexivity.
  - cbn [app map printRows]. unfold printRow. cbn [nameOutput String.eqb].
    change (String.eqb "name" "name") with true. cbn match.
    unfold printGroupResourcesByName, nameLine.
    destruct (Hall resource (or_introl eq_refl)) as [name Hname]. rewrite Hname.
    cbn. rewrite IH by (intros r Hr; apply Hall; right; exact Hr).
    cbn. rewrite <- app_assoc. reflexivity.
Qed.

(** In the name format, when the full name of every record can be built, one
    line is written for each record, its full name, in the order of the sort,
    without a header line whatever [--no-headers] says; the writer is flushed
    and no error is returned. *)
Theorem printGroupResources_names (resources : list groupResource.t) (o : options.t) :
  options.Output o = nameOutput ->
  (forall r, In r resources -> exists name, fullname r = Return name) ->
  printGroupResources resources o Buffer.new
  = ({| Buffer.written :=
          map nameLine (sort.Stable (Less (options.SortBy o)) resources);
        Buffer.flushed := true |}, Return None).
Proof.
  intros Hname Hall. unfold printGroupResources, printGroupResourcesBody.
  rewrite Hname. change (String.eqb nameOutput nameOutput) with true.
  rewrite andb_false_r.
  pose proof (printRows_names (sort.Stable (Less (options.SortBy o)) resources) []
                Buffer.new []) as Hrows.
  rewrite app_nil_r in Hrows. rewrite Hrows.
  - reflexivity.
  - intros r Hr. apply Hall.
    eapply Permutation_in; [apply Stable_perm | exact Hr].
Qed.

Lemma printGroupResources_names_witness :
  printGroupResources [deploymentsV1beta1; deploymentsV1]
    (SetOutput newAPIResourceVersionsOptions nameOutput) Buffer.new
  = ({| Buffer.written :=
          map nameLine (sort.Stable (Less "") [deploymentsV1beta1; deploymentsV1]);
        Buffer.flushed := true |}, Return None).
Proof.
  apply (printGroupResources_names [deploymentsV1beta1; deploymentsV1]
           (SetOutput newAPIResourceVersionsOptions nameOutput)).
  - reflexivity.
  - intros r [<-|[<-|[]]]; eexists; vm_compute; reflexivity.
Defined.

(** In the name format, a record whose full name cannot be built stops the
    printing with a panic: the names of the records sorted before it have been
    written, those after it are not, and the writer is still flushed. *)
Theorem printGroupResources_names_panic (resources before after : list groupResource.t)
    (bad : groupResource.t) (msg : string) (o : options.t) :
  options.Output o = nameOutput ->
  sort.Stable (Less (options.SortBy o)) resources = before ++ bad :: after ->
  (forall r, In r before -> exists name, fullname r = Return name) ->
  fullname bad = Panic msg ->
  printGroupResources resources o Buffer.new
  = ({| Buffer.written := map nameLine before; Buffer.flushed := true |}, Panic msg).
Proof.
  intros Hname Hsorted Hbefore Hbad.
  unfold printGroupResources, printGroupResourcesBody.
  rewrite Hname. change (String.eqb nameOutput nameOutput) with true.
  rewrite andb_false_r. rewrite Hsorted.
  rewrite (printRows_names before (bad :: after) Buffer.new [] Hbefore).
  cbn [printRows]. unfold printRow.
  change (String.eqb nameOutput nameOutput) with true. cbn match.
  unfold printGroupResourcesByName. rewrite Hbad. reflexivity.
Qed.

Lemma printGroupResources_names_panic_witness :
  printGroupResources [deploymentsV1; malformedRecord; deploymentsV1beta1]
    (SetOutput newAPIResourceVersionsOptions nameOutput) Buffer.new
  = ({| Buffer.written := map nameLine [deploymentsV1]; Buffer.flushed := true |},
     Panic "error parsing group version: unexpected GroupVersion string: apps/v1/extra").
Proof.
  apply (printGroupResources_names_panic
           [deploymentsV1; malformedRecord; deploymentsV1beta1]
           [deploymentsV1] [deploymentsV1beta1] malformedRecord
           "error parsing group version: unexpected GroupVersion string: apps/v1/extra"
           (SetOutput newAPIResourceVersionsOptions nameOutput)).
  - reflexivity.
  - vm_compute. reflexivity.
  - intros r [<-|[]]; eexists; vm_compute; reflexivity.
  - vm_compute. reflexivity.
Defined.

(** ** Writes that fail *)






(** ** Full names on a consistent discovery *)

Lemma enumerated_fullname `{CachedDiscoveryInterface T} (o : options.t)
    (discoveryClient : T) (r : groupResource.t) :
  (forall group version,
     In group (APIGroupList.Groups
                 (fst (ServerGroups (invalidateUnlessCached o discoveryClient)))) ->
     In version (APIGroup.Versions group) -> consistentVersion group version) ->
  In r (fst (getGroupResources o discoveryClient)) ->
  exists version,
    In version (APIGroup.Versions (groupResource.APIGroup r))
    /\ groupResource.APIGroupVersion r = GroupVersionForDiscovery.GroupVersion version
    /\ fullname r
       = Return (resourceName r +:+ "." +:+ GroupVersionForDiscovery.Version version
                 +:+ "." +:+ groupName r).
Proof.
  intros Hconsistent Hin.
  destruct (getGroupResources_members o discoveryClient r Hin)
    as (group & version & resourceList & listed & Hgroup & _ & Hversion & _ & _
        & Hrec & _ & _).
  subst r. exists version. cbn [groupResource.APIGroup groupResource.APIGroupVersion recordOf].
  split; [exact Hversion|]. split; [reflexivity|].
  destruct (Hconsistent group version Hgroup Hversion) as (Hg & Hv & Hgv).
  unfold fullname, resourceName, groupName.
  cbn [groupResource.APIGroup groupResource.APIGroupVersion groupResource.APIResource
       recordOf].
  rewrite Hgv, (ParseGroupVersion_String _ _ Hg Hv).
  cbn [schema.GroupVersion.Group schema.GroupVersion.Version].
  rewrite String.eqb_refl. reflexivity.
Qed.

(** When every version entry of the discovery is consistent with its group,
    the full name of every enumerated record can be built: it is the name of
    the resource, the version of the entry the record was found under, and
    the name of the group. *)
Theorem fullname_consistent `{CachedDiscoveryInterface T} (o : options.t)
    (discoveryClient : T) (r : groupResource.t) :
  (forall group version,
     In group (APIGroupList.Groups
                 (fst (ServerGroups (invalidateUnlessCached o discoveryClient)))) ->
     In version (APIGroup.Versions group) -> consistentVersion group version) ->
  In r (fst (getGroupResources o discoveryClient)) ->
  exists version,
    In version (APIGroup.Versions (groupResource.APIGroup r))
    /\ groupResource.APIGroupVersion r = GroupVersionForDiscovery.GroupVersion version
    /\ fullname r
       = Return (resourceName r +:+ "." +:+ GroupVersionForDiscovery.Version version
                 +:+ "." +:+ groupName r).
Proof. apply enumerated_fullname. Qed.

Lemma appsClient_consistent (group : APIGroup.t) (version : GroupVersionForDiscovery.t) :
  In group (APIGroupList.Groups
              (fst (ServerGroups
                      (invalidateUnlessCached newAPIResourceVersionsOptions appsClient)))) ->
  In version (APIGroup.Versions group) -> consistentVersion group version.
Proof.
  intros Hgroup Hversion. cbn in Hgroup. destruct Hgroup as [<-|[]].
  cbn in Hversion. destruct Hversion as [<-|[<-|[]]];
    (split; [|split]; [ rewrite <- hasSlashb_spec; discriminate
                      | rewrite <- hasSlashb_spec; discriminate
                      | reflexivity ]).
Qed.

Lemma fullname_consistent_witness :
  exists version,
    In version (APIGroup.Versions (groupResource.APIGroup deploymentsV1beta1))
    /\ groupResource.APIGroupVersion deploymentsV1beta1
       = GroupVersionForDiscovery.GroupVersion version
    /\ fullname deploymentsV1beta1
       = Return (resourceName deploymentsV1beta1 +:+ "."
                 +:+ GroupVersionForDiscovery.Version version
                 +:+ "." +:+ groupName deploymentsV1beta1).
Proof.
  apply (fullname_consistent newAPIResourceVersionsOptions appsClient deploymentsV1beta1).
  - exact appsClient_consistent.
  - vm_compute. right. left. reflexivity.
Defined.

(** The whole command in the name format, on a discovery whose version
    entries are consistent with their groups and whose listing succeeds:
    nothing panics, no error is returned, not even when no resource is left,
    and the output is the full name of every enumerated record, one on a
    line, in the order of the sort. *)
Theorem runAPIResourceVersions_names `{CachedDiscoveryInterface T} (o : options.t)
    (discoveryClient : T) (resources : list groupResource.t) :
  options.Output o = nameOutput ->
  (forall group version,
     In group (APIGroupList.Groups
                 (fst (ServerGroups (invalidateUnlessCached o discoveryClient)))) ->
     In version (APIGroup.Versions group) -> consistentVersion group version) ->
  getGroupResources o discoveryClient = (resources, None) ->
  runAPIResourceVersions o discoveryClient Buffer.new
  = ({| Buffer.written :=
          map nameLine (sort.Stable (Less (options.SortBy o)) resources);
        Buffer.flushed := true |}, Return None)
  /\ forall r, In r resources -> exists name, fullname r = Return name.
Proof.
  intros Hname Hconsistent Hget.
  assert (forall r, In r resources -> exists name, fullname r = Return name) as Hall.
  { intros r Hr.
    destruct (enumerated_fullname o discoveryClient r Hconsistent) as (version & _ & _ & Hfull).
    - rewrite Hget. exact Hr.
    - eexists. exact Hfull. }
  split; [|exact Hall].
  unfold runAPIResourceVersions. rewrite Hget, Hname.
  change (String.eqb nameOutput nameOutput) with true. rewrite andb_false_r.
  unfold printGroupResources, printGroupResourcesBody.
  rewrite Hname. change (String.eqb nameOutput nameOutput) with true.
  rewrite andb_false_r.
  pose proof (printRows_names (sort.Stable (Less (options.SortBy o)) resources) []
                Buffer.new []) as Hrows.
  rewrite app_nil_r in Hrows. rewrite Hrows.
  - reflexivity.
  - intros r Hr. apply Hall.
    eapply Permutation_in; [apply Stable_perm | exact Hr].
Qed.

Lemma runAPIResourceVersions_names_witness :
  runAPIResourceVersions (SetOutput newAPIResourceVersionsOptions nameOutput) appsClient
    Buffer.new
  = ({| Buffer.written :=
          map nameLine (sort.Stable (Less "") [deploymentsV1; deploymentsV1beta1]);
        Buffer.flushed := true |}, Return None)
  /\ forall r, In r [deploymentsV1; deploymentsV1beta1] ->
       exists name, fullname r = Return name.
Proof.
  apply (runAPIResourceVersions_names (SetOutput newAPIResourceVersionsOptions nameOutput)
           appsClient [deploymentsV1; deploymentsV1beta1]).
  - reflexivity.
  - exact appsClient_consistent.
  - vm_compute. reflexivity.
Defined.

(** ** The earlier revision lists every group *)

Lemma legacy_processVersions_error `{CachedDiscoveryInterface T} (o o' : options.t)
    (discoveryClient : T) (group : APIGroup.t)
    (versions : list GroupVersionForDiscovery.t) :
  forall resources resources' : list Legacy.groupResource.t,
    snd (Legacy.processVersions o discoveryClient group versions resources)
    = snd (Legacy.processVersions o' discoveryClient group versions resources').
Proof.
  induction versions as [|version rest IH]; intros resources resources';
    cbn [Legacy.processVersions]; [reflexivity|].
  destruct (ServerResourcesForGroupVersion discoveryClient (Legacy.listedUnder group version))
    as [resourceList [err|]]; [reflexivity|]. apply IH.
Qed.

Lemma legacy_processGroups_error `{CachedDiscoveryInterface T} (o o' : options.t)
    (discoveryClient : T) (groups : list APIGroup.t) :
  forall resources resources' : list Legacy.groupResource.t,
    snd (Legacy.processGroups o discoveryClient groups resources)
    = snd (Legacy.processGroups o' discoveryClient groups resources').
Proof.
  induction groups as [|group rest IH]; intros resources resources';
    cbn [Legacy.processGroups]; [reflexivity|].
  pose proof (legacy_processVersions_error o o' discoveryClient group
                (APIGroup.Versions group) resources resources') as Hversions.
  destruct (Legacy.processVersions o discoveryClient group (APIGroup.Versions group)
              resources) as [done [err|]];
    destruct (Legacy.processVersions o' discoveryClient group (APIGroup.Versions group)
                resources') as [done' [err'|]]; cbn in Hversions;
    try discriminate.
  - cbn. exact Hversions.
  - apply IH.
Qed.

(** In the earlier revision the filters are applied to the records only: no
    group is skipped, so whether the enumeration fails, and with what error,
    is the same whatever is filtered, [--api-group] included, for two runs
    that agree on [--cached]. *)
Theorem legacy_error_whatever_filter `{CachedDiscoveryInterface T} (o o' : options.t)
    (discoveryClient : T) :
  options.Cached o = options.Cached o' ->
  snd (Legacy.getGroupResources o discoveryClient)
  = snd (Legacy.getGroupResources o' discoveryClient).
Proof.
  intros Hcached. unfold Legacy.getGroupResources. cbv zeta.
  assert (invalidateUnlessCached o discoveryClient
          = invalidateUnlessCached o' discoveryClient) as <-
    by (unfold invalidateUnlessCached; rewrite Hcached; reflexivity).
  destruct (ServerGroups (invalidateUnlessCached o discoveryClient))
    as [groupList [err|]]; [reflexivity|].
  apply legacy_processGroups_error.
Qed.

Lemma legacy_error_whatever_filter_witness :
  snd (Legacy.getGroupResources (SetAPIGroup newAPIResourceVersionsOptions "")
         coreOnlyClient)
  = snd (Legacy.getGroupResources newAPIResourceVersionsOptions coreOnlyClient).
Proof.
  apply (legacy_error_whatever_filter (SetAPIGroup newAPIResourceVersionsOptions "")
           newAPIResourceVersionsOptions coreOnlyClient).
  reflexivity.
Defined.

(** ** At most one preferred version of a resource *)





(** ** The iterator over the YAML documents *)

(** Ranging over [YAMLDocumentsToJSON] is ranging over the items of the
    stream, whatever the body of the loop does and wherever it breaks: the
    documents before the first failure to decode, each as its JSON bytes or
    as the error of [json.Marshal], and then that failure, after which no
    document is decoded. *)
Theorem YAMLDocumentsToJSON_range {doc S : Type}
    (Marshal : doc -> list Byte.byte * option error)
    (yamlStream : list (yamlutil.decoded doc))
    (yield : S -> yamlutil.YAMLToJSON -> S * bool) (s : S) :
  yamlutil.YAMLDocumentsToJSON Marshal yamlStream yield s
  = yamlutil.rangeOver (yamlutil.itemsOf Marshal yamlStream) yield s.
Proof.
  revert s. induction yamlStream as [|[document|err] rest IH]; intros s.
  - reflexivity.
  - cbn [yamlutil.YAMLDocumentsToJSON yamlutil.itemsOf yamlutil.rangeOver].
    unfold yamlutil.transcoded.
    destruct (Marshal document) as [jsonBytes [err|]];
      destruct (yield s _) as [s' more]; destruct more; cbn [negb];
      try reflexivity; apply IH.
  - cbn [yamlutil.YAMLDocumentsToJSON yamlutil.itemsOf].
    destruct (yamlutil.isEOF err); [reflexivity|].
    cbn [yamlutil.rangeOver]. destruct (yield s _) as [s' more].
    destruct more; reflexivity.
Qed.

Lemma keep_documents {doc : Type} (Marshal : doc -> list Byte.byte * option error)
    (documents : list doc) :
  forall (rest : list (yamlutil.decoded doc)) (items : list yamlutil.YAMLToJSON),
    yamlutil.YAMLDocumentsToJSON Marshal (map yamlutil.Document documents ++ rest)
      yamlutil.keep items
    = yamlutil.YAMLDocumentsToJSON Marshal rest yamlutil.keep
        (items ++ map (yamlutil.transcoded Marshal) documents).
Proof.
  induction documents as [|document documents IH]; intros rest items.
  - cbn. rewrite app_nil_r. reflexivity.
  - cbn [map app yamlutil.YAMLDocumentsToJSON].
    assert (forall item : yamlutil.YAMLToJSON,
              yamlutil.transcoded Marshal document = item ->
              yamlutil.YAMLDocumentsToJSON Marshal
                (map yamlutil.Document documents ++ rest) yamlutil.keep (items ++ [item])
              = yamlutil.YAMLDocumentsToJSON Marshal rest yamlutil.keep
                  (items ++ yamlutil.transcoded Marshal document
                         :: map (yamlutil.transcoded Marshal) documents)) as Hitem.
    { intros item <-. rewrite IH, <- app_assoc. reflexivity. }
    unfold yamlutil.transcoded in Hitem at 1.
    destruct (Marshal document) as [jsonBytes [err|]]; cbn [yamlutil.keep negb];
      apply Hitem; reflexivity.
Qed.

(** A loop that keeps every item gets one item for each document of a stream
    that ends without a failure, in order: its JSON bytes, or the error of
    [json.Marshal], which does not end the sequence.  A failure to decode
    ends it: the loop gets the items of the documents before the failure and
    then the failure, wrapped, and nothing of what follows in the stream. *)
Theorem YAMLDocumentsToJSON_kept {doc : Type}
    (Marshal : doc -> list Byte.byte * option error) (documents : list doc)
    (err : error) (rest : list (yamlutil.decoded doc)) :
  yamlutil.YAMLDocumentsToJSON Marshal (map yamlutil.Document documents) yamlutil.keep []
  = map (yamlutil.transcoded Marshal) documents
  /\ yamlutil.YAMLDocumentsToJSON Marshal
       (map yamlutil.Document documents ++ yamlutil.Failure err :: rest) yamlutil.keep []
     = map (yamlutil.transcoded Marshal) documents
       ++ (if yamlutil.isEOF err then []
           else [yamlutil.yamlToJSONErr
                   (wrapError ("failed to decode YAML document: " +:+ Error err) err)]).
Proof.
  split.
  - rewrite <- (app_nil_r (map yamlutil.Document documents)), keep_documents.
    reflexivity.
  - rewrite keep_documents. cbn [yamlutil.YAMLDocumentsToJSON app].
    destruct (yamlutil.isEOF err); [rewrite app_nil_r|]; reflexivity.
Qed.

(** ** The procedural discovery *)

Lemma list_ascii_of_string_app (a b : string) :
  list_ascii_of_string (a +:+ b) = list_ascii_of_string a ++ list_ascii_of_string b.
Proof.
  induction a as [|c a IH]; [reflexivity|].
  change (String c a +:+ b) with (String c (a +:+ b)). cbn. rewrite IH. reflexivity.
Qed.

Lemma string_of_uint_digits (d : Decimal.uint) (c : ascii) :
  In c (list_ascii_of_string (NilEmpty.string_of_uint d)) ->
  In c (list_ascii_of_string "0123456789").
Proof.
  induction d; cbn [NilEmpty.string_of_uint list_ascii_of_string In];
    try (intros [<-|Hin]; [cbn; tauto | exact (IHd Hin)]).
  intros [].
Qed.

Lemma Itoa_digits (i : Z) (c : ascii) :
  In c (list_ascii_of_string (discoverytesting.Itoa i)) -> In c (list_ascii_of_string "-0123456789").
Proof.
  unfold discoverytesting.Itoa. destruct (Z.to_int i) as [d|d]; cbn [NilZero.string_of_int].
  - unfold NilZero.string_of_uint. intros Hin. right.
    destruct d; try (apply (string_of_uint_digits _ _ Hin)).
    cbn in Hin. destruct Hin as [<-|[]]. cbn. tauto.
  - cbn [list_ascii_of_string In]. intros [<-|Hin]; [left; reflexivity|]. right.
    unfold NilZero.string_of_uint in Hin.
    destruct d; try (apply (string_of_uint_digits _ _ Hin)).
    cbn in Hin. destruct Hin as [<-|[]]. cbn. tauto.
Qed.

(** A name made of a word of letters and of a number has neither ['/'] nor
    ['.']. *)
Lemma numbered_plain (word : string) (i : Z) (c : ascii) :
  ~ In c (list_ascii_of_string word) ->
  ~ In c (list_ascii_of_string "-0123456789") ->
  ~ In c (list_ascii_of_string (word +:+ discoverytesting.Itoa i)).
Proof.
  intros Hword Hdigit. rewrite list_ascii_of_string_app, in_app_iff.
  intros [Hin|Hin]; [exact (Hword Hin) | exact (Hdigit (Itoa_digits _ _ Hin))].
Qed.

Lemma proceduralVersions_length (groupName : string) (j : nat) :
  length (discoverytesting.proceduralVersions groupName j) = j.
Proof. induction j as [|j IH]; cbn; [reflexivity | rewrite IH; reflexivity]. Qed.

Lemma proceduralVersions_members (groupName : string) (j : nat)
    (version : GroupVersionForDiscovery.t) :
  In version (discoverytesting.proceduralVersions groupName j) ->
  exists k, (0 < k <= Z.of_nat j)%Z /\ version = discoverytesting.proceduralVersion groupName k.
Proof.
  induction j as [|j IH]; cbn [discoverytesting.proceduralVersions In]; [intros []|].
  intros [<-|Hin].
  - exists (Z.of_nat (S j)). split; [lia | reflexivity].
  - destruct (IH Hin) as (k & Hk & ->). exists k. split; [lia | reflexivity].
Qed.

Lemma proceduralGroups_result (versionsPerGroup : Z) (indices : list nat) :
  forall groups : list APIGroup.t,
    discoverytesting.proceduralGroups indices versionsPerGroup groups
    = if (0 <? versionsPerGroup)%Z
      then Return (groups ++ map (discoverytesting.proceduralGroup versionsPerGroup) indices)
      else match indices with
           | [] => Return groups
           | _ => Panic "runtime error: index out of range [0] with length 0"
           end.
Proof.
  induction indices as [|i rest IH]; intros groups; cbn [discoverytesting.proceduralGroups map].
  - rewrite app_nil_r. destruct (0 <? versionsPerGroup)%Z; reflexivity.
  - destruct (Z.ltb_spec 0 versionsPerGroup) as [Hpos|Hneg].
    + destruct (Z.to_nat versionsPerGroup) as [|below] eqn:Hnat; [lia|].
      cbn [discoverytesting.proceduralVersions]. rewrite IH.
      destruct (Z.ltb_spec 0 versionsPerGroup); [|lia].
      rewrite <- app_assoc. cbn [app]. unfold discoverytesting.proceduralGroup at 2.
      cbv zeta. rewrite Hnat. cbn [discoverytesting.proceduralVersions].
      rewrite <- Hnat, Z2Nat.id by lia. reflexivity.
    + replace (Z.to_nat versionsPerGroup) with 0%nat by lia. reflexivity.
Qed.

Lemma proceduralResourceLists_result (resourcesPerVersion : Z) (groups : list APIGroup.t) :
  forall lists : list APIResourceList.t,
    discoverytesting.proceduralResourceLists groups resourcesPerVersion lists
    = if (resourcesPerVersion <? 0)%Z
      then match groups with
           | [] => Return lists
           | _ => Panic "runtime error: makeslice: cap out of range"
           end
      else Return (lists ++ flat_map (discoverytesting.proceduralListsOf resourcesPerVersion) groups).
Proof.
  induction groups as [|group rest IH]; intros lists;
    cbn [discoverytesting.proceduralResourceLists flat_map].
  - rewrite app_nil_r. destruct (resourcesPerVersion <? 0)%Z; reflexivity.
  - destruct (resourcesPerVersion <? 0)%Z eqn:Hneg; [reflexivity|].
    cbv zeta. rewrite IH, <- app_assoc. reflexivity.
Qed.

Lemma NewProcedural_result (fixtures : discoverytesting.Fixtures.t)
    (groups versionsPerGroup resourcesPerVersion : Z) :
  discoverytesting.NewProcedural fixtures groups versionsPerGroup resourcesPerVersion
  = if (groups <=? 0)%Z
    then Return (discoverytesting.proceduralClient fixtures groups versionsPerGroup resourcesPerVersion)
    else if (versionsPerGroup <=? 0)%Z
    then Panic "runtime error: index out of range [0] with length 0"
    else if (resourcesPerVersion <? 0)%Z
    then Panic "runtime error: makeslice: cap out of range"
    else Return (discoverytesting.proceduralClient fixtures groups versionsPerGroup resourcesPerVersion).
Proof.
  unfold discoverytesting.NewProcedural, discoverytesting.proceduralClient. cbv zeta.
  cbn [discoverytesting.NewFakeCachedDiscoveryClientBuilder discoverytesting.FakeCachedDiscoveryClientBuilder.Groups
       discoverytesting.FakeCachedDiscoveryClientBuilder.Resources
       discoverytesting.FakeCachedDiscoveryClientBuilder.PreferredResources app].
  rewrite proceduralGroups_result.
  destruct (Z.leb_spec groups 0) as [Hnone|Hsome].
  - replace (Z.to_nat groups) with 0%nat by lia. cbn [seq map app].
    destruct (0 <? versionsPerGroup)%Z; cbn [discoverytesting.proceduralResourceLists]; reflexivity.
  - destruct (Z.to_nat groups) as [|count] eqn:Hcount; [lia|].
    destruct (Z.leb_spec versionsPerGroup 0) as [Hv|Hv].
    + destruct (Z.ltb_spec 0 versionsPerGroup); [lia|]. reflexivity.
    + destruct (Z.ltb_spec 0 versionsPerGroup); [|lia].
      rewrite proceduralResourceLists_result.
      destruct (resourcesPerVersion <? 0)%Z; reflexivity.
Qed.

Lemma no_slash_numbered (word : string) (i : Z) :
  ~ hasSlash word -> ~ hasSlash (word +:+ discoverytesting.Itoa i).
Proof.
  intros Hword. apply numbered_plain; [exact Hword|].
  cbn. intuition discriminate.
Qed.

Lemma no_dot_numbered (word : string) (i : Z) :
  ~ hasDot word -> ~ hasDot (word +:+ discoverytesting.Itoa i).
Proof.
  intros Hword. apply numbered_plain; [exact Hword|].
  cbn. intuition discriminate.
Qed.

Lemma dot_split_unique (a b x y : string) :
  ~ hasDot a -> ~ hasDot b ->
  x +:+ "." +:+ y = a +:+ "." +:+ b -> x = a /\ y = b.
Proof.
  revert x. induction a as [|c a IH]; intros x Ha Hb Heq.
  - destruct x as [|c' x].
    + cbn in Heq. injection Heq as Heq. split; [reflexivity | exact Heq].
    + change (String c' (x +:+ "." +:+ y) = String "." b) in Heq.
      injection Heq as _ Heq. exfalso. apply Hb. rewrite <- Heq.
      unfold hasDot. rewrite list_ascii_of_string_app, in_app_iff. right. left.
      reflexivity.
  - destruct x as [|c' x].
    + change (String "." y = String c (a +:+ "." +:+ b)) in Heq.
      injection Heq as Hc _. exfalso. apply Ha. left. symmetry. exact Hc.
    + change (String c' (x +:+ "." +:+ y) = String c (a +:+ "." +:+ b)) in Heq.
      injection Heq as -> Heq.
      destruct (IH x) as [-> ->]; [|exact Hb|exact Heq|split; reflexivity].
      intros Hin. apply Ha. right. exact Hin.
Qed.

Lemma proceduralVersion_consistent (i : nat) (k : Z) (versionsPerGroup : Z) :
  consistentVersion (discoverytesting.proceduralGroup versionsPerGroup i)
    (discoverytesting.proceduralVersion (APIGroup.Name (discoverytesting.proceduralGroup versionsPerGroup i)) k).
Proof.
  unfold consistentVersion, discoverytesting.proceduralGroup, discoverytesting.proceduralVersion. cbv zeta.
  cbn [APIGroup.Name GroupVersionForDiscovery.Version
       GroupVersionForDiscovery.GroupVersion].
  split; [|split].
  - apply no_slash_numbered. unfold hasSlash. cbn. intuition discriminate.
  - apply no_slash_numbered. unfold hasSlash. cbn. intuition discriminate.
  - unfold GroupVersionString. cbn. reflexivity.
Qed.

Lemma proceduralClient_consistent (fixtures : discoverytesting.Fixtures.t)
    (groups versionsPerGroup resourcesPerVersion : Z)
    (group : APIGroup.t) (version : GroupVersionForDiscovery.t) :
  In group (FakeCachedDiscoveryClient.Groups
              (discoverytesting.proceduralClient fixtures groups versionsPerGroup resourcesPerVersion)) ->
  In version (APIGroup.Versions group) ->
  consistentVersion group version.
Proof.
  cbn [discoverytesting.proceduralClient FakeCachedDiscoveryClient.Groups]. cbv zeta.
  cbn [FakeCachedDiscoveryClient.Groups].
  intros Hgroup Hversion. apply in_map_iff in Hgroup as (i & <- & _).
  cbn [discoverytesting.proceduralGroup APIGroup.Versions] in Hversion.
  apply proceduralVersions_members in Hversion as (k & _ & ->).
  apply (proceduralVersion_consistent i k versionsPerGroup).
Qed.

Lemma fakeResourcesFor_first (generated others : list APIResourceList.t)
    (groupVersion : string) (apiResources : list APIResource.t) :
  (forall resourceList, In resourceList generated ->
     APIResourceList.APIResources resourceList = apiResources) ->
  (exists resourceList, In resourceList generated
     /\ APIResourceList.GroupVersion resourceList = groupVersion) ->
  exists resourceList,
    fakeResourcesFor (generated ++ others) groupVersion = (resourceList, None)
    /\ APIResourceList.APIResources resourceList = apiResources.
Proof.
  induction generated as [|first rest IH]; intros Hall (found & Hin & Hgv).
  - destruct Hin.
  - cbn [app fakeResourcesFor].
    destruct (String.eqb_spec (APIResourceList.GroupVersion first) groupVersion)
      as [Heq|Hne].
    + exists first. split; [reflexivity | apply Hall; left; reflexivity].
    + apply IH.
      * intros l Hl. apply Hall. right. exact Hl.
      * destruct Hin as [->|Hin]; [contradiction|]. exists found. auto.
Qed.

Lemma flat_map_length_each {A B : Type} (f : A -> list B) (l : list A) (n : nat) :
  (forall a, In a l -> length (f a) = n) -> length (flat_map f l) = (length l * n)%nat.
Proof.
  induction l as [|a l IH]; intros Hall; cbn [flat_map length]; [reflexivity|].
  rewrite length_app, (Hall a (or_introl eq_refl)), IH; [lia|].
  intros b Hb. apply Hall. right. exact Hb.
Qed.

Lemma filter_all {A : Type} (f : A -> bool) (l : list A) :
  (forall a, In a l -> f a = true) -> List.filter f l = l.
Proof.
  induction l as [|a l IH]; intros Hall; cbn [List.filter]; [reflexivity|].
  rewrite (Hall a (or_introl eq_refl)), IH; [reflexivity|].
  intros b Hb. apply Hall. right. exact Hb.
Qed.

Lemma indexResources_other (group version key : string)
    (apiResources : list APIResource.t) :
  (forall base, key <> base +:+ "." +:+ group) ->
  forall preferredVersions : gmap string string,
    indexResources group version apiResources preferredVersions !! key
    = preferredVersions !! key.
Proof.
  intros Hkey. induction apiResources as [|resource rest IH]; intros preferredVersions;
    cbn [indexResources]; [reflexivity|].
  cbv zeta. rewrite unversionedResourceName_spec.
  cbn [APIResource.setGroup APIResource.Name APIResource.Group].
  destruct (snd (splitResourceName (APIResource.Name resource))); [apply IH|].
  rewrite IH. apply lookup_insert_ne. intros Heq. apply (Hkey _ (eq_sym Heq)).
Qed.

Lemma proceduralClient_lists (fixtures : discoverytesting.Fixtures.t)
    (groups versionsPerGroup resourcesPerVersion : Z) (o : options.t)
    (group : APIGroup.t) (version : GroupVersionForDiscovery.t) :
  In group (FakeCachedDiscoveryClient.Groups
              (discoverytesting.proceduralClient fixtures groups versionsPerGroup resourcesPerVersion)) ->
  In version (APIGroup.Versions group) ->
  exists resourceList,
    ServerResourcesForGroupVersion
      (invalidateUnlessCached o
         (discoverytesting.proceduralClient fixtures groups versionsPerGroup resourcesPerVersion))
      (GroupVersionForDiscovery.GroupVersion version) = (resourceList, None)
    /\ APIResourceList.APIResources resourceList = discoverytesting.proceduralResources resourcesPerVersion.
Proof.
  intros Hgroup Hversion.
  assert (ServerResourcesForGroupVersion
            (invalidateUnlessCached o
               (discoverytesting.proceduralClient fixtures groups versionsPerGroup resourcesPerVersion))
            (GroupVersionForDiscovery.GroupVersion version)
          = fakeResourcesFor
              (FakeCachedDiscoveryClient.Resources
                 (discoverytesting.proceduralClient fixtures groups versionsPerGroup resourcesPerVersion))
              (GroupVersionForDiscovery.GroupVersion version)) as ->
    by (unfold invalidateUnlessCached; destruct (options.Cached o); reflexivity).
  cbn [discoverytesting.proceduralClient FakeCachedDiscoveryClient.Resources
       FakeCachedDiscoveryClient.Groups] in *. cbv zeta in *.
  cbn [FakeCachedDiscoveryClient.Groups FakeCachedDiscoveryClient.Resources] in *.
  rewrite <- app_assoc. apply fakeResourcesFor_first.
  - intros resourceList Hin. apply in_flat_map in Hin as (g & _ & Hin).
    apply in_map_iff in Hin as (v & <- & _). reflexivity.
  - exists {| APIResourceList.GroupVersion := GroupVersionForDiscovery.GroupVersion version;
              APIResourceList.APIResources := discoverytesting.proceduralResources resourcesPerVersion |}.
    split; [|reflexivity]. apply in_flat_map. exists group. split; [exact Hgroup|].
    apply in_map_iff. exists version. split; [reflexivity | exact Hversion].
Qed.

Lemma proceduralClient_index (fixtures : discoverytesting.Fixtures.t)
    (groups versionsPerGroup resourcesPerVersion : Z) (o : options.t) :
  discoverytesting.coreAndAutoscaling fixtures ->
  exists index,
    getPreferredResourceVersions
      (invalidateUnlessCached o
         (discoverytesting.proceduralClient fixtures groups versionsPerGroup resourcesPerVersion))
    = (index, None)
    /\ forall (i k : Z),
         index !! ("resource" +:+ discoverytesting.Itoa k +:+ "." +:+ "group" +:+ discoverytesting.Itoa i) = None.
Proof.
  intros ((coreVersion & Hcore) & (autoscalingVersion & Hautoscaling)).
  assert (getPreferredResourceVersions
            (invalidateUnlessCached o
               (discoverytesting.proceduralClient fixtures groups versionsPerGroup resourcesPerVersion))
          = indexResourceLists
              [discoverytesting.Fixtures.getCorePreferredResources fixtures;
               discoverytesting.Fixtures.getAutoscalingPreferredResources fixtures] ∅) as ->
    by (unfold invalidateUnlessCached; destruct (options.Cached o); reflexivity).
  cbn [indexResourceLists]. rewrite Hcore, Hautoscaling.
  cbn [schema.GroupVersion.Group schema.GroupVersion.Version].
  eexists. split; [reflexivity|]. intros i k.
  assert (forall group base : string,
            (group = "" \/ group = "autoscaling") ->
            ("resource" +:+ discoverytesting.Itoa k) +:+ "." +:+ ("group" +:+ discoverytesting.Itoa i)
            <> base +:+ "." +:+ group) as Hother.
  { intros group base Hgroup Heq. symmetry in Heq.
    apply dot_split_unique in Heq as [_ Heq].
    - destruct Hgroup as [-> | ->]; discriminate.
    - apply no_dot_numbered. unfold hasDot. cbn. intuition discriminate.
    - apply no_dot_numbered. unfold hasDot. cbn. intuition discriminate. }
  change ("resource" +:+ discoverytesting.Itoa k +:+ "." +:+ "group" +:+ discoverytesting.Itoa i)
    with (("resource" +:+ discoverytesting.Itoa k) +:+ "." +:+ ("group" +:+ discoverytesting.Itoa i)).
  rewrite !indexResources_other by (intros base; apply Hother; auto).
  apply lookup_empty.
Qed.

Lemma proceduralResources_members (resourcesPerVersion : Z) (listed : APIResource.t) :
  In listed (discoverytesting.proceduralResources resourcesPerVersion) ->
  exists k : Z, listed = discoverytesting.proceduralResource k.
Proof.
  unfold discoverytesting.proceduralResources. intros Hin. apply in_map_iff in Hin as (k & <- & _).
  exists (Z.of_nat k). reflexivity.
Qed.

Lemma proceduralResource_plain (k : Z) :
  ~ hasSlash (APIResource.Name (discoverytesting.proceduralResource k)).
Proof.
  cbn [discoverytesting.proceduralResource APIResource.Name]. apply no_slash_numbered.
  unfold hasSlash. cbn. intuition discriminate.
Qed.

Lemma procedural_enumeration (fixtures : discoverytesting.Fixtures.t)
    (groups versionsPerGroup resourcesPerVersion : Z) (o : options.t) :
  discoverytesting.coreAndAutoscaling fixtures ->
  options.groupChanged o = false ->
  options.nsChanged o = false ->
  options.preferredChanged o = false ->
  options.Verbs o = [] ->
  options.Categories o = [] ->
  exists resources,
    getGroupResources o
      (discoverytesting.proceduralClient fixtures groups versionsPerGroup resourcesPerVersion)
    = (resources, None)
    /\ length resources
       = (Z.to_nat groups * (Z.to_nat versionsPerGroup * Z.to_nat resourcesPerVersion))%nat
    /\ forall r, In r resources -> groupResource.Preferred r = false.
Proof.
  intros Hfixtures Hgroup Hns Hpreferred Hverbs Hcategories.
  set (client := discoverytesting.proceduralClient fixtures groups versionsPerGroup resourcesPerVersion).
  destruct (proceduralClient_index fixtures groups versionsPerGroup resourcesPerVersion o
              Hfixtures) as (index & Hindex & Hnone).
  fold client in Hindex.
  assert (ServerGroups (invalidateUnlessCached o client)
          = ({| APIGroupList.Groups := FakeCachedDiscoveryClient.Groups client |}, None))
    as Hgroups
    by (unfold invalidateUnlessCached; destruct (options.Cached o); reflexivity).
  assert (forall group version,
            In group (FakeCachedDiscoveryClient.Groups client) ->
            In version (APIGroup.Versions group) ->
            candidates o index group version
              (APIResourceList.APIResources
                 (fst (ServerResourcesForGroupVersion (invalidateUnlessCached o client)
                         (GroupVersionForDiscovery.GroupVersion version))))
            = map (recordOf index group version) (discoverytesting.proceduralResources resourcesPerVersion))
    as Hcandidates.
  { intros group version Hg Hv.
    destruct (proceduralClient_lists fixtures groups versionsPerGroup resourcesPerVersion
                o group version Hg Hv) as (resourceList & Hlookup & Hlist).
    fold client in Hlookup. rewrite Hlookup. cbn [fst]. rewrite Hlist. unfold candidates. apply filter_all.
    intros r Hr. apply in_map_iff in Hr as (listed & <- & Hlisted).
    apply proceduralResources_members in Hlisted as (k & ->).
    apply negb_true_iff, excludeGroupResource_false.
    rewrite Hns, Hpreferred, Hverbs, Hcategories.
    split; [exact (proceduralResource_plain k)|].
    repeat split; try discriminate; intros x []. }
  exists (discoveryOrder o (invalidateUnlessCached o client) index
            (FakeCachedDiscoveryClient.Groups client)).
  split; [|split].
  - unfold getGroupResources. cbv zeta. rewrite Hgroups, Hindex.
    cbn [APIGroupList.Groups]. rewrite processGroups_ok; [reflexivity|].
    intros group version Hg _ Hv.
    destruct (proceduralClient_lists fixtures groups versionsPerGroup resourcesPerVersion
                o group version Hg Hv) as (resourceList & Hlookup & _).
    fold client in Hlookup. rewrite Hlookup. reflexivity.
  - unfold discoveryOrder. rewrite filter_all.
    2:{ intros group _. apply negb_true_iff, excludeGroup_false.
        rewrite Hgroup. discriminate. }
    rewrite (flat_map_length_each _ _
               (Z.to_nat versionsPerGroup * Z.to_nat resourcesPerVersion)).
    + unfold client. cbn [discoverytesting.proceduralClient FakeCachedDiscoveryClient.Groups].
      rewrite length_map, length_seq. reflexivity.
    + intros group Hg.
      rewrite (flat_map_length_each _ _ (Z.to_nat resourcesPerVersion)).
      * assert (length (APIGroup.Versions group) = Z.to_nat versionsPerGroup) as ->;
          [|reflexivity].
        unfold client in Hg. cbn [discoverytesting.proceduralClient FakeCachedDiscoveryClient.Groups] in Hg.
        apply in_map_iff in Hg as (i & <- & _).
        apply proceduralVersions_length.
      * intros version Hv. rewrite (Hcandidates group version Hg Hv).
        unfold discoverytesting.proceduralResources. rewrite !length_map, length_seq. reflexivity.
  - intros r Hr. unfold discoveryOrder in Hr.
    apply in_flat_map in Hr as (group & Hg & Hr).
    apply filter_In in Hg as [Hg _].
    apply in_flat_map in Hr as (version & Hv & Hr).
    rewrite (Hcandidates group version Hg Hv) in Hr.
    apply in_map_iff in Hr as (listed & <- & Hlisted).
    apply proceduralResources_members in Hlisted as (k & ->).
    unfold client in Hg. cbn [discoverytesting.proceduralClient FakeCachedDiscoveryClient.Groups] in Hg.
    apply in_map_iff in Hg as (i & <- & _).
    cbn [recordOf groupResource.Preferred].
    rewrite (splitResourceName_base (APIResource.Name (discoverytesting.proceduralResource k)))
      by (apply splitResourceName_None, proceduralResource_plain).
    cbn [discoverytesting.proceduralResource discoverytesting.proceduralGroup APIResource.Name APIGroup.Name].
    match goal with
    | |- context [index !! ?key] =>
        replace (index !! key) with (@None string)
          by (symmetry; exact (Hnone (Z.of_nat i) k))
    end.
    reflexivity.
Qed.


Lemma NewProcedural_client (fixtures : discoverytesting.Fixtures.t)
    (groups versionsPerGroup resourcesPerVersion : Z)
    (client : FakeCachedDiscoveryClient.t) :
  discoverytesting.NewProcedural fixtures groups versionsPerGroup resourcesPerVersion = Return client ->
  client = discoverytesting.proceduralClient fixtures groups versionsPerGroup resourcesPerVersion.
Proof.
  rewrite NewProcedural_result.
  destruct (groups <=? 0)%Z; [congruence|].
  destruct (versionsPerGroup <=? 0)%Z; [discriminate|].
  destruct (resourcesPerVersion <? 0)%Z; [discriminate | congruence].
Qed.

(** In the client [NewProcedural] returns, every group has as many versions
    as asked for, its preferred version is the highest of them, and every
    version entry is consistent with its group. *)
Theorem NewProcedural_consistent (fixtures : discoverytesting.Fixtures.t)
    (groups versionsPerGroup resourcesPerVersion : Z)
    (client : FakeCachedDiscoveryClient.t) (group : APIGroup.t) :
  discoverytesting.NewProcedural fixtures groups versionsPerGroup resourcesPerVersion = Return client ->
  In group (FakeCachedDiscoveryClient.Groups client) ->
  length (APIGroup.Versions group) = Z.to_nat versionsPerGroup
  /\ APIGroup.PreferredVersion group
     = discoverytesting.proceduralVersion (APIGroup.Name group) versionsPerGroup
  /\ forall version, In version (APIGroup.Versions group) ->
       consistentVersion group version.
Proof.
  intros Hclient Hgroup. apply NewProcedural_client in Hclient. subst client.
  split; [|split].
  - cbn [discoverytesting.proceduralClient FakeCachedDiscoveryClient.Groups] in Hgroup.
    apply in_map_iff in Hgroup as (i & <- & _). apply proceduralVersions_length.
  - cbn [discoverytesting.proceduralClient FakeCachedDiscoveryClient.Groups] in Hgroup.
    apply in_map_iff in Hgroup as (i & <- & _). reflexivity.
  - intros version Hversion.
    exact (proceduralClient_consistent fixtures groups versionsPerGroup
             resourcesPerVersion group version Hgroup Hversion).
Qed.

Lemma NewProcedural_consistent_witness :
  length (APIGroup.Versions (discoverytesting.proceduralGroup 3 1)) = Z.to_nat 3
  /\ APIGroup.PreferredVersion (discoverytesting.proceduralGroup 3 1)
     = discoverytesting.proceduralVersion (APIGroup.Name (discoverytesting.proceduralGroup 3 1)) 3
  /\ forall version, In version (APIGroup.Versions (discoverytesting.proceduralGroup 3 1)) ->
       consistentVersion (discoverytesting.proceduralGroup 3 1) version.
Proof.
  apply (NewProcedural_consistent discoverytesting.smallFixtures 2 3 1
           (discoverytesting.proceduralClient discoverytesting.smallFixtures 2 3 1) (discoverytesting.proceduralGroup 3 1)).
  - reflexivity.
  - right. left. reflexivity.
Defined.

Lemma smallFixtures_groups : discoverytesting.coreAndAutoscaling discoverytesting.smallFixtures.
Proof. split; [exists "v1" | exists "v2"]; reflexivity. Qed.

(** With the test data of the core group and of [autoscaling], and without
    filters, the enumeration of the client [NewProcedural] returns succeeds:
    it has one record for each resource of each version of each group, and
    none of them is marked preferred, as no generated resource is in the
    preferred resources of the client. *)
Theorem NewProcedural_enumerated (fixtures : discoverytesting.Fixtures.t)
    (groups versionsPerGroup resourcesPerVersion : Z)
    (client : FakeCachedDiscoveryClient.t) (o : options.t) :
  discoverytesting.NewProcedural fixtures groups versionsPerGroup resourcesPerVersion = Return client ->
  discoverytesting.coreAndAutoscaling fixtures ->
  options.groupChanged o = false ->
  options.nsChanged o = false ->
  options.preferredChanged o = false ->
  options.Verbs o = [] ->
  options.Categories o = [] ->
  exists resources,
    getGroupResources o client = (resources, None)
    /\ length resources
       = (Z.to_nat groups * (Z.to_nat versionsPerGroup * Z.to_nat resourcesPerVersion))%nat
    /\ forall r, In r resources -> groupResource.Preferred r = false.
Proof.
  intros Hclient. apply NewProcedural_client in Hclient. subst client.
  apply procedural_enumeration.
Qed.

Lemma NewProcedural_enumerated_witness :
  exists resources,
    getGroupResources newAPIResourceVersionsOptions (discoverytesting.proceduralClient discoverytesting.smallFixtures 2 3 1)
    = (resources, None)
    /\ length resources = (Z.to_nat 2 * (Z.to_nat 3 * Z.to_nat 1))%nat
    /\ forall r, In r resources -> groupResource.Preferred r = false.
Proof.
  apply (NewProcedural_enumerated discoverytesting.smallFixtures 2 3 1
           (discoverytesting.proceduralClient discoverytesting.smallFixtures 2 3 1) newAPIResourceVersionsOptions).
  - reflexivity.
  - exact smallFixtures_groups.
  - reflexivity.
  - reflexivity.
  - reflexivity.
  - reflexivity.
  - reflexivity.
Defined.

(** ** The two revisions *)

Section Revisions.

Context `{CachedDiscoveryInterface T}.
Variables (o : options.t) (discoveryClient : T).

Lemma legacy_processResources_kept group version apiResources resources :
  Legacy.processResources o group version apiResources resources
  = resources
    ++ List.filter (fun r => negb (Legacy.excludeGroupResource r o))
         (map (legacyRecordOf group version) apiResources).
Proof.
  revert resources. induction apiResources as [|apiResource rest IH]; intros resources;
    cbn [Legacy.processResources map List.filter].
  - rewrite app_nil_r. reflexivity.
  - cbv zeta. fold (legacyRecordOf group version apiResource).
    destruct (Legacy.excludeGroupResource (legacyRecordOf group version apiResource) o);
      cbn [negb]; rewrite IH; [reflexivity|].
    rewrite <- app_assoc. reflexivity.
Qed.

Lemma legacy_processVersions_ok group versions resources :
  (forall version, In version versions ->
     snd (ServerResourcesForGroupVersion discoveryClient
            (Legacy.listedUnder group version)) = None) ->
  Legacy.processVersions o discoveryClient group versions resources
  = (resources
     ++ flat_map
          (fun version =>
             List.filter (fun r => negb (Legacy.excludeGroupResource r o))
               (map (legacyRecordOf group version)
                  (APIResourceList.APIResources
                     (fst (ServerResourcesForGroupVersion discoveryClient
                             (Legacy.listedUnder group version))))))
          versions,
     None).
Proof.
  revert resources. induction versions as [|version rest IH]; intros resources Hall;
    cbn [Legacy.processVersions flat_map].
  - rewrite app_nil_r. reflexivity.
  - pose proof (Hall version (or_introl eq_refl)) as Hhead.
    destruct (ServerResourcesForGroupVersion discoveryClient
                (Legacy.listedUnder group version)) as [resourceList [err|]];
      [discriminate|].
    rewrite IH by (intros v Hv; apply Hall; right; exact Hv).
    rewrite legacy_processResources_kept, <- app_assoc. reflexivity.
Qed.

Lemma legacy_processGroups_ok groups resources :
  (forall group version,
     In group groups -> In version (APIGroup.Versions group) ->
     snd (ServerResourcesForGroupVersion discoveryClient
            (Legacy.listedUnder group version)) = None) ->
  Legacy.processGroups o discoveryClient groups resources
  = (resources
     ++ flat_map
          (fun group =>
             flat_map
               (fun version =>
                  List.filter (fun r => negb (Legacy.excludeGroupResource r o))
                    (map (legacyRecordOf group version)
                       (APIResourceList.APIResources
                          (fst (ServerResourcesForGroupVersion discoveryClient
                                  (Legacy.listedUnder group version))))))
               (APIGroup.Versions group))
          groups,
     None).
Proof.
  revert resources. induction groups as [|group rest IH]; intros resources Hall;
    cbn [Legacy.processGroups flat_map].
  - rewrite app_nil_r. reflexivity.
  - rewrite legacy_processVersions_ok
      by (intros v Hv; apply (Hall group v); auto using in_eq).
    rewrite IH by (intros g v Hg; apply Hall; right; exact Hg).
    rewrite <- app_assoc. reflexivity.
Qed.

End Revisions.

Lemma legacy_exclude_agrees (o : options.t) (index : gmap string string)
    (group : APIGroup.t) (version : GroupVersionForDiscovery.t) (listed : APIResource.t) :
  excludeGroup group o = false ->
  options.preferredChanged o = false ->
  Legacy.excludeGroupResource (legacyRecordOf group version listed) o
  = excludeGroupResource (recordOf index group version listed) o.
Proof.
  unfold excludeGroup, Legacy.excludeGroupResource, excludeGroupResource.
  cbv zeta.
  cbn [legacyRecordOf recordOf Legacy.groupResource.APIResource
       Legacy.groupResource.APIGroup groupResource.APIResource
       APIResource.setGroup APIResource.Name APIResource.Namespaced APIResource.Verbs
       APIResource.Categories].
  intros Hgroup ->. cbn [andb].
  destruct (options.groupChanged o
            && negb (String.eqb (options.APIGroup o) (APIGroup.Name group)));
    [discriminate|].
  reflexivity.
Qed.

Lemma legacy_exclude_group (o : options.t) (group : APIGroup.t)
    (version : GroupVersionForDiscovery.t) (listed : APIResource.t) :
  excludeGroup group o = true ->
  Legacy.excludeGroupResource (legacyRecordOf group version listed) o = true.
Proof.
  unfold excludeGroup, Legacy.excludeGroupResource. cbv zeta.
  cbn [legacyRecordOf Legacy.groupResource.APIResource Legacy.groupResource.APIGroup].
  intros Hgroup.
  destruct (options.groupChanged o
            && negb (String.eqb (options.APIGroup o) (APIGroup.Name group)));
    [|discriminate].
  destruct (strings.Contains (APIResource.Name listed) "/"); reflexivity.
Qed.

Lemma map_filter_agree {A B C D : Type} (f : B -> D) (g : C -> D)
    (p : B -> bool) (q : C -> bool) (mk : A -> B) (mk' : A -> C) (l : list A) :
  (forall a, In a l -> p (mk a) = q (mk' a)) ->
  (forall a, In a l -> f (mk a) = g (mk' a)) ->
  map f (List.filter p (map mk l)) = map g (List.filter q (map mk' l)).
Proof.
  induction l as [|a l IH]; intros Hp Hf; cbn [map List.filter]; [reflexivity|].
  rewrite <- (Hp a (or_introl eq_refl)).
  destruct (p (mk a)); cbn [map];
    [rewrite (Hf a (or_introl eq_refl)); f_equal|];
    apply IH; intros b Hb; [apply Hp | apply Hf | apply Hp | apply Hf]; right; exact Hb.
Qed.

Lemma filter_nothing {A : Type} (p : A -> bool) (l : list A) :
  (forall a, In a l -> p a = false) -> List.filter p l = [].
Proof.
  induction l as [|a l IH]; intros Hall; cbn [List.filter]; [reflexivity|].
  rewrite (Hall a (or_introl eq_refl)). apply IH.
  intros b Hb. apply Hall. right. exact Hb.
Qed.

Lemma flat_map_nothing {A B : Type} (f : A -> list B) (l : list A) :
  (forall a, In a l -> f a = []) -> flat_map f l = [].
Proof.
  induction l as [|a l IH]; intros Hall; cbn [flat_map]; [reflexivity|].
  rewrite (Hall a (or_introl eq_refl)), IH; [reflexivity|].
  intros b Hb. apply Hall. right. exact Hb.
Qed.

Lemma listedUnder_consistent (group : APIGroup.t) (version : GroupVersionForDiscovery.t) :
  consistentVersion group version ->
  Legacy.listedUnder group version = GroupVersionForDiscovery.GroupVersion version.
Proof. intros (_ & _ & Hgv). symmetry. exact Hgv. Qed.

(** On a discovery whose version entries are consistent with their groups
    and whose listings all succeed, and without [--preferred], the two
    revisions enumerate the same resources in the same order: record by
    record, the same group, the same group version and the same descriptor. *)
Theorem revisions_agree `{CachedDiscoveryInterface T} (o : options.t)
    (discoveryClient : T) (groupList : APIGroupList.t) (index : gmap string string) :
  ServerGroups (invalidateUnlessCached o discoveryClient) = (groupList, None) ->
  getPreferredResourceVersions (invalidateUnlessCached o discoveryClient) = (index, None) ->
  options.preferredChanged o = false ->
  (forall group version,
     In group (APIGroupList.Groups groupList) -> In version (APIGroup.Versions group) ->
     consistentVersion group version
     /\ snd (ServerResourcesForGroupVersion (invalidateUnlessCached o discoveryClient)
               (GroupVersionForDiscovery.GroupVersion version)) = None) ->
  snd (getGroupResources o discoveryClient) = None
  /\ snd (Legacy.getGroupResources o discoveryClient) = None
  /\ map legacyEntry (fst (Legacy.getGroupResources o discoveryClient))
     = map entry (fst (getGroupResources o discoveryClient)).
Proof.
  intros Hgroups Hindex Hpreferred Hall.
  unfold getGroupResources, Legacy.getGroupResources. cbv zeta.
  rewrite Hgroups, Hindex.
  rewrite processGroups_ok by (intros group version Hg _ Hv; apply (Hall group version Hg Hv)).
  rewrite legacy_processGroups_ok.
  2:{ intros group version Hg Hv. destruct (Hall group version Hg Hv) as [Hc Hok].
      rewrite (listedUnder_consistent group version Hc). exact Hok. }
  cbn [fst snd app]. split; [reflexivity|]. split; [reflexivity|].
  unfold discoveryOrder.
  induction (APIGroupList.Groups groupList) as [|group rest IH];
    cbn [flat_map List.filter map]; [reflexivity|].
  rewrite map_app, IH by (intros g v Hg; apply Hall; right; exact Hg). clear IH.
  assert (forall version, In version (APIGroup.Versions group) ->
            consistentVersion group version) as Hconsistent
    by (intros v Hv; apply (Hall group v (or_introl eq_refl) Hv)).
  destruct (excludeGroup group o) eqn:Hexclude; cbn [negb].
  - rewrite flat_map_nothing; [reflexivity|]. intros version Hv.
    apply filter_nothing. intros r Hr. apply in_map_iff in Hr as (listed & <- & _).
    rewrite (legacy_exclude_group o group version listed Hexclude). reflexivity.
  - cbn [flat_map]. rewrite map_app. f_equal.
    generalize (APIGroup.Versions group) Hconsistent. clear Hconsistent.
    intros versions. induction versions as [|version versions IHv]; intros Hconsistent;
      cbn [flat_map map]; [reflexivity|].
    rewrite !map_app, IHv by (intros v Hv; apply Hconsistent; right; exact Hv).
    f_equal. rewrite (listedUnder_consistent group version)
      by (apply Hconsistent; left; reflexivity).
    unfold candidates. apply map_filter_agree.
    + intros listed _.
      rewrite (legacy_exclude_agrees o index group version listed Hexclude Hpreferred).
      reflexivity.
    + intros listed _. reflexivity.
Qed.

Lemma revisions_agree_witness :
  snd (getGroupResources newAPIResourceVersionsOptions appsClient) = None
  /\ snd (Legacy.getGroupResources newAPIResourceVersionsOptions appsClient) = None
  /\ map legacyEntry (fst (Legacy.getGroupResources newAPIResourceVersionsOptions appsClient))
     = map entry (fst (getGroupResources newAPIResourceVersionsOptions appsClient)).
Proof.
  apply (revisions_agree newAPIResourceVersionsOptions appsClient
           {| APIGroupList.Groups := [appsGroup] |} {[ "deployments.apps" := "v1" ]}).
  - reflexivity.
  - vm_compute. reflexivity.
  - reflexivity.
  - intros group version Hgroup Hversion. split.
    + exact (appsClient_consistent group version Hgroup Hversion).
    + destruct Hgroup as [<-|[]]. destruct Hversion as [<-|[<-|[]]]; reflexivity.
Defined.

(** ** The preferred version of the group, in the two revisions *)

Lemma append_same_prefix (prefix a b : string) :
  prefix +:+ a = prefix +:+ b -> a = b.
Proof.
  induction prefix as [|c prefix IH]; [auto|].
  change (String c (prefix +:+ a) = String c (prefix +:+ b) -> a = b).
  intros [= Heq]. auto.
Qed.

Lemma GroupVersionString_same (group version version' : string) :
  GroupVersionString
    {| schema.GroupVersion.Group := group; schema.GroupVersion.Version := version |}
  = GroupVersionString
      {| schema.GroupVersion.Group := group; schema.GroupVersion.Version := version' |}
  <-> version = version'.
Proof.
  split; [|intros ->; reflexivity].
  unfold GroupVersionString. cbn [schema.GroupVersion.Group schema.GroupVersion.Version].
  destruct (negb (String.length group =? 0)%nat); [|auto].
  intros Heq. apply append_same_prefix in Heq.
  change ("/" +:+ version = "/" +:+ version') in Heq.
  apply append_same_prefix in Heq. exact Heq.
Qed.

(** When the entry of a version and the entry of the preferred version of
    its group are consistent with the group, the column [GROUPPREFERRED] of a
    record is what the earlier revision printed as [PREFERRED]: the group
    versions are the same exactly when the versions are. *)
Theorem PreferredGroupVersion_legacy (index : gmap string string) (group : APIGroup.t)
    (version : GroupVersionForDiscovery.t) (listed : APIResource.t) :
  consistentVersion group version ->
  consistentVersion group (APIGroup.PreferredVersion group) ->
  PreferredGroupVersion (recordOf index group version listed)
  = Legacy.Preferred (legacyRecordOf group version listed).
Proof.
  intros (_ & _ & Hversion) (_ & _ & Hpreferred).
  unfold PreferredGroupVersion, Legacy.Preferred.
  cbn [recordOf legacyRecordOf groupResource.APIGroup groupResource.APIGroupVersion
       Legacy.groupResource.APIGroup Legacy.groupResource.APIGroupVersion].
  rewrite Hversion, Hpreferred.
  destruct (String.eqb_spec
              (GroupVersionForDiscovery.Version (APIGroup.PreferredVersion group))
              (GroupVersionForDiscovery.Version version)) as [Heq|Hne].
  - rewrite Heq. apply String.eqb_refl.
  - apply String.eqb_neq. intros Heq. apply Hne.
    apply (GroupVersionString_same (APIGroup.Name group)). exact Heq.
Qed.

Lemma PreferredGroupVersion_legacy_witness :
  PreferredGroupVersion
    (recordOf ∅ appsGroup (discoveryVersion "apps/v1beta1" "v1beta1") deployments)
  = Legacy.Preferred
      (legacyRecordOf appsGroup (discoveryVersion "apps/v1beta1" "v1beta1") deployments).
Proof.
  apply (PreferredGroupVersion_legacy ∅ appsGroup
           (discoveryVersion "apps/v1beta1" "v1beta1") deployments).
  - apply (appsClient_consistent appsGroup (discoveryVersion "apps/v1beta1" "v1beta1")).
    + left. reflexivity.
    + right. left. reflexivity.
  - apply (appsClient_consistent appsGroup (discoveryVersion "apps/v1" "v1")).
    + left. reflexivity.
    + left. reflexivity.
Defined.
